(** * The dispatch plane of the LLM gateway, embedded from the Python sources

    The development follows the layout of the repository:
    - [src/services/load_balancer.py]  (module [LB]),
    - [src/services/cache_service.py]  (module [Cache]),
    - [src/api/middleware.py]          (module [RateLimit]),
    - [src/main.py]                    (module [Main]),
    - [src/services/llm_service.py]    (module [LLM]).

    Conventions.  Python [int] is [Z]; list positions are [nat]; Python
    [float] (durations, weights, epoch seconds) is read as an exact rational
    [Q], so rounding is not modelled.  A [dict] whose iteration order is
    observable is an insertion-ordered association list; a [dict] that is
    only looked up is a [gmap].  Code that may raise returns
    [Exception + A]. *)

From Stdlib Require Import QArith Lqa Ascii String.
From stdpp Require Import base list strings pretty gmap.

Open Scope Z_scope.

(** ** Exceptions and the error monad *)

Inductive Exception : Type :=
  | RuntimeError (msg : string)
  | ValueError (msg : string)
  | IndexError (msg : string)
  | KeyError (key : string)
  | AttributeError (msg : string)
  | TypeError (msg : string)
  | ConnectionError (msg : string)
  | TimeoutException (msg : string)
  | HTTPStatusError (status : Z)
  | JSONDecodeError (msg : string)
  | HTTPException (status : Z) (detail : string).

Abbreviation Raises A := (Exception + A)%type.

Definition ret {A} (a : A) : Raises A := inr a.
Definition raise {A} (e : Exception) : Raises A := inl e.

Definition bind {A B} (c : Raises A) (k : A -> Raises B) : Raises B :=
  match c with
  | inl e => inl e
  | inr a => k a
  end.

Definition is_raised {A} (c : Raises A) : bool :=
  match c with inl _ => true | inr _ => false end.

(** ** Insertion-ordered dictionaries

    [d[k] = v] keeps the position of an existing key and appends a new one;
    [del d[k]] removes what is stored under the key; [d.values()] lists in
    insertion order.  Keys are unique in the dictionaries the program
    builds. *)

Section py_dict.
Context {V : Type}.

Fixpoint dict_get (k : string) (d : list (string * V)) : option V :=
  match d with
  | [] => None
  | (k', v) :: d' => if decide (k = k') then Some v else dict_get k d'
  end.

Fixpoint dict_set (k : string) (v : V) (d : list (string * V))
  : list (string * V) :=
  match d with
  | [] => [(k, v)]
  | (k', v') :: d' =>
      if decide (k = k') then (k, v) :: d' else (k', v') :: dict_set k v d'
  end.

Fixpoint dict_del (k : string) (d : list (string * V))
  : list (string * V) :=
  match d with
  | [] => []
  | (k', v') :: d' =>
      if decide (k = k') then dict_del k d' else (k', v') :: dict_del k d'
  end.

Definition dict_contains (k : string) (d : list (string * V)) : bool :=
  bool_decide (is_Some (dict_get k d)).

Definition dict_values (d : list (string * V)) : list V := d.*2.
Definition dict_keys (d : list (string * V)) : list string := d.*1.
End py_dict.

(** [list.remove(x)]: drops the first occurrence. *)
Fixpoint list_remove (x : string) (l : list string) : list string :=
  match l with
  | [] => []
  | y :: l' => if decide (x = y) then l' else y :: list_remove x l'
  end.

(** [s.rstrip("/")]. *)
Fixpoint rstrip_slash (s : string) : string :=
  match s with
  | EmptyString => EmptyString
  | String c s' =>
      match rstrip_slash s' with
      | EmptyString => if decide (c = "/"%char) then EmptyString
                       else String c EmptyString
      | r => String c r
      end
  end.

(** ** [src/services/load_balancer.py] *)

Module LB.

Inductive LoadBalancerStrategy : Type :=
  | ROUND_ROBIN
  | LEAST_CONNECTIONS
  | RANDOM
  | WEIGHTED.

Record InstanceMetrics : Type := mkInstance {
  instance_id : string;
  url : string;
  active_connections : Z;
  total_requests : Z;
  successful_requests : Z;
  failed_requests : Z;
  total_response_time : Q;
  average_response_time : Q;
  total_tokens : Z;
  last_request_time : option Q;
  last_error_time : option Q;
  error_count : Z;
  is_healthy : bool;
  health_check_failures : Z;
  weight : Q
}.

(** The dataclass defaults. *)
Definition new_instance (id u : string) (w : Q) : InstanceMetrics :=
  {| instance_id := id; url := u;
     active_connections := 0; total_requests := 0;
     successful_requests := 0; failed_requests := 0;
     total_response_time := 0%Q; average_response_time := 0%Q;
     total_tokens := 0;
     last_request_time := None; last_error_time := None;
     error_count := 0; is_healthy := true;
     health_check_failures := 0; weight := w |}.

Record LoadBalancer : Type := mkLB {
  strategy : LoadBalancerStrategy;
  instances : list (string * InstanceMetrics);
  instance_list : list string;
  current_index : nat;
  health_check_interval : Z;
  lb_total_requests : Z;
  request_distribution : list (string * Z)
}.

(** [LoadBalancer.__init__]. *)
Definition init (s : LoadBalancerStrategy) : LoadBalancer :=
  {| strategy := s; instances := []; instance_list := [];
     current_index := 0%nat; health_check_interval := 30;
     lb_total_requests := 0; request_distribution := [] |}.

Definition set_instances (d : list (string * InstanceMetrics))
  (lb : LoadBalancer) : LoadBalancer :=
  {| strategy := strategy lb; instances := d;
     instance_list := instance_list lb;
     current_index := current_index lb;
     health_check_interval := health_check_interval lb;
     lb_total_requests := lb_total_requests lb;
     request_distribution := request_distribution lb |}.

Definition set_current_index (c : nat) (lb : LoadBalancer) : LoadBalancer :=
  {| strategy := strategy lb; instances := instances lb;
     instance_list := instance_list lb;
     current_index := c;
     health_check_interval := health_check_interval lb;
     lb_total_requests := lb_total_requests lb;
     request_distribution := request_distribution lb |}.

Definition add_instance (id u : string) (w : Q) (lb : LoadBalancer)
  : LoadBalancer :=
  if dict_contains id (instances lb) then lb
  else
    {| strategy := strategy lb;
       instances := dict_set id (new_instance id (rstrip_slash u) w)
                             (instances lb);
       instance_list := instance_list lb ++ [id];
       current_index := current_index lb;
       health_check_interval := health_check_interval lb;
       lb_total_requests := lb_total_requests lb;
       request_distribution := dict_set id 0 (request_distribution lb) |}.

(** [instance_list] and [request_distribution] hold the id whenever
    [instances] does, so that [list.remove] and the second [del] find it. *)
Definition remove_instance (id : string) (lb : LoadBalancer) : LoadBalancer :=
  if dict_contains id (instances lb) then
    {| strategy := strategy lb;
       instances := dict_del id (instances lb);
       instance_list := list_remove id (instance_list lb);
       current_index := current_index lb;
       health_check_interval := health_check_interval lb;
       lb_total_requests := lb_total_requests lb;
       request_distribution := dict_del id (request_distribution lb) |}
  else lb.

(** *** Selection strategies *)

(** [_round_robin_select]: returns the new cursor with the pick.  Indexing
    an empty list raises [IndexError], after the cursor was reset. *)
Definition _round_robin_select (cursor : nat) (insts : list InstanceMetrics)
  : nat * Raises InstanceMetrics :=
  let c := if bool_decide (length insts <= cursor)%nat then 0%nat
           else cursor in
  match insts !! c with
  | Some inst => (S c, ret inst)
  | None => (c, raise (IndexError "list index out of range"))
  end.

(** Python's [min(xs, key=f)]: the first element whose key is minimal; a
    later element replaces the current one only when strictly smaller. *)
Fixpoint min_by_from {A} (key : A -> Z) (best : A) (xs : list A) : A :=
  match xs with
  | [] => best
  | x :: xs' =>
      min_by_from key (if bool_decide (key x < key best) then x else best) xs'
  end.

Definition py_min {A} (key : A -> Z) (xs : list A) : Raises A :=
  match xs with
  | [] => raise (ValueError "min() arg is an empty sequence")
  | x :: xs' => ret (min_by_from key x xs')
  end.

Definition _least_connections_select (insts : list InstanceMetrics)
  : Raises InstanceMetrics :=
  py_min active_connections insts.

(** The pseudo-random generator is an input: [rand_index] is the position
    drawn by [random.choice], [rand_unit] the draw of [random()] in
    [random.choices]. *)
Record Rng : Type := mkRng { rand_index : nat; rand_unit : Q }.

Definition _random_select (r : Rng) (insts : list InstanceMetrics)
  : Raises InstanceMetrics :=
  match insts with
  | [] => raise (IndexError "Cannot choose from an empty sequence")
  | _ =>
      match insts !! (rand_index r mod length insts)%nat with
      | Some inst => ret inst
      | None => raise (IndexError "Cannot choose from an empty sequence")
      end
  end.

Fixpoint cum_weights (acc : Q) (ws : list Q) : list Q :=
  match ws with
  | [] => []
  | w :: ws' => (acc + w)%Q :: cum_weights (acc + w)%Q ws'
  end.

(** [bisect_right(cum, x, 0, hi)]. *)
Fixpoint bisect (x : Q) (hi : nat) (cum : list Q) : nat :=
  match hi, cum with
  | S hi', c :: cum' =>
      if Qle_bool c x then S (bisect x hi' cum') else 0%nat
  | _, _ => 0%nat
  end.

Definition _weighted_select (r : Rng) (insts : list InstanceMetrics)
  : Raises InstanceMetrics :=
  let cum := cum_weights 0%Q (weight <$> insts) in
  match last cum with
  | None => raise (IndexError "list index out of range")
  | Some total =>
      if Qle_bool total 0%Q then
        raise (ValueError "Total of weights must be greater than zero")
      else
        match insts !! bisect (rand_unit r * total)%Q (length insts - 1)%nat
                         cum with
        | Some inst => ret inst
        | None => raise (IndexError "list index out of range")
        end
  end.

(** The candidates of [get_instance]: the healthy instances in dictionary
    order, or every instance when none is healthy. *)
Definition candidates (lb : LoadBalancer) : list InstanceMetrics :=
  let healthy := filter (fun i => is_healthy i = true)
                        (dict_values (instances lb)) in
  match healthy with
  | [] => dict_values (instances lb)
  | _ => healthy
  end.

Definition select (r : Rng) (lb : LoadBalancer)
  : nat * Raises InstanceMetrics :=
  match strategy lb with
  | ROUND_ROBIN => _round_robin_select (current_index lb) (candidates lb)
  | LEAST_CONNECTIONS =>
      (current_index lb, _least_connections_select (candidates lb))
  | RANDOM => (current_index lb, _random_select r (candidates lb))
  | WEIGHTED => (current_index lb, _weighted_select r (candidates lb))
  end.

(** The bookkeeping of [get_instance] once an instance is selected. *)
Definition reserve (now : Q) (i : InstanceMetrics) : InstanceMetrics :=
  {| instance_id := instance_id i; url := url i;
     active_connections := active_connections i + 1;
     total_requests := total_requests i + 1;
     successful_requests := successful_requests i;
     failed_requests := failed_requests i;
     total_response_time := total_response_time i;
     average_response_time := average_response_time i;
     total_tokens := total_tokens i;
     last_request_time := Some now;
     last_error_time := last_error_time i;
     error_count := error_count i; is_healthy := is_healthy i;
     health_check_failures := health_check_failures i;
     weight := weight i |}.

Definition get_instance (now : Q) (r : Rng) (lb : LoadBalancer)
  : LoadBalancer * Raises InstanceMetrics :=
  let lb1 :=
    {| strategy := strategy lb; instances := instances lb;
       instance_list := instance_list lb;
       current_index := current_index lb;
       health_check_interval := health_check_interval lb;
       lb_total_requests := lb_total_requests lb + 1;
       request_distribution := request_distribution lb |} in
  match instances lb with
  | [] => (lb1, raise (RuntimeError "No instances available"))
  | _ =>
      match select r lb1 with
      | (c, inl e) => (set_current_index c lb1, inl e)
      | (c, inr inst) =>
          let inst' := reserve now inst in
          let insts' := dict_set (instance_id inst) inst' (instances lb) in
          match dict_get (instance_id inst) (request_distribution lb) with
          | None =>
              (set_instances insts' (set_current_index c lb1),
               raise (KeyError (instance_id inst)))
          | Some n =>
              ({| strategy := strategy lb; instances := insts';
                  instance_list := instance_list lb;
                  current_index := c;
                  health_check_interval := health_check_interval lb;
                  lb_total_requests := lb_total_requests lb + 1;
                  request_distribution :=
                    dict_set (instance_id inst) (n + 1)
                             (request_distribution lb) |},
               ret inst')
          end
      end
  end.

(** *** Metric and health updates *)

(** Applies [f] to the instance registered under [id]; nothing happens when
    the id is unknown ([if instance_id in self.instances]). *)
Definition with_instance (id : string)
  (f : InstanceMetrics -> InstanceMetrics) (lb : LoadBalancer)
  : LoadBalancer :=
  match dict_get id (instances lb) with
  | Some i => set_instances (dict_set id (f i) (instances lb)) lb
  | None => lb
  end.

Definition released (i : InstanceMetrics) : InstanceMetrics :=
  {| instance_id := instance_id i; url := url i;
     active_connections := Z.max 0 (active_connections i - 1);
     total_requests := total_requests i;
     successful_requests := successful_requests i;
     failed_requests := failed_requests i;
     total_response_time := total_response_time i;
     average_response_time := average_response_time i;
     total_tokens := total_tokens i;
     last_request_time := last_request_time i;
     last_error_time := last_error_time i;
     error_count := error_count i; is_healthy := is_healthy i;
     health_check_failures := health_check_failures i;
     weight := weight i |}.

Definition release_instance (id : string) (lb : LoadBalancer)
  : LoadBalancer :=
  with_instance id released lb.

(** The body of [update_metrics] on the instance found. *)
Definition record_outcome (success : bool) (response_time : Q)
  (tokens_used : Z) (now : Q) (i : InstanceMetrics) : InstanceMetrics :=
  let ac := Z.max 0 (active_connections i - 1) in
  if success then
    let sr := successful_requests i + 1 in
    let trt := (total_response_time i + response_time)%Q in
    {| instance_id := instance_id i; url := url i;
       active_connections := ac;
       total_requests := total_requests i;
       successful_requests := sr;
       failed_requests := failed_requests i;
       total_response_time := trt;
       average_response_time :=
         if bool_decide (0 < sr) then (trt / inject_Z sr)%Q
         else average_response_time i;
       total_tokens := total_tokens i + tokens_used;
       last_request_time := last_request_time i;
       last_error_time := last_error_time i;
       error_count := 0; is_healthy := is_healthy i;
       health_check_failures := health_check_failures i;
       weight := weight i |}
  else
    let ec := error_count i + 1 in
    {| instance_id := instance_id i; url := url i;
       active_connections := ac;
       total_requests := total_requests i;
       successful_requests := successful_requests i;
       failed_requests := failed_requests i + 1;
       total_response_time := total_response_time i;
       average_response_time := average_response_time i;
       total_tokens := total_tokens i;
       last_request_time := last_request_time i;
       last_error_time := Some now;
       error_count := ec;
       is_healthy := if bool_decide (5 <= ec) then false else is_healthy i;
       health_check_failures := health_check_failures i;
       weight := weight i |}.

Definition update_metrics (id : string) (success : bool) (response_time : Q)
  (tokens_used : Z) (now : Q) (lb : LoadBalancer) : LoadBalancer :=
  with_instance id (record_outcome success response_time tokens_used now) lb.

Definition set_health (h : bool) (failures : Z) (i : InstanceMetrics)
  : InstanceMetrics :=
  {| instance_id := instance_id i; url := url i;
     active_connections := active_connections i;
     total_requests := total_requests i;
     successful_requests := successful_requests i;
     failed_requests := failed_requests i;
     total_response_time := total_response_time i;
     average_response_time := average_response_time i;
     total_tokens := total_tokens i;
     last_request_time := last_request_time i;
     last_error_time := last_error_time i;
     error_count := error_count i; is_healthy := h;
     health_check_failures := failures;
     weight := weight i |}.

Definition mark_unhealthy (id : string) (lb : LoadBalancer) : LoadBalancer :=
  with_instance id
    (fun i => set_health false (health_check_failures i + 1) i) lb.

Definition mark_healthy (id : string) (lb : LoadBalancer) : LoadBalancer :=
  with_instance id (fun i => set_health true 0 i) lb.

(** [_check_instance_health]: [probe] is what [client.get(.../api/tags)]
    gave, an exception or the status code.  The registry lock is never held
    across an await, so the test of the flag and the call of [mark_healthy]
    are not separated by another registry operation.  The instance probed is
    the one registered under [id] when the answer comes; an instance removed
    while its probe was in flight leaves the registry as it is. *)
Definition _check_instance_health (probe : Raises Z) (id : string)
  (lb : LoadBalancer) : LoadBalancer :=
  match probe with
  | inr status =>
      if bool_decide (status = 200) then
        match dict_get id (instances lb) with
        | Some i => if is_healthy i then lb else mark_healthy id lb
        | None => lb
        end
      else mark_unhealthy id lb
  | inl _ => mark_unhealthy id lb
  end.

Definition probe_succeeded (probe : Raises Z) : bool :=
  match probe with
  | inr status => bool_decide (status = 200)
  | inl _ => false
  end.

(** *** Histories of the registry

    The calls the registry receives, in the order the lock serialises
    them. *)
Inductive Call : Type :=
  | CallAdd (id u : string) (w : Q)
  | CallRemove (id : string)
  | CallGet (now : Q) (r : Rng)
  | CallRelease (id : string)
  | CallUpdate (id : string) (success : bool) (response_time : Q)
      (tokens_used : Z) (now : Q)
  | CallMarkUnhealthy (id : string)
  | CallMarkHealthy (id : string)
  | CallProbe (id : string) (probe : Raises Z).

Definition apply_call (lb : LoadBalancer) (c : Call) : LoadBalancer :=
  match c with
  | CallAdd id u w => add_instance id u w lb
  | CallRemove id => remove_instance id lb
  | CallGet now r => (get_instance now r lb).1
  | CallRelease id => release_instance id lb
  | CallUpdate id s rt tok now => update_metrics id s rt tok now lb
  | CallMarkUnhealthy id => mark_unhealthy id lb
  | CallMarkHealthy id => mark_healthy id lb
  | CallProbe id p => _check_instance_health p id lb
  end.

Definition run_calls (lb : LoadBalancer) (cs : list Call) : LoadBalancer :=
  foldl apply_call lb cs.

(** The outcome of the latest health check of each registered backend,
    kept beside the registry: a check of a registered backend is recorded,
    and the record of a backend goes with it when it is removed. *)
Definition record_check (lb : LoadBalancer) (checks : gmap string bool)
  (c : Call) : gmap string bool :=
  match c with
  | CallProbe id p =>
      if dict_contains id (instances lb)
      then <[id := probe_succeeded p]> checks else checks
  | CallRemove id => delete id checks
  | _ => checks
  end.

Definition track (st : LoadBalancer * gmap string bool) (c : Call)
  : LoadBalancer * gmap string bool :=
  (apply_call st.1 c, record_check st.1 st.2 c).

Definition run_tracked (lb : LoadBalancer) (cs : list Call)
  : LoadBalancer * gmap string bool :=
  foldl track (lb, ∅) cs.

(** [mark_healthy] has one caller in the sources, the health check; a
    history of the running system holds no other call of it. *)
Definition from_sources (c : Call) : bool :=
  match c with
  | CallMarkHealthy _ => false
  | _ => true
  end.

(** *** [initialize]

    [settings.OLLAMA_INSTANCES] is a [str]; when it is not empty the loop
    [for i, url in enumerate(instances)] runs over it, that is over its
    characters.  The two settings are arguments here; the health-check task
    the method starts is not part of the registry. *)
Definition configured_instances (ollama_base_url ollama_instances : string)
  : list string :=
  if bool_decide (ollama_instances = EmptyString) then [ollama_base_url]
  else (fun c => String c EmptyString)
         <$> list_ascii_of_string ollama_instances.

Definition numbered_id (i : nat) : string := "ollama-" +:+ pretty (S i).

Fixpoint add_numbered (i : nat) (urls : list string) (lb : LoadBalancer)
  : LoadBalancer :=
  match urls with
  | [] => lb
  | u :: urls' => add_numbered (S i) urls' (add_instance (numbered_id i) u 1%Q lb)
  end.

Definition initialize (ollama_base_url ollama_instances : string)
  (lb : LoadBalancer) : LoadBalancer :=
  add_numbered 0 (configured_instances ollama_base_url ollama_instances) lb.

(** *** Lookups *)

Definition get_instance_by_id (id : string) (lb : LoadBalancer)
  : option InstanceMetrics :=
  dict_get id (instances lb).

Definition get_all_instances (lb : LoadBalancer) : list InstanceMetrics :=
  dict_values (instances lb).

(** *** [get_stats] *)







End LB.

(** ** [src/config/settings.py]: the settings the dispatch plane reads *)

Record Settings : Type := mkSettings {
  REDIS_URL : string;
  CACHE_TTL : Z;
  OLLAMA_BASE_URL : string;
  DEFAULT_MODEL : string;
  MAX_TOKENS : Z;
  TEMPERATURE : Q;
  RATE_LIMIT_PER_MINUTE : Z
}.

(** The class attributes, used when the environment overrides nothing. *)
Definition default_settings : Settings :=
  {| REDIS_URL := "redis://localhost:6379/0";
     CACHE_TTL := 3600;
     OLLAMA_BASE_URL := "http://localhost:11434";
     DEFAULT_MODEL := "deepseek-coder:6.7b";
     MAX_TOKENS := 4096;
     TEMPERATURE := (7 # 10)%Q;
     RATE_LIMIT_PER_MINUTE := 60 |}.

(** ** JSON values, as [json.loads] builds them *)

#[warnings="-register-all"]
Inductive json : Type :=
  | JNull
  | JBool (b : bool)
  | JInt (n : Z)
  | JFloat (q : Q)
  | JString (s : string)
  | JArray (items : list json)
  | JObject (fields : list (string * json)).

(** [d.get(k, default)] on a decoded value; a value that is not an object
    has no [get]. *)
Definition json_get (k : string) (dflt : json) (v : json) : Raises json :=
  match v with
  | JObject fields => ret (default dflt (dict_get k fields))
  | _ => raise (AttributeError "object has no attribute 'get'")
  end.

(** Python truthiness of a decoded value. *)
Definition truthy (v : json) : bool :=
  match v with
  | JNull => false
  | JBool b => b
  | JInt n => negb (bool_decide (n = 0))
  | JFloat q => negb (Qeq_bool q 0)
  | JString s => negb (bool_decide (s = EmptyString))
  | JArray l => negb (bool_decide (l = []))
  | JObject l => negb (bool_decide (l = []))
  end.

(** ** [src/services/cache_service.py] *)

Module Cache.

(** The external key/value server.  [store] maps a key to the serialised
    value and its time to live; a stored text [json.dumps v] is represented
    by [v] itself, so [json.loads] of a stored text is the identity and the
    text is never empty.  Expiry is a step of the server ([expire]). *)
Record RedisServer : Type := mkServer {
  reachable : bool;
  store : gmap string (json * Z)
}.

Definition expire (k : string) (srv : RedisServer) : RedisServer :=
  {| reachable := reachable srv; store := delete k (store srv) |}.

(** The client library: every command fails on an unreachable server. *)
Definition redis_ping (srv : RedisServer) : Raises unit :=
  if reachable srv then ret tt
  else raise (ConnectionError "Error connecting to redis").

Definition redis_get (k : string) (srv : RedisServer)
  : Raises (option json) :=
  if reachable srv then ret (fst <$> store srv !! k)
  else raise (ConnectionError "Error connecting to redis").

Definition redis_setex (k : string) (ttl : Z) (v : json) (srv : RedisServer)
  : RedisServer * Raises unit :=
  if reachable srv then
    if bool_decide (0 < ttl) then
      ({| reachable := true; store := <[k := (v, ttl)]> (store srv) |}, ret tt)
    else (srv, raise (ValueError "invalid expire time in setex"))
  else (srv, raise (ConnectionError "Error connecting to redis")).

Inductive RedisClient : Type := Client (url : string).

Record CacheService : Type := mkCache {
  redis : option RedisClient;
  prefix : string;
  hits : Z;
  misses : Z;
  errors : Z
}.

(** [CacheService.__init__]. *)
Definition new : CacheService :=
  {| redis := None; prefix := "llm:cache:"; hits := 0; misses := 0;
     errors := 0 |}.

Definition set_redis (r : option RedisClient) (cs : CacheService)
  : CacheService :=
  {| redis := r; prefix := prefix cs; hits := hits cs; misses := misses cs;
     errors := errors cs |}.

Definition count_hit (cs : CacheService) : CacheService :=
  {| redis := redis cs; prefix := prefix cs; hits := hits cs + 1;
     misses := misses cs; errors := errors cs |}.

Definition count_miss (cs : CacheService) : CacheService :=
  {| redis := redis cs; prefix := prefix cs; hits := hits cs;
     misses := misses cs + 1; errors := errors cs |}.

Definition count_error (cs : CacheService) : CacheService :=
  {| redis := redis cs; prefix := prefix cs; hits := hits cs;
     misses := misses cs; errors := errors cs + 1 |}.

(** [initialize]: the client is kept only when the ping went through. *)
Definition initialize (st : Settings) (srv : RedisServer) (cs : CacheService)
  : CacheService :=
  match redis_ping srv with
  | inr _ => set_redis (Some (Client (REDIS_URL st))) cs
  | inl _ => set_redis None cs
  end.

(** [get]: [None] is the miss. *)
Definition get (key : string) (srv : RedisServer) (cs : CacheService)
  : CacheService * Raises (option json) :=
  match redis cs with
  | None => (cs, ret None)
  | Some _ =>
      match redis_get (prefix cs +:+ key) srv with
      | inr (Some value) => (count_hit cs, ret (Some value))
      | inr None => (count_miss cs, ret None)
      | inl _ => (count_error cs, ret None)
      end
  end.

(** [set]: [ttl = ttl or settings.CACHE_TTL]. *)
Definition set (st : Settings) (key : string) (value : json)
  (ttl : option Z) (srv : RedisServer) (cs : CacheService)
  : CacheService * RedisServer * Raises bool :=
  match redis cs with
  | None => (cs, srv, ret false)
  | Some _ =>
      let ttl' := match ttl with
                  | Some t => if bool_decide (t = 0) then CACHE_TTL st else t
                  | None => CACHE_TTL st
                  end in
      match redis_setex (prefix cs +:+ key) ttl' value srv with
      | (srv', inr _) => (cs, srv', ret true)
      | (srv', inl _) => (count_error cs, srv', ret false)
      end
  end.

(** [DEL key]: the number of keys removed. *)
Definition redis_delete (k : string) (srv : RedisServer)
  : RedisServer * Raises Z :=
  if reachable srv then
    ({| reachable := true; store := base.delete k (store srv) |},
     ret (if bool_decide (is_Some (store srv !! k)) then 1 else 0))
  else (srv, raise (ConnectionError "Error connecting to redis")).

(** [delete]: its [except] clause logs and does not count. *)
Definition delete (key : string) (srv : RedisServer) (cs : CacheService)
  : CacheService * RedisServer * Raises bool :=
  match redis cs with
  | None => (cs, srv, ret false)
  | Some _ =>
      match redis_delete (prefix cs +:+ key) srv with
      | (srv', inr _) => (cs, srv', ret true)
      | (srv', inl _) => (cs, srv', ret false)
      end
  end.

End Cache.

(** ** [src/api/middleware.py] *)

Module RateLimit.

(** [needle in hay] on strings. *)
Fixpoint contains (needle hay : string) : bool :=
  if String.prefix needle hay then true
  else match hay with
       | EmptyString => false
       | String _ hay' => contains needle hay'
       end.

Record Request : Type := mkRequest {
  client_ip : string;     (* get_remote_address(request) *)
  path : string           (* request.url.path *)
}.

Definition _get_endpoint_limit (st : Settings) (p : string) : Z :=
  if contains "/api/chat" p then RATE_LIMIT_PER_MINUTE st
  else if contains "/api/finetune" p then 10
  else if contains "/api/models" p && contains "pull" p then 5
  else 0.

Record RateLimitMiddleware : Type := mkMiddleware {
  rate_limits : gmap string (Z * Q)
}.

Definition new : RateLimitMiddleware := {| rate_limits := ∅ |}.

(** What [dispatch] does with the request: answer 429 itself, or hand the
    request to [call_next] and, for a limited endpoint, add the three
    [X-RateLimit-*] headers (limit, remaining, reset) to its response. *)
Inductive Outcome : Type :=
  | Rejected (status : Z) (detail : string)
  | Forwarded (headers : option (Z * Z * Z)).

(** [int(x)] on a float: truncation towards zero. *)
Definition py_int (x : Q) : Z := Z.quot (Qnum x) (Z.pos (Qden x)).

Definition dispatch (st : Settings) (req : Request) (current_time : Q)
  (mw : RateLimitMiddleware) : RateLimitMiddleware * Outcome :=
  let endpoint_limit := _get_endpoint_limit st (path req) in
  if bool_decide (endpoint_limit = 0) then (mw, Forwarded None)
  else
    let '(requests0, window_start0) :=
      default (0, current_time) (rate_limits mw !! client_ip req) in
    let '(requests, window_start) :=
      if Qlt_le_dec 60 (current_time - window_start0)
      then (0, current_time) else (requests0, window_start0) in
    if bool_decide (endpoint_limit <= requests) then
      (mw, Rejected 429 "Rate limit exceeded")
    else
      ({| rate_limits :=
            <[client_ip req := (requests + 1, window_start)]> (rate_limits mw) |},
       Forwarded (Some (endpoint_limit,
                        endpoint_limit - requests - 1,
                        py_int (window_start + 60)))).

(** The requests the middleware sees, in order, with their arrival times. *)
Fixpoint dispatch_all (st : Settings) (reqs : list (Request * Q))
  (mw : RateLimitMiddleware) : RateLimitMiddleware * list Outcome :=
  match reqs with
  | [] => (mw, [])
  | (req, t) :: reqs' =>
      let '(mw1, o) := dispatch st req t mw in
      let '(mw2, os) := dispatch_all st reqs' mw1 in
      (mw2, o :: os)
  end.

Definition is_429 (o : Outcome) : bool :=
  match o with
  | Rejected status _ => bool_decide (status = 429)
  | Forwarded _ => false
  end.

End RateLimit.

(** ** The upstream protocol ([POST {BASE}/api/generate])

    A response body is a sequence of newline-separated chunks of text, each
    one the text of a JSON value, a blank, or something that is not JSON.
    [response.json()] decodes the whole body as one document: it succeeds
    exactly when the body holds a single JSON value, blanks apart. *)

Record Payload : Type := mkPayload {
  p_model : string;
  p_prompt : string;
  p_stream : bool;
  p_temperature : Q;
  p_num_predict : Z
}.

Inductive Line : Type :=
  | Frame (v : json)
  | Blank
  | Garbage (text : string).

Record HttpResponse : Type := mkResponse {
  status_code : Z;
  body : list Line
}.

Definition is_blank (l : Line) : bool :=
  match l with Blank => true | _ => false end.

Definition response_json (r : HttpResponse) : Raises json :=
  match filter (fun l => is_blank l = false) (body r) with
  | [Frame v] => ret v
  | Frame _ :: _ => raise (JSONDecodeError "Extra data")
  | _ => raise (JSONDecodeError "Expecting value")
  end.

(** [response.raise_for_status()]. *)
Definition raise_for_status (r : HttpResponse) : Raises unit :=
  if bool_decide (200 <= status_code r < 300) then ret tt
  else raise (HTTPStatusError (status_code r)).

(** [str(e)]; the text of a status error names the status. *)
Definition str_exception (e : Exception) : string :=
  match e with
  | RuntimeError m | ValueError m | IndexError m | AttributeError m
  | TypeError m
  | ConnectionError m | TimeoutException m | JSONDecodeError m => m
  | KeyError k => "'" +:+ k +:+ "'"
  | HTTPStatusError s => "HTTP status error " +:+ pretty s
  | HTTPException s d => pretty s +:+ ": " +:+ d
  end.

(** ** [src/main.py]: the [/api/chat] handler *)

Module Main.

Definition newline : ascii := ascii_of_nat 10.
Definition dquote : string := String (ascii_of_nat 34) EmptyString.

(** [str.isspace] on the ASCII range. *)
Definition is_space (c : ascii) : bool :=
  let n := nat_of_ascii c in
  bool_decide (9 <= n <= 13)%nat || bool_decide (28 <= n <= 32)%nat.

(** [s.split('\n')]. *)
Fixpoint split_newline (s : string) : list string :=
  match s with
  | EmptyString => [EmptyString]
  | String c s' =>
      if decide (c = newline) then EmptyString :: split_newline s'
      else match split_newline s' with
           | l :: ls => String c l :: ls
           | [] => [String c EmptyString]
           end
  end.

Fixpoint lstrip (s : string) : string :=
  match s with
  | String c s' => if is_space c then lstrip s' else s
  | EmptyString => EmptyString
  end.

Fixpoint rstrip (s : string) : string :=
  match s with
  | EmptyString => EmptyString
  | String c s' =>
      match rstrip s' with
      | EmptyString => if is_space c then EmptyString else String c EmptyString
      | r => String c r
      end
  end.

Definition strip (s : string) : string := rstrip (lstrip s).

Definition fence : string := "```".

(** [s.replace('```', '')]. *)
Fixpoint remove_fences (s : string) : string :=
  match s with
  | String "`" (String "`" (String "`" rest)) => remove_fences rest
  | String c s' => String c (remove_fences s')
  | EmptyString => EmptyString
  end.

(** ['\n'.join(ls)]. *)
Fixpoint join_newline (ls : list string) : string :=
  match ls with
  | [] => EmptyString
  | [l] => l
  | l :: ls' => l +:+ String newline (join_newline ls')
  end.

Record CodeBlock : Type := mkBlock { language : string; code : string }.

(** The variables of the extraction loop. *)
Record Extraction : Type := mkExtraction {
  code_blocks_acc : list CodeBlock;
  in_code_block : bool;
  current_code : list string;
  current_language : string
}.

Definition extract_line (st : Extraction) (line : string) : Extraction :=
  if String.prefix fence (strip line) then
    if in_code_block st then
      {| code_blocks_acc :=
           match current_code st with
           | [] => code_blocks_acc st
           | _ => code_blocks_acc st ++
                    [{| language := current_language st;
                        code := join_newline (current_code st) |}]
           end;
         in_code_block := false; current_code := [];
         current_language := EmptyString |}
    else
      {| code_blocks_acc := code_blocks_acc st;
         in_code_block := true; current_code := current_code st;
         current_language := strip (remove_fences (strip line)) |}
  else if in_code_block st then
    {| code_blocks_acc := code_blocks_acc st;
       in_code_block := true;
       current_code := current_code st ++ [line];
       current_language := current_language st |}
  else st.

Definition extract_code_blocks (full_response : string) : list CodeBlock :=
  code_blocks_acc
    (foldl extract_line
       {| code_blocks_acc := []; in_code_block := false; current_code := [];
          current_language := EmptyString |}
       (split_newline full_response)).

(** The decoded request body, with the fields the handler reads. *)
Record ChatRequest : Type := mkChatRequest {
  message : string;
  model_name : option string;
  stream : bool
}.

Record ChatBody : Type := mkChatBody {
  body_message : string;
  conversation_id : Z;
  code_blocks : list CodeBlock;
  tokens_used : json;
  model : string
}.

Inductive SseEvent : Type :=
  | SseChunk (chunk : json)
  | SseDone.

Inductive Response : Type :=
  | JsonResponse (status : Z) (b : ChatBody)
  | StreamingResponse (status : Z) (events : list SseEvent)
  | ErrorResponse (status : Z) (detail : string).

(** The generator of the streaming branch, over the lines received. *)
Fixpoint sse_events (lines : list Line) : list SseEvent :=
  match lines with
  | [] => []
  | Frame (JObject fields) :: lines' =>
      let chunk := match dict_get "response" fields with
                   | Some c => [SseChunk c]
                   | None => []
                   end in
      if truthy (default (JBool false) (dict_get "done" fields))
      then chunk ++ [SseDone]
      else chunk ++ sse_events lines'
  | _ :: lines' => sse_events lines'
  end.

(** The non-streaming branch once the backend has answered. *)
Definition decode_reply (model_name : string) (reply : Raises HttpResponse)
  : Raises ChatBody :=
  bind reply (fun response =>
  bind (raise_for_status response) (fun _ =>
  bind (response_json response) (fun result =>
  bind (json_get "response" (JString EmptyString) result) (fun full =>
  match full with
  | JString full_response =>
      bind (json_get "total_duration" (JInt 0) result) (fun duration =>
      ret {| body_message := full_response;
             conversation_id := 1;
             code_blocks := extract_code_blocks full_response;
             tokens_used := duration;
             model := model_name |})
  | _ => raise (AttributeError "object has no attribute 'split'")
  end)))).

Definition fallback_body (message model_name : string) (e : Exception)
  : ChatBody :=
  {| body_message :=
       "Test response (Ollama not available): You asked: '" +:+ message
       +:+ "'. Model: " +:+ model_name
       +:+ ". This is a fallback response since Ollama connection failed: "
       +:+ str_exception e;
     conversation_id := 1;
     code_blocks :=
       [{| language := "python";
           code := "print(" +:+ dquote +:+ "Fallback response for: "
                   +:+ message +:+ dquote +:+ ")" |}];
     tokens_used := JInt 0;
     model := model_name |}.

(** [chat].  [backend n] is what the [n]-th POST to the backend gives: an
    exception of the HTTP client or a response.  The handler returns its
    response together with the POSTs it issued.  In the streaming branch
    the POST is made by the generator while the answer is being sent: the
    client reads the events built from the lines received, none when the
    HTTP client raised. *)
Definition chat (st : Settings) (req : ChatRequest)
  (backend : nat -> Raises HttpResponse) : Response * list Payload :=
  let model_name := default (DEFAULT_MODEL st) (model_name req) in
  if bool_decide (message req = EmptyString) then
    (ErrorResponse 500
       (str_exception (HTTPException 400 "Message is required")), [])
  else
    let payload :=
      {| p_model := model_name; p_prompt := message req;
         p_stream := stream req;
         p_temperature := TEMPERATURE st;
         p_num_predict := MAX_TOKENS st |} in
    if stream req then
      match backend 0%nat with
      | inr response => (StreamingResponse 200 (sse_events (body response)),
                         [payload])
      | inl _ => (StreamingResponse 200 [], [payload])
      end
    else
      match decode_reply model_name (backend 0%nat) with
      | inr b => (JsonResponse 200 b, [payload])
      | inl e => (JsonResponse 200 (fallback_body (message req) model_name e),
                  [payload])
      end.

End Main.

(** ** [src/config/settings.py]: the list-valued settings

    [get_cors_origins] and [get_ollama_instances] read a comma-separated
    string: [[x.strip() for x in s.split(',') if x.strip()]], or the default
    when the string is empty. *)

Module Config.

(** [s.split(sep)] for a separator of one character. *)
Fixpoint split_char (sep : ascii) (s : string) : list string :=
  match s with
  | EmptyString => [EmptyString]
  | String c s' =>
      if decide (c = sep) then EmptyString :: split_char sep s'
      else match split_char sep s' with
           | l :: ls => String c l :: ls
           | [] => [String c EmptyString]
           end
  end.

Definition comma : ascii := ","%char.

Definition stripped_items (s : string) : list string :=
  filter (fun x => x ≠ EmptyString) (Main.strip <$> split_char comma s).

Definition get_cors_origins (cors_origins : string) : list string :=
  if bool_decide (cors_origins = EmptyString) then ["http://localhost:3000"]
  else stripped_items cors_origins.

Definition get_ollama_instances (st : Settings) (ollama_instances : string)
  : list string :=
  if bool_decide (ollama_instances = EmptyString) then [OLLAMA_BASE_URL st]
  else stripped_items ollama_instances.

End Config.

(** ** [src/services/llm_service.py]: [LLMService.generate], [stream=False]

    One run of the body of [generate] is cut at its awaits that wait for
    I/O: the cache lookup, the POST to the backend.  Between two such points
    a task runs alone on the event loop; the scheduler picks which suspended
    task continues.  The [@retry] wrapper, which can only run the body
    again, is not part of the model. *)

Module LLM.

Record Stats : Type := mkStats {
  total_requests : Z;
  cache_hits : Z;
  errors : Z;
  total_tokens : Z
}.

Record GenerateRequest : Type := mkGenerate {
  prompt : string;
  model : option string;
  temperature : option Q;
  max_tokens : option Z;
  cache : bool
}.

Record World : Type := mkWorld {
  cache_service : Cache.CacheService;
  redis_server : Cache.RedisServer;
  load_balancer : LB.LoadBalancer;
  stats : Stats;
  upstream_log : list (string * Payload)   (* the POSTs sent, oldest first *)
}.

(** [instance.id]: the dataclass [InstanceMetrics] declares [instance_id]
    and no attribute [id]. *)
Definition attr_id (i : LB.InstanceMetrics) : Raises string :=
  raise (AttributeError "'InstanceMetrics' object has no attribute 'id'").

(** [x or default]. *)
Definition or_string (x : option string) (d : string) : string :=
  match x with
  | Some s => if bool_decide (s = EmptyString) then d else s
  | None => d
  end.

Definition or_float (x : option Q) (d : Q) : Q :=
  match x with
  | Some q => if Qeq_bool q 0 then d else q
  | None => d
  end.

Definition or_int (x : option Z) (d : Z) : Z :=
  match x with
  | Some n => if bool_decide (n = 0) then d else n
  | None => d
  end.

(** An integer read from a decoded value, as [+=] on an [int] needs it. *)
Definition as_int (v : json) : Raises Z :=
  match v with
  | JInt n => ret n
  | JBool b => ret (if b then 1 else 0)
  | _ => raise (TypeError "unsupported operand type(s) for +=")
  end.

(** The phases of one call of [generate]. *)
Inductive Task : Type :=
  | Start (req : GenerateRequest)
  | Missed (req : GenerateRequest)
  | Waiting (req : GenerateRequest) (inst : LB.InstanceMetrics)
      (start_time : Q)
  | Finished (dispatched : bool) (yielded : list json)
      (raised : option Exception).

(** What the scheduler supplies with the task it resumes: the clock, the
    random draws, and the reply of the backend when the task waits for
    one. *)
Record Tick : Type := mkTick {
  task_index : nat;
  tick_now : Q;
  tick_rng : LB.Rng;
  tick_reply : Raises HttpResponse
}.

Section generate.
Context (st : Settings).
(** [hashlib.sha256(...).hexdigest()] and the text of
    [json.dumps(kwargs, sort_keys=True)]. *)
Context (sha256_hex : string -> string).
Context (dumps_kwargs : Q -> Z -> string).

Definition _generate_cache_key (prompt model : string) (temperature : Q)
  (max_tokens : Z) : string :=
  sha256_hex (model +:+ ":" +:+ prompt +:+ ":"
              +:+ dumps_kwargs temperature max_tokens).

Definition key_of (req : GenerateRequest) : string :=
  _generate_cache_key (prompt req)
    (or_string (model req) (DEFAULT_MODEL st))
    (or_float (temperature req) (TEMPERATURE st))
    (or_int (max_tokens req) (MAX_TOKENS st)).

Definition payload_of (req : GenerateRequest) : Payload :=
  {| p_model := or_string (model req) (DEFAULT_MODEL st);
     p_prompt := prompt req;
     p_stream := false;
     p_temperature := or_float (temperature req) (TEMPERATURE st);
     p_num_predict := or_int (max_tokens req) (MAX_TOKENS st) |}.

Definition bump_requests (s : Stats) : Stats :=
  {| total_requests := total_requests s + 1; cache_hits := cache_hits s;
     errors := errors s; total_tokens := total_tokens s |}.

Definition bump_hits (s : Stats) : Stats :=
  {| total_requests := total_requests s; cache_hits := cache_hits s + 1;
     errors := errors s; total_tokens := total_tokens s |}.

Definition bump_errors (s : Stats) : Stats :=
  {| total_requests := total_requests s; cache_hits := cache_hits s;
     errors := errors s + 1; total_tokens := total_tokens s |}.

Definition add_tokens (n : Z) (s : Stats) : Stats :=
  {| total_requests := total_requests s; cache_hits := cache_hits s;
     errors := errors s; total_tokens := total_tokens s + n |}.

(** From the call to the answer of the cache. *)
Definition step_start (req : GenerateRequest) (w : World) : World * Task :=
  let s1 := bump_requests (stats w) in
  if cache req then
    let '(cs, r) :=
      Cache.get (key_of req) (redis_server w) (cache_service w) in
    match r with
    | inr (Some cached) =>
        if truthy cached then
          ({| cache_service := cs; redis_server := redis_server w;
              load_balancer := load_balancer w; stats := bump_hits s1;
              upstream_log := upstream_log w |},
           Finished false [cached] None)
        else
          ({| cache_service := cs; redis_server := redis_server w;
              load_balancer := load_balancer w; stats := s1;
              upstream_log := upstream_log w |}, Missed req)
    | inr None =>
        ({| cache_service := cs; redis_server := redis_server w;
            load_balancer := load_balancer w; stats := s1;
            upstream_log := upstream_log w |}, Missed req)
    | inl e =>
        ({| cache_service := cs; redis_server := redis_server w;
            load_balancer := load_balancer w; stats := s1;
            upstream_log := upstream_log w |}, Finished false [] (Some e))
    end
  else
    ({| cache_service := cache_service w; redis_server := redis_server w;
        load_balancer := load_balancer w; stats := s1;
        upstream_log := upstream_log w |}, Missed req).

(** From the miss to the POST: an instance is reserved and the request
    sent to it. *)
Definition step_dispatch (now : Q) (r : LB.Rng) (req : GenerateRequest)
  (w : World) : World * Task :=
  match LB.get_instance now r (load_balancer w) with
  | (lb, inl e) =>
      ({| cache_service := cache_service w; redis_server := redis_server w;
          load_balancer := lb; stats := stats w;
          upstream_log := upstream_log w |}, Finished false [] (Some e))
  | (lb, inr inst) =>
      ({| cache_service := cache_service w; redis_server := redis_server w;
          load_balancer := lb; stats := stats w;
          upstream_log :=
            upstream_log w ++
              [(LB.url inst +:+ "/api/generate", payload_of req)] |},
       Waiting req inst now)
  end.

(** The [try] block from the reply on.  The world changes only after
    [instance.id] has been read. *)
Definition on_reply (now : Q) (reply : Raises HttpResponse)
  (req : GenerateRequest) (inst : LB.InstanceMetrics) (start_time : Q)
  (w : World) : World * Raises json :=
  match
    bind reply (fun response =>
    bind (raise_for_status response) (fun _ =>
    bind (response_json response) (fun data =>
    bind (json_get "response" (JString EmptyString) data)
      (fun full_response =>
    bind (attr_id inst) (fun id =>
    bind (json_get "total_tokens" (JInt 0) data) (fun tokens =>
    bind (as_int tokens) (fun n =>
    ret (id, n, full_response))))))))
  with
  | inl e => (w, inl e)
  | inr (id, n, full_response) =>
      let lb := LB.update_metrics id true (now - start_time)%Q n now
                  (load_balancer w) in
      let s := add_tokens n (stats w) in
      if cache req then
        let '(cs, srv, _) :=
          Cache.set st (key_of req) full_response (Some (CACHE_TTL st))
            (redis_server w) (cache_service w) in
        ({| cache_service := cs; redis_server := srv; load_balancer := lb;
            stats := s; upstream_log := upstream_log w |},
         inr full_response)
      else
        ({| cache_service := cache_service w;
            redis_server := redis_server w; load_balancer := lb;
            stats := s; upstream_log := upstream_log w |},
         inr full_response)
  end.

(** The [except Exception] handler: the log line formats [instance.id]
    before the instance is marked and the exception raised again. *)
Definition on_error (e : Exception) (inst : LB.InstanceMetrics)
  (w : World) : World * Exception :=
  let w1 :=
    {| cache_service := cache_service w; redis_server := redis_server w;
       load_balancer := load_balancer w; stats := bump_errors (stats w);
       upstream_log := upstream_log w |} in
  match attr_id inst with
  | inl e' => (w1, e')
  | inr id =>
      ({| cache_service := cache_service w1;
          redis_server := redis_server w1;
          load_balancer := LB.mark_unhealthy id (load_balancer w1);
          stats := stats w1; upstream_log := upstream_log w1 |}, e)
  end.

Definition step_reply (now : Q) (reply : Raises HttpResponse)
  (req : GenerateRequest) (inst : LB.InstanceMetrics) (start_time : Q)
  (w : World) : World * Task :=
  match on_reply now reply req inst start_time w with
  | (w1, inr full_response) => (w1, Finished true [full_response] None)
  | (w1, inl e) =>
      let '(w2, e') := on_error e inst w1 in
      (w2, Finished true [] (Some e'))
  end.

Definition step_task (k : Tick) (t : Task) (w : World) : World * Task :=
  match t with
  | Start req => step_start req w
  | Missed req => step_dispatch (tick_now k) (tick_rng k) req w
  | Waiting req inst t0 =>
      step_reply (tick_now k) (tick_reply k) req inst t0 w
  | Finished _ _ _ => (w, t)
  end.

(** One scheduling decision: the chosen task runs to its next await. *)
Definition tick (wt : World * list Task) (k : Tick) : World * list Task :=
  match wt.2 !! task_index k with
  | Some t =>
      let '(w', t') := step_task k t wt.1 in
      (w', <[task_index k := t']> wt.2)
  | None => wt
  end.

Definition run (w : World) (tasks : list Task) (ks : list Tick)
  : World * list Task :=
  foldl tick (w, tasks) ks.

(** The POSTs a task has sent so far. *)
Definition posts_of (t : Task) : nat :=
  match t with
  | Start _ | Missed _ => 0
  | Waiting _ _ _ => 1
  | Finished dispatched _ _ => if dispatched then 1 else 0
  end.

Definition posts_sent (tasks : list Task) : nat :=
  sum_list (posts_of <$> tasks).

End generate.

(** *** [generate] with [stream=True]

    The cache is not consulted.  The lines of the reply are read one by
    one; [json.JSONDecodeError] alone is caught per line, every other
    exception leaves the loop for the [except Exception] clause. *)

Inductive StreamEnd : Type :=
  | Exhausted
  | Failed (e : Exception).

Definition no_id : Exception :=
  AttributeError "'InstanceMetrics' object has no attribute 'id'".

(** The loop over [response.aiter_lines()] up to the point where it ends:
    the chunks yielded, and how it ended.  For a frame with [done] the call
    [update_metrics(instance.id, ...)] is what comes next. *)
Fixpoint stream_body (inst : LB.InstanceMetrics) (lines : list Line)
  : list string * StreamEnd :=
  match lines with
  | [] => ([], Exhausted)
  | Blank :: lines' => stream_body inst lines'
  | Garbage _ :: lines' => stream_body inst lines'
  | Frame (JObject fields) :: lines' =>
      let finish :=
        if truthy (default (JBool false) (dict_get "done" fields)) then
          match attr_id inst with
          | inl e => Some (Failed e)
          | inr _ => Some Exhausted
          end
        else None in
      match dict_get "response" fields with
      | Some (JString chunk) =>
          match finish with
          | Some e => ([chunk], e)
          | None => let '(chunks, e) := stream_body inst lines' in
                    (chunk :: chunks, e)
          end
      | Some _ => ([], Failed (TypeError "can only concatenate str to str"))
      | None =>
          match finish with
          | Some e => ([], e)
          | None => stream_body inst lines'
          end
      end
  | Frame (JArray items) :: _ =>
      if existsb (fun v => match v with
                           | JString t => bool_decide (t = "response")
                           | _ => false
                           end) items
      then ([], Failed (TypeError "list indices must be integers"))
      else ([], Failed (AttributeError "'list' object has no attribute 'get'"))
  | Frame (JString text) :: _ =>
      if RateLimit.contains "response" text
      then ([], Failed (TypeError "string indices must be integers"))
      else ([], Failed (AttributeError "'str' object has no attribute 'get'"))
  | Frame _ :: _ => ([], Failed (TypeError "argument is not iterable"))
  end.

Section generate_stream.
Context (st : Settings).

Definition stream_payload_of (req : GenerateRequest) : Payload :=
  {| p_model := or_string (model req) (DEFAULT_MODEL st);
     p_prompt := prompt req;
     p_stream := true;
     p_temperature := or_float (temperature req) (TEMPERATURE st);
     p_num_predict := or_int (max_tokens req) (MAX_TOKENS st) |}.

(** The [try] block: the reply, its status, its lines. *)
Definition stream_try (inst : LB.InstanceMetrics) (reply : Raises HttpResponse)
  : list string * StreamEnd :=
  match reply with
  | inl e => ([], Failed e)
  | inr response =>
      match raise_for_status response with
      | inl e => ([], Failed e)
      | inr _ => stream_body inst (body response)
      end
  end.

(** One call with [stream=True]: the world after it, the chunks it
    yielded, and the exception it raised if any. *)
Definition generate_stream (now : Q) (r : LB.Rng)
  (reply : Raises HttpResponse) (req : GenerateRequest) (w : World)
  : World * list string * option Exception :=
  let s1 := bump_requests (stats w) in
  match LB.get_instance now r (load_balancer w) with
  | (lb, inl e) =>
      ({| cache_service := cache_service w; redis_server := redis_server w;
          load_balancer := lb; stats := s1;
          upstream_log := upstream_log w |}, [], Some e)
  | (lb, inr inst) =>
      let w1 :=
        {| cache_service := cache_service w; redis_server := redis_server w;
           load_balancer := lb; stats := s1;
           upstream_log :=
             upstream_log w ++
               [(LB.url inst +:+ "/api/generate", stream_payload_of req)] |} in
      match stream_try inst reply with
      | (chunks, Exhausted) => (w1, chunks, None)
      | (chunks, Failed e) =>
          let w2 :=
            {| cache_service := cache_service w1;
               redis_server := redis_server w1;
               load_balancer := load_balancer w1;
               stats := bump_errors (stats w1);
               upstream_log := upstream_log w1 |} in
          match attr_id inst with
          | inl e' => (w2, chunks, Some e')
          | inr id =>
              ({| cache_service := cache_service w2;
                  redis_server := redis_server w2;
                  load_balancer := LB.mark_unhealthy id (load_balancer w2);
                  stats := stats w2; upstream_log := upstream_log w2 |},
               chunks ++ ["Error: Failed to generate response. "
                          +:+ str_exception e],
               None)
          end
      end
  end.
End generate_stream.

(** *** [get_available_models], [pull_model]

    Both work on the instances the caller asks for: the one
    [get_instance_by_id] finds, which is [None] for an unknown id, or all
    of them.  [backend] gives what a request to a url returns. *)

Definition requested_instances (instance_id : option string)
  (lb : LB.LoadBalancer) : list (option LB.InstanceMetrics) :=
  match instance_id with
  | Some id =>
      if bool_decide (id = EmptyString) then Some <$> LB.get_all_instances lb
      else [LB.get_instance_by_id id lb]
  | None => Some <$> LB.get_all_instances lb
  end.

(** [instance.url] and [instance.id]; [None] has neither. *)
Definition url_of (inst : option LB.InstanceMetrics) : Raises string :=
  match inst with
  | Some i => ret (LB.url i)
  | None => raise (AttributeError "'NoneType' object has no attribute 'url'")
  end.

Definition id_of (inst : option LB.InstanceMetrics) : Raises string :=
  match inst with
  | Some i => attr_id i
  | None => raise (AttributeError "'NoneType' object has no attribute 'id'")
  end.

(** [for x in v] on a decoded value. *)
Definition py_iter (v : json) : Raises (list json) :=
  match v with
  | JArray items => ret items
  | JObject fields => ret (JString <$> dict_keys fields)
  | JString s =>
      ret ((fun c => JString (String c EmptyString))
             <$> list_ascii_of_string s)
  | _ => raise (TypeError "object is not iterable")
  end.

(** [target[k] = v]. *)
Definition set_item (k : string) (v : json) (target : json) : Raises json :=
  match target with
  | JObject fields => ret (JObject (dict_set k v fields))
  | _ => raise (TypeError "object does not support item assignment")
  end.

(** The loop over the models of one reply: the list [models] as it is when
    the loop ends, and the exception that ended it, if any. *)
Fixpoint tag_models (inst : option LB.InstanceMetrics) (infos : list json)
  (models : list json) : list json * option Exception :=
  match infos with
  | [] => (models, None)
  | info :: rest =>
      match
        bind (id_of inst) (fun id =>
        bind (set_item "instance_id" (JString id) info) (fun info1 =>
        bind (url_of inst) (fun u =>
        set_item "instance_url" (JString u) info1)))
      with
      | inr info2 => tag_models inst rest (models ++ [info2])
      | inl e => (models, Some e)
      end
  end.

(** The [try] block for one instance. *)
Definition models_of_instance (backend : string -> Raises HttpResponse)
  (inst : option LB.InstanceMetrics) (models : list json)
  : list json * option Exception :=
  match bind (url_of inst) (fun u => backend (u +:+ "/api/tags")) with
  | inl e => (models, Some e)
  | inr response =>
      if bool_decide (status_code response = 200) then
        match
          bind (response_json response) (fun data =>
          bind (json_get "models" (JArray []) data) py_iter)
        with
        | inl e => (models, Some e)
        | inr infos => tag_models inst infos models
        end
      else (models, None)
  end.

(** The loop over the instances; the [except] clause formats
    [instance.id] into its log line and goes on. *)
Fixpoint models_loop (backend : string -> Raises HttpResponse)
  (insts : list (option LB.InstanceMetrics)) (models : list json)
  : Raises (list json) :=
  match insts with
  | [] => ret models
  | inst :: rest =>
      match models_of_instance backend inst models with
      | (models1, None) => models_loop backend rest models1
      | (models1, Some e) =>
          bind (id_of inst) (fun _ => models_loop backend rest models1)
      end
  end.

Definition get_available_models (backend : string -> Raises HttpResponse)
  (instance_id : option string) (lb : LB.LoadBalancer)
  : Raises (list json) :=
  models_loop backend (requested_instances instance_id lb) [].

(** What [_pull_model_to_instance] returns: a report, or [None] when the
    lines end without one. *)
Inductive PullReport : Type :=
  | PullSuccess (instance : string)
  | PullError (instance error : string).

Fixpoint pull_lines (inst : option LB.InstanceMetrics) (lines : list Line)
  : Raises (option PullReport) :=
  match lines with
  | [] => ret None
  | Frame data :: rest =>
      bind (json_get "status" JNull data) (fun status =>
      match status with
      | JString s =>
          if bool_decide (s = "success") then
            bind (id_of inst) (fun _ =>
            bind (id_of inst) (fun id => ret (Some (PullSuccess id))))
          else pull_lines inst rest
      | _ => pull_lines inst rest
      end)
  | _ :: rest => pull_lines inst rest
  end.

Definition _pull_model_to_instance
  (backend : string -> string -> Raises HttpResponse)
  (inst : option LB.InstanceMetrics) (model_name : string)
  : Raises (option PullReport) :=
  match
    bind (url_of inst) (fun u =>
    bind (backend (u +:+ "/api/pull") model_name) (fun response =>
    pull_lines inst (body response)))
  with
  | inr result => ret result
  | inl e =>
      bind (id_of inst) (fun _ =>
      bind (id_of inst) (fun id =>
      ret (Some (PullError id (str_exception e)))))
  end.

(** [asyncio.gather] with [return_exceptions=True]: one result per
    instance, an exception raised by a task standing in its place. *)
Definition pull_model (backend : string -> string -> Raises HttpResponse)
  (model_name : string) (instance_id : option string) (lb : LB.LoadBalancer)
  : list (Raises (option PullReport)) :=
  (fun inst => _pull_model_to_instance backend inst model_name)
    <$> requested_instances instance_id lb.

End LLM.

(** ** [src/api/routes/chat.py]: [chat_stream]

    The request carries the fields of [ChatRequest] the handler reads. *)

Module ChatRoute.

Inductive SseFrame : Type :=
  | ChunkFrame (chunk : string)
  | DoneFrame
  | ErrorFrame (msg : string).

Record StreamRequest : Type := mkStreamRequest {
  message : string;
  model_name : option string;
  temperature : option Q;
  max_tokens : option Z
}.

Definition stream_prompt (req : StreamRequest) : string :=
  "Human: " +:+ message req +:+ String Main.newline "Assistant:".

Definition to_generate (req : StreamRequest) : LLM.GenerateRequest :=
  {| LLM.prompt := stream_prompt req; LLM.model := model_name req;
     LLM.temperature := temperature req; LLM.max_tokens := max_tokens req;
     LLM.cache := true |}.

(** [event_generator]: a frame per chunk, then [done], or [error] in place
    of it when the generator raised. *)
Definition event_generator (st : Settings) (now : Q) (r : LB.Rng)
  (reply : Raises HttpResponse) (req : StreamRequest) (w : LLM.World)
  : LLM.World * list SseFrame :=
  match LLM.generate_stream st now r reply (to_generate req) w with
  | (w', chunks, None) => (w', (ChunkFrame <$> chunks) ++ [DoneFrame])
  | (w', chunks, Some e) =>
      (w', (ChunkFrame <$> chunks) ++ [ErrorFrame (str_exception e)])
  end.

End ChatRoute.

(** * The vocabulary of the properties, and the scenarios they are tried on *)

Section registry_terms.
Import LB.

Definition avg_ok (i : InstanceMetrics) : Prop :=
  average_response_time i
  = if bool_decide (0 < successful_requests i)
    then (total_response_time i / inject_Z (successful_requests i))%Q
    else 0%Q.

Definition sane (i : InstanceMetrics) : Prop := 0 <= successful_requests i ∧ avg_ok i.

Definition one_backend : LoadBalancer :=
  add_instance "ollama-1" "http://localhost:11434/" 1%Q (init ROUND_ROBIN).

End registry_terms.

Section least_connections_terms.
Import LB.

(** The order the tie-break sentence describes: fewer active connections,
    then fewer total requests, then the smaller id. *)
Definition preferred (a b : InstanceMetrics) : Prop :=
  active_connections a < active_connections b
  ∨ (active_connections a = active_connections b
     ∧ (total_requests a < total_requests b
        ∨ (total_requests a = total_requests b
           ∧ String.leb (instance_id a) (instance_id b) = true))).

(** Two backends; the first has served one request that has completed. *)
Definition after_one_request : LoadBalancer :=
  run_calls (init LEAST_CONNECTIONS)
    [CallAdd "ollama-1" "http://10.0.0.1:11434" 1%Q;
     CallAdd "ollama-2" "http://10.0.0.2:11434" 1%Q;
     CallGet 1%Q (mkRng 0 0%Q);
     CallUpdate "ollama-1" true 1%Q 10 2%Q].

End least_connections_terms.

Section round_robin_terms.
Import LB.

(** [N] selections one after the other; the candidate list of each is
    given, since the metrics inside the candidates change between two
    selections while their ids stay. *)
Fixpoint rr_run (cursor : nat) (rounds : list (list InstanceMetrics))
  : nat * list (Raises InstanceMetrics) :=
  match rounds with
  | [] => (cursor, [])
  | insts :: rest =>
      let '(c, pick) := _round_robin_select cursor insts in
      let '(c', picks) := rr_run c rest in
      (c', pick :: picks)
  end.

Definition picked_id (p : Raises InstanceMetrics) : option string :=
  match p with
  | inr i => Some (instance_id i)
  | inl _ => None
  end.



(** The positions the cursor visits. *)
Definition rr_index (K c : nat) : nat :=
  if bool_decide (K <= c)%nat then 0%nat else c.



(** Calls of [get_instance] one after the other, and the candidate lists
    they select from. *)
Fixpoint get_many (inputs : list (Q * Rng)) (lb : LoadBalancer)
  : LoadBalancer * list (Raises InstanceMetrics) :=
  match inputs with
  | [] => (lb, [])
  | (now, r) :: rest =>
      let '(lb1, pick) := get_instance now r lb in
      let '(lb2, picks) := get_many rest lb1 in
      (lb2, pick :: picks)
  end.

Fixpoint candidate_rounds (inputs : list (Q * Rng)) (lb : LoadBalancer)
  : list (list InstanceMetrics) :=
  match inputs with
  | [] => []
  | (now, r) :: rest =>
      candidates lb :: candidate_rounds rest (get_instance now r lb).1
  end.

(** Every registered id has its counter in [request_distribution]. *)
Definition counted (lb : LoadBalancer) : Prop :=
  ∀ k, is_Some (dict_get k (instances lb)) →
       is_Some (dict_get k (request_distribution lb)).

(** Three backends as registered, and seven selections over them. *)
Definition three_ids : list string := ["ollama-1"; "ollama-2"; "ollama-3"].



End round_robin_terms.

Section health_terms.
Import LB.

(** Every instance is stored once, under its own id. *)
Definition wf (lb : LoadBalancer) : Prop :=
  NoDup (dict_keys (instances lb))
  ∧ ∀ k i, dict_get k (instances lb) = Some i → instance_id i = k.

(** A recorded check belongs to a registered backend, and no backend is
    flagged healthy after failing its latest check. *)
Definition checks_ok (lb : LoadBalancer) (checks : gmap string bool) : Prop :=
  (∀ id b, checks !! id = Some b → is_Some (dict_get id (instances lb)))
  ∧ (∀ id i, dict_get id (instances lb) = Some i →
             is_healthy i = true → checks !! id ≠ Some false).

(** The claim read on a registry with the record of its checks. *)
Definition healthy_iff_checked_and_few_errors (lb : LoadBalancer)
  (checks : gmap string bool) : Prop :=
  ∀ id i, dict_get id (instances lb) = Some i →
    (is_healthy i = true ↔ checks !! id = Some true ∧ error_count i < 5).

(** Five failed requests in a row, then a health check that succeeds. *)
Definition five_failures_then_check : list Call :=
  [CallAdd "ollama-1" "http://localhost:11434" 1%Q;
   CallUpdate "ollama-1" false 30%Q 0 1%Q;
   CallUpdate "ollama-1" false 30%Q 0 2%Q;
   CallUpdate "ollama-1" false 30%Q 0 3%Q;
   CallUpdate "ollama-1" false 30%Q 0 4%Q;
   CallUpdate "ollama-1" false 30%Q 0 5%Q;
   CallProbe "ollama-1" (inr 200)].

End health_terms.

Section rate_limit_terms.
Import RateLimit.

Definition pull_path : string := "/api/models/pull/llama2".
Definition chat_path : string := "/api/chat".

(** The requests of one client among those the middleware sees, and what
    the middleware did with them. *)
Definition requests_of (ip : string) (reqs : list (Request * Q))
  : list (Request * Q) :=
  filter (fun rt => client_ip rt.1 = ip) reqs.

Fixpoint outcomes_of (ip : string) (reqs : list (Request * Q))
  (outs : list Outcome) : list Outcome :=
  match reqs, outs with
  | (req, _) :: reqs', o :: outs' =>
      if decide (client_ip req = ip) then o :: outcomes_of ip reqs' outs'
      else outcomes_of ip reqs' outs'
  | _, _ => []
  end.

(** Six requests of one client to the pull endpoint (limit 5) in one
    second, among the requests of another client. *)
Definition six_pulls : list (Request * Q) :=
  [({| client_ip := "10.0.0.7"; path := pull_path |}, 100%Q);
   ({| client_ip := "10.0.0.8"; path := pull_path |}, 100%Q);
   ({| client_ip := "10.0.0.7"; path := pull_path |}, 100%Q);
   ({| client_ip := "10.0.0.7"; path := pull_path |}, 100%Q);
   ({| client_ip := "10.0.0.8"; path := chat_path |}, 101%Q);
   ({| client_ip := "10.0.0.7"; path := pull_path |}, 101%Q);
   ({| client_ip := "10.0.0.7"; path := pull_path |}, 101%Q);
   ({| client_ip := "10.0.0.7"; path := pull_path |}, 101%Q)].

(** One chat request, then six pull requests within four seconds; the
    bucket of the client was opened by the chat request. *)
Definition chat_then_pulls : list (Request * Q) :=
  ({| client_ip := "10.0.0.7"; path := chat_path |}, 0%Q)
  :: ((fun t => ({| client_ip := "10.0.0.7"; path := pull_path |}, t))
        <$> [58; 58; 58; 58; 61; 62]%Q).

(** Five chat requests, then the first pull request of the client. *)
Definition chats_then_pull : list (Request * Q) :=
  ((fun t => ({| client_ip := "10.0.0.7"; path := chat_path |}, t))
     <$> [0; 1; 2; 3; 4]%Q)
  ++ [({| client_ip := "10.0.0.7"; path := pull_path |}, 5%Q)].

End rate_limit_terms.

Section cache_terms.
Import Cache.

Definition has_client (cs : CacheService) : bool :=
  match redis cs with Some _ => true | None => false end.

Definition server_down : RedisServer := {| reachable := false; store := ∅ |}.

(** A service that was started while the server was up. *)
Definition connected : CacheService :=
  initialize default_settings {| reachable := true; store := ∅ |} new.

(** A service that was started while the server was down. *)
Definition never_connected : CacheService :=
  initialize default_settings server_down new.

End cache_terms.

Section chat_terms.
Import Main.

Definition non_blank (ls : list Line) : list Line :=
  filter (fun l => is_blank l = false) ls.

Definition payload_for (st : Settings) (req : ChatRequest) : Payload :=
  {| p_model := default (DEFAULT_MODEL st) (model_name req);
     p_prompt := message req; p_stream := stream req;
     p_temperature := TEMPERATURE st; p_num_predict := MAX_TOKENS st |}.

Definition hello_request : ChatRequest :=
  {| message := "Write Python hello world";
     model_name := Some "deepseek-coder:6.7b";
     stream := false |}.

(** A backend that cannot be reached, whatever the attempt. *)
Definition backend_down (n : nat) : Raises HttpResponse :=
  inl (ConnectionError "All connection attempts failed").

Definition one_document : HttpResponse :=
  {| status_code := 200;
     body := [Frame (JObject [("model", JString "deepseek-coder:6.7b");
                              ("response", JString "print(1)");
                              ("done", JBool true)])] |}.

(** The three frames of the scenario: two chunks and the terminal frame. *)
Definition ndjson_frames : HttpResponse :=
  {| status_code := 200;
     body := [Frame (JObject [("response", JString "print")]);
              Frame (JObject [("response",
                               JString ("(" +:+ dquote +:+ "hi" +:+ dquote
                                        +:+ ")"))]);
              Frame (JObject [("done", JBool true);
                              ("total_tokens", JInt 3)])] |}.

End chat_terms.

Section generate_terms.
Import LLM.


(** Stand-ins for the digest and for the text of the keyword arguments:
    the two requests below are the same, so they get the same key under
    any choice. *)
Definition plain_key (s : string) : string := s.
Definition plain_kwargs (temperature : Q) (max_tokens : Z) : string :=
  "{" +:+ pretty max_tokens +:+ "}".

Definition hello : GenerateRequest :=
  {| prompt := "Write Python hello world"; model := None;
     temperature := None; max_tokens := None; cache := true |}.

(** The cache is connected and empty, one backend is registered. *)
Definition quiet_world : World :=
  {| cache_service := connected;
     redis_server := {| Cache.reachable := true; Cache.store := ∅ |};
     load_balancer := one_backend;
     stats := {| total_requests := 0; cache_hits := 0; errors := 0;
                 total_tokens := 0 |};
     upstream_log := [] |}.

Definition answer : Raises HttpResponse :=
  inr {| status_code := 200;
         body := [Frame (JObject [("response", JString "print(1)");
                                  ("done", JBool true);
                                  ("total_tokens", JInt 3)])] |}.

Definition resume (i : nat) (now : Q) : Tick :=
  {| task_index := i; tick_now := now; tick_rng := LB.mkRng 0 0%Q;
     tick_reply := answer |}.

(** Both calls look the key up before either has an answer. *)
Definition interleaved : list Tick :=
  [resume 0 1%Q; resume 1 1%Q; resume 0 2%Q; resume 1 2%Q;
   resume 0 3%Q; resume 1 3%Q].

End generate_terms.

Section registry_accounts_terms.
Import LB.

(** The first lines of [get_instance]: the request is counted. *)
Definition bumped (lb : LoadBalancer) : LoadBalancer :=
  {| strategy := strategy lb; instances := instances lb;
     instance_list := instance_list lb;
     current_index := current_index lb;
     health_check_interval := health_check_interval lb;
     lb_total_requests := lb_total_requests lb + 1;
     request_distribution := request_distribution lb |}.

(** [instance_list] and [request_distribution] list the registered ids in
    the order of [instances]. *)
Definition mirrored (lb : LoadBalancer) : Prop :=
  instance_list lb = dict_keys (instances lb)
  ∧ dict_keys (request_distribution lb) = dict_keys (instances lb).

Definition counts_ok (i : InstanceMetrics) : Prop :=
  0 <= active_connections i
  ∧ 0 <= total_requests i
  ∧ 0 <= successful_requests i
  ∧ 0 <= error_count i <= failed_requests i
  ∧ 0 <= health_check_failures i
  ∧ (is_healthy i = true → health_check_failures i = 0).

(** The per-backend request counts are kept twice, and none exceeds the
    count of all requests. *)
Definition tallied (lb : LoadBalancer) : Prop :=
  0 <= lb_total_requests lb
  ∧ ∀ id i, dict_get id (instances lb) = Some i →
      dict_get id (request_distribution lb) = Some (total_requests i)
      ∧ 0 <= total_requests i <= lb_total_requests lb.

Definition total_active (lb : LoadBalancer) : Z :=
  foldr Z.add 0 (active_connections <$> dict_values (instances lb)).


Definition two_backends : LoadBalancer :=
  run_calls (init ROUND_ROBIN)
    [CallAdd "ollama-1" "http://10.0.0.1:11434" 1%Q;
     CallAdd "ollama-2" "http://10.0.0.2:11434" 1%Q].

End registry_accounts_terms.

Section cache_and_limiter_terms.
Import RateLimit.

(** [ttl or settings.CACHE_TTL]: the time to live [set] stores with. *)
Definition effective_ttl (st : Settings) (ttl : option Z) : Z :=
  match ttl with
  | Some t => if bool_decide (t = 0) then CACHE_TTL st else t
  | None => CACHE_TTL st
  end.

(** A bucket holds a count of at least one. *)
Definition counts_positive (mw : RateLimitMiddleware) : Prop :=
  ∀ ip n w, rate_limits mw !! ip = Some (n, w) → 1 <= n.


Definition limited (st : Settings) (rt : Request * Q) : Prop :=
  _get_endpoint_limit st (path rt.1) ≠ 0.

(** What a client may see for a request: no header on an endpoint without
    limit; on a limited one 429, or the limit with a remaining count that
    is at least 0 and below the limit. *)
Definition outcome_ok (st : Settings) (rt : Request * Q) (o : Outcome)
  : Prop :=
  if bool_decide (_get_endpoint_limit st (path rt.1) = 0)
  then o = Forwarded None
  else o = Rejected 429 "Rate limit exceeded"
       ∨ ∃ remaining reset,
           o = Forwarded (Some (_get_endpoint_limit st (path rt.1),
                                remaining, reset))
           ∧ 0 <= remaining < _get_endpoint_limit st (path rt.1).

End cache_and_limiter_terms.

Section text_terms.
Import Main.

Fixpoint has_char (c : ascii) (s : string) : bool :=
  match s with
  | EmptyString => false
  | String c' s' => bool_decide (c' = c) || has_char c s'
  end.


(** A line that opens or closes a code block. *)
Definition is_fence_line (line : string) : bool :=
  String.prefix fence (strip line).

Definition fence_lines (text : string) : nat :=
  length (filter (fun l => is_fence_line l = true) (split_newline text)).


(** A line of the backend that ends the stream. *)
Definition is_done_line (l : Line) : bool :=
  match l with
  | Frame (JObject fields) =>
      truthy (default (JBool false) (dict_get "done" fields))
  | _ => false
  end.


End text_terms.

Section setting_terms.

(** An item as the list settings return it: not empty, without blanks at
    its ends, without comma. *)
Definition clean_item (x : string) : Prop :=
  x ≠ EmptyString ∧ Main.strip x = x ∧ has_char Config.comma x = false.

End setting_terms.

Section generate_outcome_terms.
Import LLM.

(** A call that went to a backend and has ended has yielded nothing and
    raised the [AttributeError] of [instance.id]. *)
Definition ends_without_answer (t : Task) : Prop :=
  match t with
  | Finished true yielded raised => yielded = [] ∧ raised = Some no_id
  | _ => True
  end.

End generate_outcome_terms.

Section statistics_terms.
Import LB.



End statistics_terms.

Section models_terms.
Import LLM.

Definition is_attribute_error (e : Exception) : Prop :=
  ∃ m, e = AttributeError m.

(** A backend that lists one model, and one that reports a pull done. *)
Definition tags_backend (u : string) : Raises HttpResponse :=
  inr {| status_code := 200;
         body := [Frame (JObject
                    [("models",
                      JArray [JObject [("name", JString "llama2:7b")]])])] |}.

Definition pull_backend (u model_name : string) : Raises HttpResponse :=
  inr {| status_code := 200;
         body := [Frame (JObject [("status", JString "pulling manifest")]);
                  Frame (JObject [("status", JString "success")])] |}.

End models_terms.

(** * Properties *)

(** ** Dictionaries *)

Section py_dict_facts.
Context {V : Type}.
Implicit Types (d : list (string * V)) (k : string) (v : V).

Lemma dict_get_set_eq k v d : dict_get k (dict_set k v d) = Some v.
Proof.
  induction d as [|[k' v'] d IH]; simpl.
  - by rewrite decide_True.
  - destruct (decide (k = k')) as [->|Hne]; simpl.
    + by rewrite decide_True.
    + by rewrite decide_False.
Qed.

Lemma dict_get_set_ne k k' v d :
  k ≠ k' → dict_get k' (dict_set k v d) = dict_get k' d.
Proof.
  intros Hne. induction d as [|[k0 v0] d IH]; simpl.
  - by rewrite decide_False.
  - destruct (decide (k = k0)) as [->|Hk]; simpl.
    + by rewrite !(decide_False (P := k' = k0)).
    + destruct (decide (k' = k0)); [done | apply IH].
Qed.

Lemma dict_set_keys k v v0 d :
  dict_get k d = Some v0 → dict_keys (dict_set k v d) = dict_keys d.
Proof.
  unfold dict_keys. induction d as [|[k' v'] d IH]; simpl; [done|].
  destruct (decide (k = k')) as [->|Hk]; simpl; [done|].
  intros H. f_equal. by apply IH.
Qed.

Lemma dict_get_elem_of k v d : dict_get k d = Some v → (k, v) ∈ d.
Proof.
  induction d as [|[k' v'] d IH]; simpl; [done|].
  destruct (decide (k = k')) as [->|Hk].
  - intros [= ->]. left.
  - intros H. right. by apply IH.
Qed.

Lemma dict_get_value k v d : dict_get k d = Some v → v ∈ dict_values d.
Proof.
  intros H. unfold dict_values.
  apply (list_elem_of_fmap_2 snd _ (k, v)). by apply dict_get_elem_of.
Qed.

Lemma dict_contains_false k d :
  dict_contains k d = false ↔ dict_get k d = None.
Proof.
  unfold dict_contains. rewrite bool_decide_eq_false.
  rewrite <- eq_None_not_Some. done.
Qed.

(** A property of all values survives an update by a value that has it. *)
Lemma Forall_dict_set (P : V → Prop) k v d :
  P v → Forall P (dict_values d) → Forall P (dict_values (dict_set k v d)).
Proof.
  intros Hv. unfold dict_values.
  induction d as [|[k' v'] d IH]; simpl.
  - intros _. by constructor.
  - intros Hall. apply Forall_cons in Hall as [Hv' Hd].
    destruct (decide (k = k')); simpl; constructor; auto.
Qed.

Lemma Forall_dict_del (P : V → Prop) k d :
  Forall P (dict_values d) → Forall P (dict_values (dict_del k d)).
Proof.
  unfold dict_values. induction d as [|[k' v'] d IH]; simpl; [done|].
  intros Hall. apply Forall_cons in Hall as [Hv' Hd].
  destruct (decide (k = k')); simpl; [by apply IH|]. constructor; auto.
Qed.

Lemma dict_get_del_eq k d : dict_get k (dict_del k d) = None.
Proof.
  induction d as [|[k' v'] d IH]; simpl; [done|].
  destruct (decide (k = k')) as [->|Hk]; simpl; [done|].
  by rewrite decide_False.
Qed.

Lemma dict_get_del_ne k k' d :
  k ≠ k' → dict_get k' (dict_del k d) = dict_get k' d.
Proof.
  intros Hne. induction d as [|[k0 v0] d IH]; simpl; [done|].
  destruct (decide (k = k0)) as [->|Hk]; simpl.
  - by rewrite decide_False.
  - by rewrite IH.
Qed.

Lemma dict_get_None_keys k d : dict_get k d = None ↔ k ∉ dict_keys d.
Proof.
  unfold dict_keys. induction d as [|[k' v'] d IH]; simpl.
  - split; [intros _; apply not_elem_of_nil | done].
  - rewrite not_elem_of_cons. destruct (decide (k = k')) as [->|Hk].
    + split; [done | intros [? _]; done].
    + rewrite IH. tauto.
Qed.

Lemma dict_set_keys_new k v d :
  dict_get k d = None → dict_keys (dict_set k v d) = dict_keys d ++ [k].
Proof.
  unfold dict_keys. induction d as [|[k' v'] d IH]; simpl; [done|].
  destruct (decide (k = k')) as [->|Hk]; simpl; [done|].
  intros H. f_equal. by apply IH.
Qed.

Lemma dict_del_keys_subset k k' d :
  k' ∈ dict_keys (dict_del k d) → k' ∈ dict_keys d.
Proof.
  unfold dict_keys. induction d as [|[k0 v0] d IH]; simpl; [done|].
  destruct (decide (k = k0)); simpl.
  - intros H. right. by apply IH.
  - intros [->|H]%elem_of_cons; [left | right; by apply IH].
Qed.

Lemma dict_del_NoDup k d :
  NoDup (dict_keys d) → NoDup (dict_keys (dict_del k d)).
Proof.
  unfold dict_keys. induction d as [|[k0 v0] d IH]; simpl; [done|].
  intros [Hnin Hnd]%NoDup_cons.
  destruct (decide (k = k0)); simpl; [by apply IH|].
  apply NoDup_cons. split; [|by apply IH].
  intros H. apply Hnin. by eapply dict_del_keys_subset.
Qed.

Lemma dict_set_NoDup k v d :
  NoDup (dict_keys d) → NoDup (dict_keys (dict_set k v d)).
Proof.
  intros Hnd. destruct (dict_get k d) as [v0|] eqn:Hk.
  - by rewrite (dict_set_keys k v v0).
  - rewrite dict_set_keys_new by done.
    apply NoDup_app. split; [done|]. split; [|apply NoDup_singleton].
    intros x Hx ->%list_elem_of_singleton.
    by apply dict_get_None_keys in Hk.
Qed.

(** With unique keys an entry is what a lookup of its key gives. *)
Lemma dict_get_of_entry k v d :
  NoDup (dict_keys d) → (k, v) ∈ d → dict_get k d = Some v.
Proof.
  unfold dict_keys. induction d as [|[k' v'] d IH]; simpl.
  - by intros _ ?%elem_of_nil.
  - intros [Hnin Hnd]%NoDup_cons [Heq|Hin]%elem_of_cons.
    + injection Heq as -> ->. by rewrite decide_True.
    + destruct (decide (k = k')) as [->|Hk]; [|by apply IH].
      exfalso. apply Hnin.
      by apply (list_elem_of_fmap_2 fst _ (k', v)).
Qed.
End py_dict_facts.

(** ** The backend registry *)

Section registry_facts.
Import LB.
Implicit Types (lb : LoadBalancer) (i : InstanceMetrics) (id : string).

Lemma with_instance_unknown id f lb :
  dict_get id (instances lb) = None → with_instance id f lb = lb.
Proof. intros H. unfold with_instance. by rewrite H. Qed.

Lemma with_instance_get id f lb i :
  dict_get id (instances lb) = Some i →
  dict_get id (instances (with_instance id f lb)) = Some (f i).
Proof.
  intros H. unfold with_instance. rewrite H. simpl.
  apply dict_get_set_eq.
Qed.

Lemma with_instance_get_ne id id' f lb :
  id ≠ id' →
  dict_get id' (instances (with_instance id f lb))
  = dict_get id' (instances lb).
Proof.
  intros Hne. unfold with_instance.
  destruct (dict_get id (instances lb)); [|done].
  simpl. by apply dict_get_set_ne.
Qed.

Lemma with_instance_Forall (P : InstanceMetrics → Prop) id f lb :
  (∀ i, P i → P (f i)) →
  Forall P (dict_values (instances lb)) →
  Forall P (dict_values (instances (with_instance id f lb))).
Proof.
  intros Hf Hall. unfold with_instance.
  destruct (dict_get id (instances lb)) as [i|] eqn:Hi; [|done].
  simpl. apply Forall_dict_set; [|done].
  apply Hf. rewrite Forall_forall in Hall. apply Hall.
  by eapply dict_get_value.
Qed.

(** *** What a selection returns is one of the candidates *)

Lemma min_by_from_elem {A} (key : A → Z) best (xs : list A) :
  min_by_from key best xs = best ∨ min_by_from key best xs ∈ xs.
Proof.
  revert best. induction xs as [|x xs IH]; intros best; simpl; [by left|].
  destruct (IH (if bool_decide (key x < key best) then x else best))
    as [->|Hin].
  - case_bool_decide; [right; left | by left].
  - right. by right.
Qed.

Lemma py_min_elem {A} (key : A → Z) (xs : list A) x :
  py_min key xs = inr x → x ∈ xs.
Proof.
  destruct xs as [|y ys]; simpl; [done|]. intros [= <-].
  destruct (min_by_from_elem key y ys) as [->|Hin]; [left | by right].
Qed.

Lemma select_elem r lb c inst :
  select r lb = (c, inr inst) → inst ∈ candidates lb.
Proof.
  unfold select.
  destruct (strategy lb).
  - unfold _round_robin_select.
    destruct (candidates lb !! _) as [x|] eqn:Hx; [|done].
    intros [= _ <-]. by eapply list_elem_of_lookup_2.
  - intros [= _ H]. by eapply py_min_elem.
  - unfold _random_select. intros [= _ H].
    destruct (candidates lb) as [|y ys] eqn:Hc; [done|].
    destruct ((y :: ys) !! _) as [x|] eqn:Hx; [|done].
    injection H as <-. by eapply list_elem_of_lookup_2.
  - unfold _weighted_select. intros [= _ H].
    destruct (last _) as [total|]; [|done].
    destruct (Qle_bool _ _); [done|].
    destruct (candidates lb !! _) as [x|] eqn:Hx; [|done].
    injection H as <-. by eapply list_elem_of_lookup_2.
Qed.

Lemma candidates_registered lb x :
  x ∈ candidates lb → x ∈ dict_values (instances lb).
Proof.
  unfold candidates.
  destruct (filter _ _) as [|y ys] eqn:Hf; [done|].
  rewrite <- Hf. rewrite list_elem_of_filter. tauto.
Qed.

Lemma get_instance_instances now r lb :
  instances (get_instance now r lb).1 = instances lb
  ∨ ∃ inst, inst ∈ dict_values (instances lb)
      ∧ instances (get_instance now r lb).1
        = dict_set (instance_id inst) (reserve now inst) (instances lb).
Proof.
  unfold get_instance.
  destruct (instances lb) as [|kv d] eqn:Hd; [by left|].
  destruct (select r _) as [c [e|inst]] eqn:Hsel; simpl; [by left|].
  right. exists inst. split.
  - by apply select_elem, candidates_registered in Hsel.
  - by destruct (dict_get _ (request_distribution lb)).
Qed.

(** *** The running average *)

Lemma sane_new id u w : sane (new_instance id u w).
Proof. split; [done|]. by unfold avg_ok. Qed.

Lemma sane_reserve now i : sane i → sane (reserve now i).
Proof. by intros [? ?]. Qed.

Lemma sane_released i : sane i → sane (released i).
Proof. by intros [? ?]. Qed.

Lemma sane_set_health h n i : sane i → sane (set_health h n i).
Proof. by intros [? ?]. Qed.

Lemma sane_record_outcome success rt tok now i :
  sane i → sane (record_outcome success rt tok now i).
Proof.
  intros [Hs Havg]. unfold record_outcome. destruct success.
  - split; simpl; [lia|]. unfold avg_ok; simpl.
    by rewrite !bool_decide_eq_true_2 by lia.
  - by split.
Qed.

Lemma apply_call_sane lb c :
  Forall sane (dict_values (instances lb)) →
  Forall sane (dict_values (instances (apply_call lb c))).
Proof.
  intros Hall. destruct c; simpl.
  - unfold add_instance. destruct (dict_contains _ _); [done|]. simpl.
    apply Forall_dict_set; [apply sane_new | done].
  - unfold remove_instance. destruct (dict_contains _ _); [|done]. simpl.
    by apply Forall_dict_del.
  - destruct (get_instance_instances now r lb) as [->|(inst & Hin & ->)];
      [done|].
    apply Forall_dict_set; [|done]. apply sane_reserve.
    rewrite Forall_forall in Hall. by apply Hall.
  - apply with_instance_Forall; [apply sane_released | done].
  - apply with_instance_Forall; [apply sane_record_outcome | done].
  - apply with_instance_Forall; [|done]. intros; by apply sane_set_health.
  - apply with_instance_Forall; [|done]. intros; by apply sane_set_health.
  - unfold _check_instance_health.
    destruct probe as [e|status].
    + apply with_instance_Forall; [|done]. intros; by apply sane_set_health.
    + case_bool_decide.
      * destruct (dict_get id (instances lb)) as [i|]; [|done].
        destruct (is_healthy i); [done|].
        apply with_instance_Forall; [|done].
        intros; by apply sane_set_health.
      * apply with_instance_Forall; [|done].
        intros; by apply sane_set_health.
Qed.

Lemma run_calls_sane s cs :
  Forall sane (dict_values (instances (run_calls (init s) cs))).
Proof.
  unfold run_calls.
  assert (Forall sane (dict_values (instances (init s)))) as H0
    by constructor.
  revert H0. generalize (init s) as lb.
  induction cs as [|c cs IH]; intros lb Hlb; simpl; [done|].
  apply IH. by apply apply_call_sane.
Qed.
End registry_facts.

Section registry_claims.
Import LB.

(** C10: for an [instance_id] that is not registered, [release_instance],
    [update_metrics], [mark_unhealthy] and [mark_healthy] return normally
    (they have no exceptional outcome) and leave the whole registry, every
    backend's metrics and flags included, as it was. *)
Theorem unknown_id_leaves_registry (lb : LoadBalancer) (id : string)
  (success : bool) (response_time : Q) (tokens_used : Z) (now : Q) :
  dict_get id (instances lb) = None →
  release_instance id lb = lb
  ∧ update_metrics id success response_time tokens_used now lb = lb
  ∧ mark_unhealthy id lb = lb
  ∧ mark_healthy id lb = lb.
Proof.
  intros H. unfold release_instance, update_metrics, mark_unhealthy,
    mark_healthy.
  by rewrite !with_instance_unknown.
Qed.

Lemma unknown_id_leaves_registry_witness :
  release_instance "ollama-9" one_backend = one_backend
  ∧ update_metrics "ollama-9" false 2%Q 0 7%Q one_backend = one_backend
  ∧ mark_unhealthy "ollama-9" one_backend = one_backend
  ∧ mark_healthy "ollama-9" one_backend = one_backend.
Proof.
  apply (unknown_id_leaves_registry one_backend "ollama-9" false 2%Q 0 7%Q).
  reflexivity.
Defined.

(** C9: in every registry reached from [init] by registry calls, a call
    [update_metrics id success response_time tokens] for a registered
    backend lowers [active_connections] by one, not below 0; on success it
    sets the error count to 0, counts the request and its time, and leaves
    [average_response_time = total_response_time / successful_requests];
    on failure it adds one to the error count and clears the healthy flag
    when the count is 5 or more (the flag is untouched below 5).  In both
    cases the average is the quotient when [successful_requests > 0] and 0
    otherwise. *)
Theorem update_metrics_effect (s : LoadBalancerStrategy) (cs : list Call)
  (id : string) (i : InstanceMetrics) (success : bool) (response_time : Q)
  (tokens_used : Z) (now : Q) :
  dict_get id (instances (run_calls (init s) cs)) = Some i →
  ∃ i',
    dict_get id
      (instances (update_metrics id success response_time tokens_used now
                    (run_calls (init s) cs))) = Some i'
    ∧ active_connections i' = Z.max 0 (active_connections i - 1)
    ∧ 0 <= active_connections i'
    ∧ avg_ok i'
    ∧ (success = true →
         error_count i' = 0
         ∧ successful_requests i' = successful_requests i + 1
         ∧ total_response_time i'
           = (total_response_time i + response_time)%Q
         ∧ average_response_time i'
           = (total_response_time i' / inject_Z (successful_requests i'))%Q
         ∧ is_healthy i' = is_healthy i)
    ∧ (success = false →
         error_count i' = error_count i + 1
         ∧ (5 <= error_count i' → is_healthy i' = false)
         ∧ (error_count i' < 5 → is_healthy i' = is_healthy i)
         ∧ average_response_time i' = average_response_time i).
Proof.
  intros Hi.
  assert (sane i) as [Hs Havg].
  { pose proof (run_calls_sane s cs) as Hall.
    rewrite Forall_forall in Hall. apply Hall. by eapply dict_get_value. }
  exists (record_outcome success response_time tokens_used now i).
  split; [by apply with_instance_get|].
  assert (sane (record_outcome success response_time tokens_used now i))
    as [_ Havg'] by (by apply sane_record_outcome).
  unfold record_outcome in *. destruct success; simpl in *.
  - repeat split; try done; try lia.
    by rewrite bool_decide_eq_true_2 by lia.
  - repeat split; try done; try lia.
    + intros H5. by rewrite bool_decide_eq_true_2.
    + intros H5. by rewrite bool_decide_eq_false_2 by lia.
Qed.

Lemma update_metrics_effect_witness :
  ∃ i',
    dict_get "ollama-1"
      (instances (update_metrics "ollama-1" true (3 # 2)%Q 12 5%Q
                    (run_calls (init ROUND_ROBIN)
                       [CallAdd "ollama-1" "http://localhost:11434" 1%Q;
                        CallGet 4%Q (mkRng 0 0%Q)]))) = Some i'
    ∧ active_connections i' = 0
    ∧ error_count i' = 0.
Proof.
  destruct (update_metrics_effect ROUND_ROBIN
              [CallAdd "ollama-1" "http://localhost:11434" 1%Q;
               CallGet 4%Q (mkRng 0 0%Q)]
              "ollama-1"
              (reserve 4%Q (new_instance "ollama-1"
                              "http://localhost:11434" 1%Q))
              true (3 # 2)%Q 12 5%Q eq_refl)
    as (i' & Hget & Hac & _ & _ & Hok & _).
  exists i'. split; [exact Hget|]. split; [exact Hac|].
  exact (proj1 (Hok eq_refl)).
Defined.
End registry_claims.

(** ** Least connections *)

Section least_connections.
Import LB.

Lemma min_by_from_spec {A} (key : A → Z) (best : A) (xs : list A) :
  let r := min_by_from key best xs in
  key r <= key best
  ∧ (∀ x, x ∈ xs → key r <= key x)
  ∧ ((r = best ∧ ∀ x, x ∈ xs → key best <= key x)
     ∨ ∃ p, xs !! p = Some r ∧ key r < key best
            ∧ ∀ q y, (q < p)%nat → xs !! q = Some y → key r < key y).
Proof.
  revert best. induction xs as [|x xs IH]; intros best; simpl.
  - split; [lia|]. split; [by intros ? ?%elem_of_nil|].
    left. split; [done|]. by intros ? ?%elem_of_nil.
  - case_bool_decide as Hc.
    + destruct (IH x) as (Hle & Hall & Hpos).
      split; [lia|]. split.
      { intros y [->|Hy]%elem_of_cons; [lia | by apply Hall]. }
      right. destruct Hpos as [[Hr Hmin]|(p & Hp & Hlt & Hbefore)].
      * exists 0%nat. rewrite Hr. simpl.
        split; [done|]. split; [done|]. intros q y Hq. lia.
      * exists (S p). split; [done|]. split; [lia|].
        intros [|q] y Hq; simpl.
        -- intros [= <-]. lia.
        -- apply Hbefore. lia.
    + destruct (IH best) as (Hle & Hall & Hpos).
      split; [lia|]. split.
      { intros y [->|Hy]%elem_of_cons; [lia | by apply Hall]. }
      destruct Hpos as [[Hr Hmin]|(p & Hp & Hlt & Hbefore)].
      * left. split; [done|].
        intros y [->|Hy]%elem_of_cons; [lia | by apply Hmin].
      * right. exists (S p). split; [done|]. split; [lia|].
        intros [|q] y Hq; simpl.
        -- intros [= <-]. lia.
        -- apply Hbefore. lia.
Qed.

(** C5 (as the code has it): among the candidates the least-connections
    strategy returns one with the minimum [active_connections], and of
    those with the minimum it returns the first in candidate order, which
    is the order of registration; [total_requests] and the ids are not
    looked at. *)
Theorem least_connections_first_minimum (insts : list InstanceMetrics) :
  insts ≠ [] →
  ∃ p a,
    _least_connections_select insts = inr a
    ∧ insts !! p = Some a
    ∧ (∀ x, x ∈ insts → active_connections a <= active_connections x)
    ∧ (∀ q y, (q < p)%nat → insts !! q = Some y →
              active_connections a < active_connections y).
Proof.
  destruct insts as [|x xs]; [done|]. intros _.
  unfold _least_connections_select, py_min.
  destruct (min_by_from_spec active_connections x xs)
    as (Hle & Hall & [[Hr Hmin]|(p & Hp & Hlt & Hbefore)]).
  - exists 0%nat, x. rewrite Hr. split; [done|]. split; [done|]. split.
    + intros y [->|Hy]%elem_of_cons; [lia | by apply Hmin].
    + intros q y Hq. lia.
  - exists (S p), (min_by_from active_connections x xs).
    split; [done|]. split; [done|]. split.
    + intros y [->|Hy]%elem_of_cons; [lia | by apply Hall].
    + intros [|q] y Hq; simpl.
      * intros [= <-]. lia.
      * apply Hbefore. lia.
Qed.

Lemma least_connections_first_minimum_witness :
  ∃ p a,
    _least_connections_select (candidates after_one_request) = inr a
    ∧ candidates after_one_request !! p = Some a
    ∧ (∀ x, x ∈ candidates after_one_request →
            active_connections a <= active_connections x)
    ∧ (∀ q y, (q < p)%nat → candidates after_one_request !! q = Some y →
              active_connections a < active_connections y).
Proof.
  apply (least_connections_first_minimum (candidates after_one_request)).
  discriminate.
Defined.

(** C5 (as stated) fails: both backends are idle, "ollama-2" has served
    fewer requests, and the strategy still returns "ollama-1". *)
Lemma least_connections_ignores_total_requests :
  ∃ a b,
    _least_connections_select (candidates after_one_request) = inr a
    ∧ (get_instance 3%Q (mkRng 0 0%Q) after_one_request).2
      = inr (reserve 3%Q a)
    ∧ instance_id a = "ollama-1"
    ∧ b ∈ candidates after_one_request
    ∧ instance_id b = "ollama-2"
    ∧ active_connections b = active_connections a
    ∧ total_requests b < total_requests a
    ∧ ¬ preferred a b.
Proof.
  eexists _, (new_instance "ollama-2" "http://10.0.0.2:11434" 1%Q).
  split; [vm_compute; reflexivity|].
  split; [vm_compute; reflexivity|].
  split; [reflexivity|].
  split; [vm_compute; right; left|].
  split; [reflexivity|]. split; [reflexivity|]. split; [reflexivity|].
  unfold preferred; simpl. intros [H|[_ [H|[H _]]]]; lia.
Qed.
End least_connections.

(** ** Round robin *)

Section round_robin.
Import LB.

Lemma rr_index_lt K c : (0 < K)%nat → (rr_index K c < K)%nat.
Proof. unfold rr_index. case_bool_decide; lia. Qed.


Lemma rr_step_shape K c (insts : list InstanceMetrics) :
  length insts = K → (0 < K)%nat →
  ∃ x, insts !! rr_index K c = Some x
       ∧ _round_robin_select c insts = (S (rr_index K c), inr x).
Proof.
  intros Hlen HK.
  destruct (lookup_lt_is_Some_2 insts (rr_index K c)) as [x Hx].
  { rewrite Hlen. by apply rr_index_lt. }
  exists x. split; [done|].
  unfold _round_robin_select. rewrite Hlen. fold (rr_index K c).
  by rewrite Hx.
Qed.










(** Seven requests through [get_instance] on three fresh backends: the
    picks go round, three for the first backend and two for the others. *)
Example get_instance_goes_round :
  let lb := run_calls (init ROUND_ROBIN)
              ((fun id => CallAdd id "http://localhost:11434" 1%Q)
                 <$> three_ids) in
  (fun k => picked_id
              (get_instance 0%Q (mkRng 0 0%Q)
                 (run_calls lb (replicate k (CallGet 0%Q (mkRng 0 0%Q))))).2)
    <$> seq 0 7
  = Some <$> ["ollama-1"; "ollama-2"; "ollama-3"; "ollama-1"; "ollama-2";
              "ollama-3"; "ollama-1"].
Proof. vm_compute. reflexivity. Qed.
End round_robin.

(** ** The healthy flag and the health checks *)

Section health_facts.
Import LB.
Implicit Types (lb : LoadBalancer) (i : InstanceMetrics) (id k : string)
  (checks : gmap string bool).

Lemma with_instance_lookup id f lb k :
  dict_get k (instances (with_instance id f lb))
  = if decide (k = id) then f <$> dict_get id (instances lb)
    else dict_get k (instances lb).
Proof.
  destruct (decide (k = id)) as [->|Hne].
  - destruct (dict_get id (instances lb)) as [i|] eqn:Hi.
    + by apply with_instance_get.
    + by rewrite with_instance_unknown.
  - by apply with_instance_get_ne.
Qed.

Lemma wf_with_instance id f lb :
  (∀ i, instance_id (f i) = instance_id i) →
  wf lb → wf (with_instance id f lb).
Proof.
  intros Hf [Hnd Hid]. split.
  - unfold with_instance. destruct (dict_get id (instances lb)); [|done].
    simpl. by apply dict_set_NoDup.
  - intros k i. rewrite with_instance_lookup.
    destruct (decide (k = id)) as [->|Hne]; [|by apply Hid].
    destruct (dict_get id (instances lb)) as [i0|] eqn:Hi0; [|done].
    intros [= <-]. rewrite Hf. by apply Hid.
Qed.

Lemma wf_registered lb i :
  wf lb → i ∈ dict_values (instances lb) →
  dict_get (instance_id i) (instances lb) = Some i.
Proof.
  intros [Hnd Hid] Hin. unfold dict_values in Hin.
  apply list_elem_of_fmap in Hin as ([k v] & -> & Hkv). simpl.
  pose proof (dict_get_of_entry k v _ Hnd Hkv) as Hget.
  by rewrite (Hid k v Hget).
Qed.

Lemma wf_dict_set lb id i :
  instance_id i = id → wf lb →
  wf (set_instances (dict_set id i (instances lb)) lb).
Proof.
  intros Hi [Hnd Hid]. split; simpl.
  - by apply dict_set_NoDup.
  - intros k i'. destruct (decide (id = k)) as [->|Hne].
    + rewrite dict_get_set_eq. by intros [= <-].
    + rewrite dict_get_set_ne by done. apply Hid.
Qed.

Lemma wf_apply_call lb c : wf lb → wf (apply_call lb c).
Proof.
  intros Hwf. destruct c; simpl.
  - unfold add_instance. destruct (dict_contains _ _); [done|].
    by apply (wf_dict_set lb id (new_instance id (rstrip_slash u) w)).
  - unfold remove_instance. destruct (dict_contains _ _); [|done].
    destruct Hwf as [Hnd Hid]. split; simpl.
    + by apply dict_del_NoDup.
    + intros k i. destruct (decide (id = k)) as [->|Hne].
      * by rewrite dict_get_del_eq.
      * rewrite dict_get_del_ne by done. apply Hid.
  - destruct (get_instance_instances now r lb) as [Heq|(inst & Hin & Heq)].
    + destruct Hwf as [Hnd Hid]. split; rewrite Heq; done.
    + pose proof (wf_dict_set lb (instance_id inst) (reserve now inst)
                    eq_refl Hwf) as [Hnd Hid].
      simpl in Hnd, Hid. split; rewrite Heq; done.
  - by apply wf_with_instance.
  - apply wf_with_instance; [|done]. intros i. by destruct success.
  - by apply wf_with_instance.
  - by apply wf_with_instance.
  - unfold _check_instance_health. destruct probe as [e|status].
    + by apply wf_with_instance.
    + case_bool_decide.
      * destruct (dict_get id (instances lb)) as [i|]; [|done].
        destruct (is_healthy i); [done|]. by apply wf_with_instance.
      * by apply wf_with_instance.
Qed.

(** An update that never turns the flag on keeps [checks_ok]. *)
Lemma checks_ok_with_instance id f lb checks :
  (∀ i, is_healthy (f i) = true → is_healthy i = true) →
  checks_ok lb checks → checks_ok (with_instance id f lb) checks.
Proof.
  intros Hf [Hdom Hflag]. split.
  - intros k b Hk. rewrite with_instance_lookup.
    destruct (decide (k = id)) as [->|Hne]; [|by eapply Hdom].
    rewrite fmap_is_Some. by eapply Hdom.
  - intros k i. rewrite with_instance_lookup.
    destruct (decide (k = id)) as [->|Hne]; [|by apply Hflag].
    destruct (dict_get id (instances lb)) as [i0|] eqn:Hi0; [|done].
    intros [= <-] Hh. apply (Hflag id i0 Hi0). by apply Hf.
Qed.

(** A check of a registered backend that sets the flag to its outcome. *)
Lemma checks_ok_checked id f b lb checks :
  (∀ i, is_healthy (f i) = true → b = true) →
  checks_ok lb checks →
  checks_ok (with_instance id f lb) (<[id := b]> checks)
  ∨ dict_get id (instances lb) = None.
Proof.
  intros Hf [Hdom Hflag].
  destruct (dict_get id (instances lb)) as [i0|] eqn:Hi0; [left | by right].
  split.
  - intros k b' Hk. rewrite with_instance_lookup.
    destruct (decide (k = id)) as [->|Hne].
    + by rewrite Hi0.
    + rewrite lookup_insert_ne in Hk by done. by eapply Hdom.
  - intros k i. rewrite with_instance_lookup.
    destruct (decide (k = id)) as [->|Hne].
    + rewrite Hi0. intros [= <-] Hh. rewrite lookup_insert_eq.
      rewrite (Hf i0 Hh). done.
    + rewrite lookup_insert_ne by done. by apply Hflag.
Qed.

Lemma checks_ok_track lb checks c :
  from_sources c = true → wf lb → checks_ok lb checks →
  checks_ok (apply_call lb c) (record_check lb checks c).
Proof.
  intros Hsrc Hwf Hok. destruct c; simpl; try done.
  - (* add_instance *)
    unfold add_instance.
    destruct (dict_contains id (instances lb)) eqn:Hc; [done|].
    apply dict_contains_false in Hc. destruct Hok as [Hdom Hflag].
    split; simpl.
    + intros k b Hk. destruct (decide (id = k)) as [->|Hne].
      * by rewrite dict_get_set_eq.
      * rewrite dict_get_set_ne by done. by eapply Hdom.
    + intros k i. destruct (decide (id = k)) as [->|Hne].
      * intros _ _ Hk. apply Hdom in Hk. rewrite Hc in Hk.
        by destruct Hk.
      * rewrite dict_get_set_ne by done. apply Hflag.
  - (* remove_instance *)
    destruct Hok as [Hdom Hflag]. unfold remove_instance.
    destruct (dict_contains id (instances lb)) eqn:Hc; split; simpl.
    + intros k b. destruct (decide (id = k)) as [->|Hne].
      * by rewrite lookup_delete_eq.
      * rewrite lookup_delete_ne, dict_get_del_ne by done. apply Hdom.
    + intros k i. destruct (decide (id = k)) as [->|Hne].
      * by rewrite dict_get_del_eq.
      * rewrite lookup_delete_ne, dict_get_del_ne by done. apply Hflag.
    + intros k b. destruct (decide (id = k)) as [->|Hne].
      * by rewrite lookup_delete_eq.
      * rewrite lookup_delete_ne by done. apply Hdom.
    + intros k i. destruct (decide (id = k)) as [->|Hne].
      * by rewrite lookup_delete_eq.
      * rewrite lookup_delete_ne by done. apply Hflag.
  - (* get_instance *)
    destruct (get_instance_instances now r lb) as [Heq|(inst & Hin & Heq)].
    + destruct Hok as [Hdom Hflag]. split; rewrite Heq; done.
    + pose proof (wf_registered lb inst Hwf Hin) as Hget.
      pose proof (checks_ok_with_instance (instance_id inst) (reserve now)
                    lb checks (fun i H => H) Hok) as [Hdom Hflag].
      unfold with_instance in Hdom, Hflag. rewrite Hget in Hdom, Hflag.
      simpl in Hdom, Hflag. split; rewrite Heq; done.
  - by apply checks_ok_with_instance.
  - apply checks_ok_with_instance; [|done].
    intros i. unfold record_outcome. destruct success; simpl; [done|].
    by case_bool_decide.
  - by apply checks_ok_with_instance.
  - (* _check_instance_health *)
    unfold _check_instance_health, probe_succeeded.
    destruct (dict_contains id (instances lb)) eqn:Hc.
    + apply bool_decide_eq_true in Hc as [i0 Hi0].
      destruct probe as [e|status]; [|case_bool_decide as H200].
      * destruct (checks_ok_checked id
                    (fun i => set_health false (health_check_failures i + 1) i)
                    false lb checks) as [H|H]; [done | done | done |].
        by rewrite Hi0 in H.
      * rewrite Hi0. destruct (is_healthy i0) eqn:Hh.
        -- destruct Hok as [Hdom Hflag]. split.
           ++ intros k b. destruct (decide (id = k)) as [->|Hne];
                [by rewrite Hi0 |].
              rewrite lookup_insert_ne by done. apply Hdom.
           ++ intros k i. destruct (decide (id = k)) as [->|Hne].
              ** by rewrite lookup_insert_eq.
              ** rewrite lookup_insert_ne by done. apply Hflag.
        -- destruct (checks_ok_checked id (fun i => set_health true 0 i)
                       true lb checks) as [H|H]; [done | done | done |].
           by rewrite Hi0 in H.
      * destruct (checks_ok_checked id
                    (fun i => set_health false (health_check_failures i + 1) i)
                    false lb checks) as [H|H]; [done | done | done |].
        by rewrite Hi0 in H.
    + apply dict_contains_false in Hc.
      destruct probe as [e|status]; [|case_bool_decide].
      * unfold mark_unhealthy. by rewrite with_instance_unknown.
      * by rewrite Hc.
      * unfold mark_unhealthy. by rewrite with_instance_unknown.
Qed.

Lemma run_tracked_ok s cs :
  forallb from_sources cs = true →
  wf (run_tracked (init s) cs).1
  ∧ checks_ok (run_tracked (init s) cs).1 (run_tracked (init s) cs).2.
Proof.
  unfold run_tracked.
  assert (wf (init s) ∧ checks_ok (init s) ∅) as H0.
  { split; [split; [constructor | done] | split; done]. }
  revert H0.
  generalize (∅ : gmap string bool) as checks. generalize (init s) as lb.
  induction cs as [|c cs IH]; intros lb checks [Hwf Hok] Hsrc; simpl;
    [done|].
  simpl in Hsrc. apply andb_true_iff in Hsrc as [Hc Hcs].
  apply IH; [|done]. unfold track; simpl. split.
  - by apply wf_apply_call.
  - by apply checks_ok_track.
Qed.

Lemma run_tracked_registry lb cs checks :
  (foldl track (lb, checks) cs).1 = run_calls lb cs.
Proof.
  revert lb checks. induction cs as [|c cs IH]; intros lb checks; simpl;
    [done|].
  apply IH.
Qed.

(** The flag right after a health check of a registered backend. *)
Lemma check_sets_flag lb id i probe :
  dict_get id (instances lb) = Some i →
  ∃ i', dict_get id (instances (_check_instance_health probe id lb))
        = Some i'
        ∧ is_healthy i' = probe_succeeded probe
        ∧ error_count i' = error_count i.
Proof.
  intros Hi. unfold _check_instance_health, probe_succeeded.
  destruct probe as [e|status]; [|case_bool_decide].
  - eexists. split; [by apply with_instance_get|]. done.
  - rewrite Hi. destruct (is_healthy i) eqn:Hh.
    + by exists i.
    + eexists. split; [by apply with_instance_get|]. done.
  - eexists. split; [by apply with_instance_get|]. done.
Qed.
End health_facts.

Section health_claims.
Import LB.

(** C4 (as the code has it): in every registry the calls of the sources
    reach, a backend whose healthy flag is set has not failed its latest
    health check (it passed it, or none was made yet); right after a
    health check of a registered backend the flag is set exactly when the
    check answered 200; a health check leaves the consecutive error count
    as it is, so the count takes no part in the value the check gives the
    flag. *)
Theorem healthy_flag_follows_checks (s : LoadBalancerStrategy)
  (cs : list Call) (id : string) (i : InstanceMetrics) :
  forallb from_sources cs = true →
  dict_get id (instances (run_tracked (init s) cs).1) = Some i →
  (is_healthy i = true → (run_tracked (init s) cs).2 !! id ≠ Some false)
  ∧ (∀ probe, ∃ i',
       dict_get id
         (instances (_check_instance_health probe id
                       (run_tracked (init s) cs).1)) = Some i'
       ∧ (is_healthy i' = true ↔ probe_succeeded probe = true)
       ∧ error_count i' = error_count i).
Proof.
  intros Hsrc Hi. destruct (run_tracked_ok s cs Hsrc) as [_ [_ Hflag]].
  split; [by apply Hflag|].
  intros probe.
  destruct (check_sets_flag _ id i probe Hi) as (i' & Hget & Hh & He).
  exists i'. split; [done|]. split; [by rewrite Hh | done].
Qed.

Lemma healthy_flag_follows_checks_witness :
  ∃ i,
    dict_get "ollama-1"
      (instances (run_tracked (init ROUND_ROBIN)
                    five_failures_then_check).1) = Some i
    ∧ (is_healthy i = true →
       (run_tracked (init ROUND_ROBIN) five_failures_then_check).2
         !! "ollama-1" ≠ Some false).
Proof.
  eexists. split; [vm_compute; reflexivity|].
  refine (proj1 (healthy_flag_follows_checks ROUND_ROBIN
                   five_failures_then_check "ollama-1" _ eq_refl _)).
  vm_compute; reflexivity.
Defined.

(** C4 (as stated) fails: after five failed requests and a successful
    health check the backend is flagged healthy, its latest check
    succeeded, and its consecutive error count is 5. *)
Lemma healthy_with_five_errors :
  ∃ i,
    dict_get "ollama-1"
      (instances (run_tracked (init ROUND_ROBIN)
                    five_failures_then_check).1) = Some i
    ∧ is_healthy i = true
    ∧ (run_tracked (init ROUND_ROBIN) five_failures_then_check).2
        !! "ollama-1" = Some true
    ∧ error_count i = 5
    ∧ ¬ healthy_iff_checked_and_few_errors
          (run_tracked (init ROUND_ROBIN) five_failures_then_check).1
          (run_tracked (init ROUND_ROBIN) five_failures_then_check).2.
Proof.
  eexists. split; [vm_compute; reflexivity|].
  split; [reflexivity|]. split; [vm_compute; reflexivity|].
  split; [reflexivity|].
  intros H.
  specialize (H "ollama-1" _ ltac:(vm_compute; reflexivity)).
  simpl in H. destruct H as [H _]. specialize (H eq_refl) as [_ H]. lia.
Qed.
End health_claims.

(** ** Round robin through [get_instance] *)

Section round_robin_dispatch.
Import LB.

Lemma ids_dict_set k (v v' : InstanceMetrics)
  (d : list (string * InstanceMetrics)) :
  dict_get k d = Some v →
  is_healthy v' = is_healthy v → instance_id v' = instance_id v →
  instance_id <$> filter (fun i => is_healthy i = true)
                         (dict_values (dict_set k v' d))
  = instance_id <$> filter (fun i => is_healthy i = true) (dict_values d)
  ∧ instance_id <$> dict_values (dict_set k v' d)
    = instance_id <$> dict_values d.
Proof.
  intros Hget Hh Hid. unfold dict_values.
  induction d as [|[k0 v0] d IH]; [done|].
  cbn [dict_set dict_get] in *.
  destruct (decide (k = k0)) as [->|Hne].
  - injection Hget as ->. rewrite !fmap_cons. cbn [snd].
    rewrite !filter_cons, Hh. split.
    + destruct (decide (is_healthy v = true)); by rewrite ?fmap_cons, ?Hid.
    + by rewrite Hid.
  - destruct (IH Hget) as [IH1 IH2]. rewrite !fmap_cons. cbn [snd].
    rewrite !filter_cons. split.
    + destruct (decide (is_healthy v0 = true)); by rewrite ?fmap_cons, IH1.
    + by rewrite IH2.
Qed.

Lemma candidates_ids_stable now r lb :
  wf lb →
  instance_id <$> candidates (get_instance now r lb).1
  = instance_id <$> candidates lb.
Proof.
  intros Hwf. unfold candidates.
  destruct (get_instance_instances now r lb) as [->|(inst & Hin & ->)];
    [done|].
  pose proof (wf_registered lb inst Hwf Hin) as Hget.
  destruct (ids_dict_set (instance_id inst) inst (reserve now inst)
              (instances lb) Hget eq_refl eq_refl) as [Hf Hall].
  destruct (filter _ (dict_values (dict_set _ _ _))) as [|y ys] eqn:Hy;
    destruct (filter _ (dict_values (instances lb))) as [|z zs] eqn:Hz;
    try done.
Qed.

Lemma candidates_nonempty lb : instances lb ≠ [] → candidates lb ≠ [].
Proof.
  intros Hne. unfold candidates.
  destruct (filter _ _) as [|y ys]; [|done].
  unfold dict_values. by destruct (instances lb).
Qed.

(** One call under round robin: the pick of the selector, reserved. *)
Lemma get_instance_round_robin now r lb :
  strategy lb = ROUND_ROBIN → wf lb → counted lb → instances lb ≠ [] →
  ∃ x, _round_robin_select (current_index lb) (candidates lb)
       = (S (rr_index (length (candidates lb)) (current_index lb)), inr x)
       ∧ (get_instance now r lb).2 = inr (reserve now x)
       ∧ current_index (get_instance now r lb).1
         = S (rr_index (length (candidates lb)) (current_index lb))
       ∧ strategy (get_instance now r lb).1 = ROUND_ROBIN
       ∧ counted (get_instance now r lb).1
       ∧ instances (get_instance now r lb).1 ≠ [].
Proof.
  intros Hrr Hwf Hcnt Hne.
  pose proof (candidates_nonempty lb Hne) as Hc.
  assert (0 < length (candidates lb))%nat as HK
    by (destruct (candidates lb); simpl; [done | lia]).
  destruct (rr_step_shape (length (candidates lb)) (current_index lb)
              (candidates lb) eq_refl HK) as (x & Hx & Hsel).
  exists x. split; [done|].
  assert (x ∈ dict_values (instances lb)) as Hin.
  { apply candidates_registered. by eapply list_elem_of_lookup_2. }
  pose proof (wf_registered lb x Hwf Hin) as Hget.
  destruct (Hcnt (instance_id x)) as [n Hn]; [by rewrite Hget|].
  assert (∀ (A : Type) (a b : A),
            match instances lb with [] => a | _ :: _ => b end = b) as Hmatch
    by (intros; by destruct (instances lb)).
  unfold get_instance. rewrite Hmatch.
  unfold select. cbn [strategy]. rewrite Hrr.
  change (candidates _) with (candidates lb).
  cbn [current_index]. rewrite Hsel, Hn. cbn [fst snd].
  repeat split; try done.
  - intros k Hk. cbn [instances request_distribution] in *.
    destruct (decide (instance_id x = k)) as [->|Hnek].
    + by rewrite dict_get_set_eq.
    + rewrite dict_get_set_ne by done. apply Hcnt.
      by rewrite dict_get_set_ne in Hk.
  - cbn [instances]. destruct (instances lb) as [|[k0 v0] d]; [done|].
    simpl. by destruct (decide (instance_id x = k0)).
Qed.

(** The picks of successive calls of [get_instance] are those of the
    selector run over the candidate lists of the calls, and these lists
    show the same ids in the same order. *)
Lemma get_instance_follows_round_robin inputs lb :
  strategy lb = ROUND_ROBIN → wf lb → counted lb → instances lb ≠ [] →
  picked_id <$> (get_many inputs lb).2
  = picked_id <$> (rr_run (current_index lb) (candidate_rounds inputs lb)).2
  ∧ Forall (fun insts => instance_id <$> insts = instance_id <$> candidates lb)
           (candidate_rounds inputs lb).
Proof.
  revert lb. induction inputs as [|[now r] rest IH];
    intros lb Hrr Hwf Hcnt Hne; simpl; [done|].
  destruct (get_instance_round_robin now r lb Hrr Hwf Hcnt Hne)
    as (x & Hsel & Hpick & Hcur & Hrr' & Hcnt' & Hne').
  pose proof (wf_apply_call lb (CallGet now r) Hwf) as Hwf'. simpl in Hwf'.
  pose proof (candidates_ids_stable now r lb Hwf) as Hids.
  specialize (IH (get_instance now r lb).1 Hrr' Hwf' Hcnt' Hne').
  rewrite Hsel. rewrite Hcur in IH.
  destruct (get_instance now r lb) as [lb1 pick]. cbn [fst snd] in *.
  subst pick.
  destruct (get_many rest lb1) as [lb2 picks].
  destruct (rr_run _ (candidate_rounds rest lb1)) as [c' picks'].
  cbn [fst snd] in *. destruct IH as [IH1 IH2]. split.
  - by rewrite !fmap_cons, IH1.
  - apply Forall_cons. split; [done|].
    eapply Forall_impl; [exact IH2|]. intros insts Hi. cbn beta in Hi.
    by rewrite Hi.
Qed.
End round_robin_dispatch.

(** ** The rate limiter *)

Section rate_limit_facts.
Import RateLimit.
Implicit Types (mw : RateLimitMiddleware) (req : Request).

Lemma dispatch_in_window st req t mw n w :
  _get_endpoint_limit st (path req) ≠ 0 →
  rate_limits mw !! client_ip req = Some (n, w) →
  (t - w <= 60)%Q →
  dispatch st req t mw
  = if bool_decide (_get_endpoint_limit st (path req) <= n)
    then (mw, Rejected 429 "Rate limit exceeded")
    else ({| rate_limits := <[client_ip req := (n + 1, w)]> (rate_limits mw) |},
          Forwarded (Some (_get_endpoint_limit st (path req),
                           _get_endpoint_limit st (path req) - n - 1,
                           py_int (w + 60)))).
Proof.
  intros HL Hb Ht. unfold dispatch.
  rewrite bool_decide_eq_false_2 by done. rewrite Hb. simpl.
  destruct (Qlt_le_dec 60 (t - w)) as [Hlt|Hle]; [lra|]. done.
Qed.

Lemma dispatch_fresh st req t mw :
  _get_endpoint_limit st (path req) ≠ 0 →
  rate_limits mw !! client_ip req = None →
  dispatch st req t mw
  = if bool_decide (_get_endpoint_limit st (path req) <= 0)
    then (mw, Rejected 429 "Rate limit exceeded")
    else ({| rate_limits := <[client_ip req := (1, t)]> (rate_limits mw) |},
          Forwarded (Some (_get_endpoint_limit st (path req),
                           _get_endpoint_limit st (path req) - 0 - 1,
                           py_int (t + 60)))).
Proof.
  intros HL Hb. unfold dispatch.
  rewrite bool_decide_eq_false_2 by done. rewrite Hb. simpl.
  destruct (Qlt_le_dec 60 (t - t)) as [Hlt|Hle]; [lra|]. done.
Qed.

(** The bucket is found under the client address alone: a request leaves
    the buckets of the other clients as they are. *)
Lemma dispatch_other_client st req t mw ip :
  ip ≠ client_ip req →
  rate_limits (dispatch st req t mw).1 !! ip = rate_limits mw !! ip.
Proof.
  intros Hne. unfold dispatch. case_bool_decide; [done|].
  destruct (default _ _) as [n0 w0].
  destruct (Qlt_le_dec 60 (t - w0)); case_bool_decide; simpl; try done;
    by rewrite lookup_insert_ne.
Qed.

(** The window of a bucket starts anew only when more than 60 seconds
    separate the request from its start. *)
Lemma dispatch_window_start st req t mw n w n' w' :
  rate_limits mw !! client_ip req = Some (n, w) →
  rate_limits (dispatch st req t mw).1 !! client_ip req = Some (n', w') →
  w' = w ∨ (w' = t ∧ (60 < t - w)%Q).
Proof.
  intros Hb. unfold dispatch. case_bool_decide.
  { simpl. rewrite Hb. intros [= _ <-]. by left. }
  rewrite Hb. simpl.
  destruct (Qlt_le_dec 60 (t - w)) as [Hlt|Hle]; case_bool_decide; simpl.
  - rewrite Hb. intros [= _ <-]. by left.
  - rewrite lookup_insert_eq. intros [= _ <-]. by right.
  - rewrite Hb. intros [= _ <-]. by left.
  - rewrite lookup_insert_eq. intros [= _ <-]. by left.
Qed.

(** Requests of one client inside the running window, whatever the other
    clients send in between: its [j]-th request is refused exactly when the
    count has reached the limit. *)
Lemma burst_in_window st ip L w (reqs : list (Request * Q)) :
  L ≠ 0 →
  Forall (fun rt => _get_endpoint_limit st (path rt.1) = L
                    ∧ (rt.2 - w <= 60)%Q) (requests_of ip reqs) →
  ∀ mw n, rate_limits mw !! ip = Some (n, w) →
  ∀ j o, outcomes_of ip reqs (dispatch_all st reqs mw).2 !! j = Some o →
         is_429 o = bool_decide (L <= n + Z.of_nat j).
Proof.
  intros HL. unfold requests_of.
  induction reqs as [|[req t] reqs IH]; intros Hall mw n Hb j o; [done|].
  rewrite filter_cons in Hall. cbn [fst] in Hall. cbn [dispatch_all].
  destruct (decide (client_ip req = ip)) as [Hip|Hip].
  - apply Forall_cons in Hall as [[Hlim Ht] Hrest]. simpl in Hlim, Ht.
    rewrite (dispatch_in_window st req t mw n w);
      [|by rewrite Hlim|by rewrite Hip|done].
    rewrite Hlim, Hip. case_bool_decide as Hfull.
    + specialize (IH Hrest mw n Hb).
      destruct (dispatch_all st reqs mw) as [mw2 os]. simpl.
      rewrite decide_True by done. destruct j as [|j]; simpl.
      * intros [= <-]. simpl. symmetry. apply bool_decide_eq_true_2. lia.
      * intros Hj. rewrite (IH j o Hj). apply bool_decide_ext. lia.
    + match goal with |- context [dispatch_all st reqs ?m] =>
        specialize (IH Hrest m (n + 1) (lookup_insert_eq _ _ _));
        destruct (dispatch_all st reqs m) as [mw2 os]
      end.
      simpl. rewrite decide_True by done. destruct j as [|j]; simpl.
      * intros [= <-]. simpl. symmetry. apply bool_decide_eq_false_2. lia.
      * intros Hj. rewrite (IH j o Hj). apply bool_decide_ext. lia.
  - pose proof (dispatch_other_client st req t mw ip ltac:(done)) as Hsame.
    destruct (dispatch st req t mw) as [mw1 o1]. simpl in Hsame.
    rewrite <- Hsame in Hb. specialize (IH Hall mw1 n Hb j o).
    destruct (dispatch_all st reqs mw1) as [mw2 os]. simpl.
    by rewrite decide_False.
Qed.

(** The same from the first request of a client that has no bucket yet. *)
Lemma burst_from_first st ip L req0 t0 (reqs : list (Request * Q)) :
  0 < L →
  head (requests_of ip reqs) = Some (req0, t0) →
  Forall (fun rt => _get_endpoint_limit st (path rt.1) = L
                    ∧ (rt.2 - t0 <= 60)%Q) (requests_of ip reqs) →
  ∀ mw, rate_limits mw !! ip = None →
  ∀ j o, outcomes_of ip reqs (dispatch_all st reqs mw).2 !! j = Some o →
         is_429 o = bool_decide (L <= Z.of_nat j).
Proof.
  intros HL. unfold requests_of.
  induction reqs as [|[req t] reqs IH]; intros Hhead Hall mw Hb j o; [done|].
  rewrite filter_cons in Hhead, Hall. cbn [fst] in Hhead, Hall.
  cbn [dispatch_all].
  destruct (decide (client_ip req = ip)) as [Hip|Hip].
  - simpl in Hhead. injection Hhead as -> ->.
    apply Forall_cons in Hall as [[Hlim Ht] Hrest]. simpl in Hlim, Ht.
    rewrite (dispatch_fresh st req0 t0 mw);
      [|rewrite Hlim; lia | by rewrite Hip].
    rewrite Hlim, Hip, bool_decide_eq_false_2 by lia.
    match goal with |- context [dispatch_all st reqs ?m] =>
      pose proof (burst_in_window st ip L t0 reqs ltac:(lia) Hrest m 1
                    (lookup_insert_eq _ _ _)) as Hburst;
      destruct (dispatch_all st reqs m) as [mw2 os]
    end.
    simpl in Hburst |- *. rewrite decide_True by done.
    destruct j as [|j]; simpl.
    + intros [= <-]. simpl. symmetry. apply bool_decide_eq_false_2. lia.
    + intros Hj. rewrite (Hburst j o Hj). apply bool_decide_ext. lia.
  - pose proof (dispatch_other_client st req t mw ip ltac:(done)) as Hsame.
    destruct (dispatch st req t mw) as [mw1 o1]. simpl in Hsame.
    rewrite <- Hsame in Hb. specialize (IH Hhead Hall mw1 Hb j o).
    destruct (dispatch_all st reqs mw1) as [mw2 os]. simpl.
    by rewrite decide_False.
Qed.

Lemma dispatch_all_length st reqs mw :
  length (dispatch_all st reqs mw).2 = length reqs.
Proof.
  revert mw. induction reqs as [|[req t] reqs IH]; intros mw; simpl; [done|].
  destruct (dispatch st req t mw) as [mw1 o].
  specialize (IH mw1). destruct (dispatch_all st reqs mw1). simpl in *.
  by rewrite IH.
Qed.

Lemma outcomes_of_length ip reqs outs :
  length outs = length reqs →
  length (outcomes_of ip reqs outs) = length (requests_of ip reqs).
Proof.
  unfold requests_of. revert outs.
  induction reqs as [|[req t] reqs IH]; intros [|o outs]; simpl; try done.
  intros [= Hlen]. rewrite filter_cons. simpl.
  destruct (decide (client_ip req = ip)); simpl; by rewrite IH.
Qed.
End rate_limit_facts.

Section rate_limit_claims.
Import RateLimit.

(** C7 (as the code has it): a bucket is kept per client address, shared
    by the endpoint classes.  When a client without a bucket sends [L + 1]
    requests to endpoints of limit [L > 0], all within 60 seconds of the
    first, then, whatever other clients send in between, its first [L]
    requests are passed on and its [(L+1)]-th is answered 429.  A request
    never touches the bucket of another client, and the window of a bucket
    starts anew only at a request that comes more than 60 seconds after its
    start. *)
Theorem rate_limit_burst (st : Settings) (mw : RateLimitMiddleware)
  (ip : string) (L : Z) (req0 : Request) (t0 : Q)
  (reqs : list (Request * Q)) :
  0 < L →
  rate_limits mw !! ip = None →
  head (requests_of ip reqs) = Some (req0, t0) →
  Forall (fun rt => _get_endpoint_limit st (path rt.1) = L
                    ∧ (rt.2 - t0 <= 60)%Q) (requests_of ip reqs) →
  length (requests_of ip reqs) = S (Z.to_nat L) →
  let mine := outcomes_of ip reqs (dispatch_all st reqs mw).2 in
  (∀ j o, (j < Z.to_nat L)%nat → mine !! j = Some o → is_429 o = false)
  ∧ (∃ o, mine !! Z.to_nat L = Some o ∧ is_429 o = true)
  ∧ (∀ req t mw' ip', ip' ≠ client_ip req →
       rate_limits (dispatch st req t mw').1 !! ip'
       = rate_limits mw' !! ip')
  ∧ (∀ req t mw' n w n' w',
       rate_limits mw' !! client_ip req = Some (n, w) →
       rate_limits (dispatch st req t mw').1 !! client_ip req
       = Some (n', w') →
       w' = w ∨ (w' = t ∧ (60 < t - w)%Q)).
Proof.
  intros HL Hnone Hhead Hall Hlen mine.
  pose proof (burst_from_first st ip L req0 t0 reqs HL Hhead Hall mw Hnone)
    as Hout. fold mine in Hout.
  split; [|split; [|split]].
  - intros j o Hj Ho. rewrite (Hout j o Ho).
    apply bool_decide_eq_false_2. lia.
  - destruct (lookup_lt_is_Some_2 mine (Z.to_nat L)) as [o Ho].
    { subst mine. rewrite outcomes_of_length, Hlen; [lia|].
      apply dispatch_all_length. }
    exists o. split; [done|]. rewrite (Hout _ o Ho).
    apply bool_decide_eq_true_2. lia.
  - intros. by apply dispatch_other_client.
  - intros. by eapply dispatch_window_start.
Qed.

Lemma rate_limit_burst_witness :
  ∃ o, outcomes_of "10.0.0.7" six_pulls
         (dispatch_all default_settings six_pulls new).2 !! 5%nat = Some o
       ∧ is_429 o = true.
Proof.
  refine (proj1 (proj2 (rate_limit_burst default_settings new "10.0.0.7" 5
                 {| client_ip := "10.0.0.7"; path := pull_path |} 100%Q
                 six_pulls _ _ _ _ _))).
  - lia.
  - reflexivity.
  - reflexivity.
  - repeat (apply Forall_cons; split;
            [split; [reflexivity | vm_compute; discriminate]|]).
    apply Forall_nil. done.
  - reflexivity.
Defined.

(** C7 (as stated) fails.  The sixth pull request of a client, four
    seconds after its first, is passed on and not answered 429: the
    shared bucket started anew in between.  And the buckets are not kept
    per endpoint class: after five chat requests the first pull request
    of the client is answered 429. *)
Lemma sixth_pull_is_forwarded :
  _get_endpoint_limit default_settings pull_path = 5
  ∧ is_429 <$> (dispatch_all default_settings chat_then_pulls new).2
    = [false; false; false; false; false; false; false]
  ∧ is_429 <$> (dispatch_all default_settings chats_then_pull new).2
    = [false; false; false; false; false; true].
Proof. split; [|split]; vm_compute; reflexivity. Qed.
End rate_limit_claims.

(** ** The cache in front of an unreachable server *)

Section cache_claims.
Import Cache.

(** C8 (as the code has it): when the key/value server is unreachable,
    [get] returns the miss and [set] returns [False], neither raises, and
    the server is left as it is.  The error counter grows by one per
    operation when the service holds a client, that is when
    [initialize] had found the server; a service whose [initialize] failed
    holds no client, returns at once and leaves the counter as it is. *)
Theorem cache_unreachable (st : Settings) (srv : RedisServer)
  (cs : CacheService) (key : string) (value : json) (ttl : option Z) :
  reachable srv = false →
  (get key srv cs).2 = inr None
  ∧ (set st key value ttl srv cs).2 = inr false
  ∧ (set st key value ttl srv cs).1.2 = srv
  ∧ errors (get key srv cs).1
    = errors cs + (if has_client cs then 1 else 0)
  ∧ errors (set st key value ttl srv cs).1.1
    = errors cs + (if has_client cs then 1 else 0)
  ∧ hits (get key srv cs).1 = hits cs
  ∧ misses (get key srv cs).1 = misses cs.
Proof.
  intros Hdown. unfold get, set, has_client, redis_get, redis_setex.
  rewrite Hdown. destruct (redis cs); simpl; repeat split; lia.
Qed.

Lemma cache_unreachable_witness :
  (get "k" server_down connected).2 = inr None
  ∧ errors (get "k" server_down connected).1 = 1.
Proof.
  destruct (cache_unreachable default_settings server_down connected "k"
              (JString "v") None eq_refl)
    as (Hget & _ & _ & Herr & _).
  split; [exact Hget | exact Herr].
Defined.

(** C8 (as stated) fails: the service started while the server was down
    answers [get] with the miss and [set] with [False], and its error
    counter stays at 0. *)
Lemma failed_operations_not_counted :
  reachable server_down = false
  ∧ get "k" server_down never_connected = (never_connected, inr None)
  ∧ set default_settings "k" (JString "v") None server_down never_connected
    = (never_connected, server_down, inr false)
  ∧ errors never_connected = 0
  ∧ errors (get "k" server_down never_connected).1
    ≠ errors never_connected + 1
  ∧ errors (set default_settings "k" (JString "v") None server_down
              never_connected).1.1
    ≠ errors never_connected + 1.
Proof. repeat split; try reflexivity; vm_compute; discriminate. Qed.
End cache_claims.

(** ** The chat handler *)

Section chat_claims.
Import Main.

Lemma chat_non_streaming st req backend :
  message req ≠ EmptyString → stream req = false →
  chat st req backend
  = (JsonResponse 200
       match decode_reply (default (DEFAULT_MODEL st) (model_name req))
               (backend 0%nat) with
       | inr b => b
       | inl e => fallback_body (message req)
                    (default (DEFAULT_MODEL st) (model_name req)) e
       end,
     [payload_for st req]).
Proof.
  intros Hmsg Hstream. unfold chat.
  case_bool_decide; [done|]. rewrite Hstream. unfold payload_for.
  rewrite Hstream. by destruct (decode_reply _ _).
Qed.

(** C2 (as the code has it): the handler sends one POST and never a second
    one.  When that attempt fails (the client raises, the status is not
    2xx, or the body cannot be used) the non-streaming answer is the
    fallback: status 200, a message that explains the outage and quotes
    the error, [tokens_used] 0, and a code-block list that holds one
    python block printing the fallback notice. *)
Theorem chat_fallback_after_one_attempt (st : Settings) (req : ChatRequest)
  (backend : nat → Raises HttpResponse) (e : Exception) :
  message req ≠ EmptyString → stream req = false →
  decode_reply (default (DEFAULT_MODEL st) (model_name req)) (backend 0%nat)
  = inl e →
  chat st req backend
  = (JsonResponse 200
       (fallback_body (message req)
          (default (DEFAULT_MODEL st) (model_name req)) e),
     [payload_for st req])
  ∧ length (chat st req backend).2 = 1%nat
  ∧ code_blocks (fallback_body (message req)
                   (default (DEFAULT_MODEL st) (model_name req)) e)
    = [{| language := "python";
          code := "print(" +:+ dquote +:+ "Fallback response for: "
                  +:+ message req +:+ dquote +:+ ")" |}]
  ∧ tokens_used (fallback_body (message req)
                   (default (DEFAULT_MODEL st) (model_name req)) e)
    = JInt 0
  ∧ (∀ m e', decode_reply m (inl e') = inl e')
  ∧ (∀ m resp, ¬ (200 <= status_code resp < 300) →
       decode_reply m (inr resp) = inl (HTTPStatusError (status_code resp))).
Proof.
  intros Hmsg Hstream Hfail.
  rewrite (chat_non_streaming st req backend Hmsg Hstream), Hfail.
  repeat split; try done.
  intros m resp Hst. unfold decode_reply, raise_for_status. simpl.
  by rewrite bool_decide_eq_false_2.
Qed.

Lemma chat_fallback_after_one_attempt_witness :
  length (chat default_settings hello_request backend_down).2 = 1%nat.
Proof.
  refine (proj1 (proj2 (chat_fallback_after_one_attempt default_settings
            hello_request backend_down
            (ConnectionError "All connection attempts failed") _ _ _))).
  - discriminate.
  - reflexivity.
  - reflexivity.
Defined.

(** C2 (as stated) fails: with a backend that is down the fallback is
    returned after a single POST, and its code-block list is not empty. *)
Lemma fallback_without_retry :
  ∃ b, (chat default_settings hello_request backend_down).1
       = JsonResponse 200 b
       ∧ b = fallback_body "Write Python hello world" "deepseek-coder:6.7b"
               (ConnectionError "All connection attempts failed")
       ∧ length (chat default_settings hello_request backend_down).2 = 1%nat
       ∧ length (chat default_settings hello_request backend_down).2 ≠ 3%nat
       ∧ code_blocks b ≠ [].
Proof.
  eexists. split; [reflexivity|]. split; [reflexivity|].
  split; [reflexivity|]. split; discriminate.
Qed.

(** C3 (as the code has it): when the backend answers a non-streaming
    request with a 2xx status and a body that is one JSON object, the
    answer is 200 and its [message] is the string under [response] of that
    object (the empty string when the object has no such field), with the
    code blocks extracted from it and the model that was asked for.  A
    body of two or more frames is not one JSON document: the handler
    answers with its fallback body. *)
Theorem chat_single_document (st : Settings) (req : ChatRequest)
  (backend : nat → Raises HttpResponse) (resp : HttpResponse) :
  message req ≠ EmptyString → stream req = false →
  backend 0%nat = inr resp →
  200 <= status_code resp < 300 →
  (∀ fields s,
     non_blank (body resp) = [Frame (JObject fields)] →
     default (JString EmptyString) (dict_get "response" fields)
     = JString s →
     ∃ b, chat st req backend = (JsonResponse 200 b, [payload_for st req])
          ∧ body_message b = s
          ∧ code_blocks b = extract_code_blocks s
          ∧ conversation_id b = 1
          ∧ model b = default (DEFAULT_MODEL st) (model_name req))
  ∧ (∀ v l ls,
       non_blank (body resp) = Frame v :: l :: ls →
       chat st req backend
       = (JsonResponse 200
            (fallback_body (message req)
               (default (DEFAULT_MODEL st) (model_name req))
               (JSONDecodeError "Extra data")),
          [payload_for st req])).
Proof.
  intros Hmsg Hstream Hreply Hstatus.
  rewrite (chat_non_streaming st req backend Hmsg Hstream), Hreply.
  unfold decode_reply, raise_for_status, response_json. simpl.
  rewrite bool_decide_eq_true_2 by done. simpl.
  split.
  - intros fields s Hbody Hresp. unfold non_blank in Hbody.
    rewrite Hbody. simpl. rewrite Hresp. simpl. eexists. split; [done|].
    done.
  - intros v l ls Hbody. unfold non_blank in Hbody. by rewrite Hbody.
Qed.

Lemma chat_single_document_witness :
  ∃ b, chat default_settings hello_request (fun _ => inr one_document)
       = (JsonResponse 200 b, [payload_for default_settings hello_request])
       ∧ body_message b = "print(1)".
Proof.
  destruct (proj1 (chat_single_document default_settings hello_request
                     (fun _ => inr one_document) one_document
                     ltac:(discriminate) eq_refl eq_refl
                     ltac:(simpl; lia))
              _ "print(1)" eq_refl eq_refl)
    as (b & Hchat & Hmsg & _).
  exists b. split; [exact Hchat | exact Hmsg].
Defined.

(** C3 (as stated) fails: to the three frames the handler answers with its
    fallback body, whose message is not the concatenation of the chunks
    and whose [tokens_used] is 0, not 3. *)
Lemma ndjson_frames_give_fallback :
  ∃ b, (chat default_settings hello_request (fun _ => inr ndjson_frames)).1
       = JsonResponse 200 b
       ∧ b = fallback_body "Write Python hello world" "deepseek-coder:6.7b"
               (JSONDecodeError "Extra data")
       ∧ body_message b
         ≠ "print(" +:+ dquote +:+ "hi" +:+ dquote +:+ ")"
       ∧ tokens_used b = JInt 0
       ∧ tokens_used b ≠ JInt 3.
Proof.
  eexists. split; [reflexivity|]. split; [reflexivity|].
  split; [vm_compute; discriminate|]. split; [reflexivity | discriminate].
Qed.
End chat_claims.

(** ** Concurrent calls of [generate] *)

Section generate_claims.
Import LLM.
Context (st : Settings) (sha256_hex : string → string)
  (dumps_kwargs : Q → Z → string).

Abbreviation step_task := (step_task st sha256_hex dumps_kwargs).
Abbreviation tick := (tick st sha256_hex dumps_kwargs).
Abbreviation run := (run st sha256_hex dumps_kwargs).

Lemma on_reply_log now reply req inst t0 w :
  upstream_log (on_reply st sha256_hex dumps_kwargs now reply req inst t0 w).1
  = upstream_log w.
Proof.
  unfold on_reply.
  destruct (bind reply _) as [e|[[id n] full]]; [done|].
  destruct (cache req); [|done].
  by destruct (Cache.set _ _ _ _ _ _) as [[cs srv] r].
Qed.

Lemma on_error_log e inst w :
  upstream_log (on_error e inst w).1 = upstream_log w.
Proof. unfold on_error. by destruct (attr_id inst). Qed.

(** A step sends a POST exactly when it takes the task from the miss to
    the wait for the backend. *)
Lemma step_task_posts k t w :
  (length (upstream_log (step_task k t w).1) + posts_of t
   = length (upstream_log w) + posts_of (step_task k t w).2)%nat.
Proof.
  destruct t as [req|req|req inst t0|d ys r]; simpl; [| | |done].
  - unfold step_start. destruct (cache req); [|done].
    destruct (Cache.get _ _ _) as [cs [e|[cached|]]]; simpl; [done| |done].
    by destruct (truthy cached).
  - unfold step_dispatch.
    destruct (LB.get_instance _ _ _) as [lb [e|inst]]; simpl; [done|].
    rewrite length_app. simpl. lia.
  - unfold step_reply.
    pose proof (on_reply_log (tick_now k) (tick_reply k) req inst t0 w)
      as Hlog.
    destruct (on_reply _ _ _ _ _ _ _ _ _) as [w1 [e|full]]; simpl in *.
    + pose proof (on_error_log e inst w1) as Hlog'.
      destruct (on_error e inst w1) as [w2 e']. simpl in *.
      by rewrite <- Hlog.
    + by rewrite Hlog.
Qed.

Lemma posts_sent_insert (tasks : list Task) i t t' :
  tasks !! i = Some t →
  (posts_sent (<[i := t']> tasks) + posts_of t
   = posts_sent tasks + posts_of t')%nat.
Proof.
  unfold posts_sent. revert i.
  induction tasks as [|t0 tasks IH]; intros [|i]; csimpl; try done.
  - intros [= ->]. lia.
  - intros Hi. specialize (IH i Hi). lia.
Qed.

Lemma tick_posts w tasks k :
  (length (upstream_log (tick (w, tasks) k).1) + posts_sent tasks
   = length (upstream_log w) + posts_sent (tick (w, tasks) k).2)%nat.
Proof.
  unfold LLM.tick. simpl.
  destruct (tasks !! task_index k) as [t|] eqn:Ht; [|done].
  pose proof (step_task_posts k t w) as Hstep.
  destruct (step_task k t w) as [w' t']. simpl in *.
  pose proof (posts_sent_insert tasks (task_index k) t t' Ht). lia.
Qed.

Lemma tick_length w tasks k :
  length (tick (w, tasks) k).2 = length tasks.
Proof.
  unfold LLM.tick. simpl.
  destruct (tasks !! task_index k) as [t|]; [|done].
  destruct (step_task k t w) as [w' t']. simpl. by rewrite length_insert.
Qed.

Lemma run_posts w tasks ks :
  (length (upstream_log (run w tasks ks).1) + posts_sent tasks
   = length (upstream_log w) + posts_sent (run w tasks ks).2)%nat
  ∧ length (run w tasks ks).2 = length tasks.
Proof.
  unfold LLM.run. revert w tasks.
  induction ks as [|k ks IH]; intros w tasks; simpl; [done|].
  pose proof (tick_posts w tasks k) as Hk.
  pose proof (tick_length w tasks k) as Hl.
  destruct (tick (w, tasks) k) as [w1 tasks1]. simpl in *.
  destruct (IH w1 tasks1) as [Hposts Hlen]. split; lia.
Qed.


End generate_claims.

Section generate_scenario.
Import LLM.


End generate_scenario.

(** * Further properties of the sources *)

(** ** The shape of the registry *)

Section registry_shape_facts.
Import LB.
Implicit Types (lb : LoadBalancer) (i : InstanceMetrics) (id k : string).

Lemma dict_keys_del {V} k (d : list (string * V)) :
  dict_keys (dict_del k d) = filter (fun x => x ≠ k) (dict_keys d).
Proof.
  unfold dict_keys. induction d as [|[k0 v0] d IH]; [done|].
  cbn [dict_del]. rewrite fmap_cons, filter_cons. cbn [fst].
  destruct (decide (k = k0)) as [->|Hne].
  - by rewrite decide_False by (intros H; by apply H).
  - rewrite decide_True by done. by rewrite fmap_cons, IH.
Qed.

Lemma list_remove_filter k (l : list string) :
  NoDup l → list_remove k l = filter (fun x => x ≠ k) l.
Proof.
  induction l as [|x l IH]; [done|]. intros [Hnin Hnd]%NoDup_cons.
  cbn [list_remove]. rewrite filter_cons.
  destruct (decide (k = x)) as [->|Hne].
  - rewrite decide_False by (intros H; by apply H).
    clear IH. induction l as [|y l IH]; [done|].
    apply not_elem_of_cons in Hnin as [Hxy Hnin].
    apply NoDup_cons in Hnd as [_ Hnd].
    rewrite filter_cons, decide_True by done. f_equal. by apply IH.
  - rewrite decide_True by done. f_equal. by apply IH.
Qed.

Lemma dict_set_fresh {V} k (v : V) (d : list (string * V)) :
  dict_get k d = None → dict_set k v d = d ++ [(k, v)].
Proof.
  induction d as [|[k0 v0] d IH]; simpl; [done|].
  destruct (decide (k = k0)); [done|]. intros H. by rewrite IH.
Qed.

Lemma dict_del_fresh {V} k (d : list (string * V)) :
  dict_get k d = None → dict_del k d = d.
Proof.
  induction d as [|[k0 v0] d IH]; simpl; [done|].
  destruct (decide (k = k0)); [done|]. intros H. by rewrite IH.
Qed.

Lemma dict_del_set_fresh {V} k (v : V) (d : list (string * V)) :
  dict_get k d = None → dict_del k (dict_set k v d) = d.
Proof.
  induction d as [|[k0 v0] d IH]; simpl.
  - by rewrite decide_True.
  - destruct (decide (k = k0)) as [->|Hne]; [done|]. intros H. simpl.
    rewrite decide_False by done. by rewrite IH.
Qed.

Lemma list_remove_snoc k (l : list string) :
  k ∉ l → list_remove k (l ++ [k]) = l.
Proof.
  induction l as [|x l IH]; simpl.
  - intros _. by rewrite decide_True.
  - intros [Hne Hnin]%not_elem_of_cons.
    rewrite decide_False by done. by rewrite IH.
Qed.

(** What a call of [get_instance] can do. *)
Lemma get_instance_cases now r lb :
  (instances lb = []
   ∧ get_instance now r lb
     = (bumped lb, inl (RuntimeError "No instances available")))
  ∨ (instances lb ≠ []
     ∧ ∃ c e, select r (bumped lb) = (c, inl e)
              ∧ get_instance now r lb
                = (set_current_index c (bumped lb), inl e))
  ∨ (instances lb ≠ []
     ∧ ∃ c inst,
         select r (bumped lb) = (c, inr inst)
         ∧ dict_get (instance_id inst) (request_distribution lb) = None
         ∧ get_instance now r lb
           = (set_instances
                (dict_set (instance_id inst) (reserve now inst) (instances lb))
                (set_current_index c (bumped lb)),
              inl (KeyError (instance_id inst))))
  ∨ (instances lb ≠ []
     ∧ ∃ c inst n,
         select r (bumped lb) = (c, inr inst)
         ∧ dict_get (instance_id inst) (request_distribution lb) = Some n
         ∧ get_instance now r lb
           = ({| strategy := strategy lb;
                 instances := dict_set (instance_id inst) (reserve now inst)
                                       (instances lb);
                 instance_list := instance_list lb;
                 current_index := c;
                 health_check_interval := health_check_interval lb;
                 lb_total_requests := lb_total_requests lb + 1;
                 request_distribution :=
                   dict_set (instance_id inst) (n + 1)
                            (request_distribution lb) |},
              inr (reserve now inst))).
Proof.
  unfold get_instance. fold (bumped lb).
  destruct (instances lb) as [|kv d] eqn:Hd; [by left|].
  right.
  destruct (select r (bumped lb)) as [c [e|inst]] eqn:Hsel.
  - left. split; [done|]. by exists c, e.
  - right.
    destruct (dict_get (instance_id inst) (request_distribution lb))
      as [n|] eqn:Hn.
    + right. split; [done|]. by exists c, inst, n.
    + left. split; [done|]. by exists c, inst.
Qed.

Lemma select_registered r lb c inst :
  wf lb → select r (bumped lb) = (c, inr inst) →
  dict_get (instance_id inst) (instances lb) = Some inst.
Proof.
  intros Hwf Hsel. apply (wf_registered lb inst Hwf).
  apply select_elem, candidates_registered in Hsel. exact Hsel.
Qed.

Lemma get_instance_keys now r lb :
  wf lb →
  instance_list (get_instance now r lb).1 = instance_list lb
  ∧ dict_keys (instances (get_instance now r lb).1)
    = dict_keys (instances lb)
  ∧ dict_keys (request_distribution (get_instance now r lb).1)
    = dict_keys (request_distribution lb).
Proof.
  intros Hwf.
  destruct (get_instance_cases now r lb)
    as [[_ ->]|[[_ (c & e & _ & ->)]|[[_ (c & inst & Hsel & _ & ->)]
       |[_ (c & inst & n & Hsel & Hn & ->)]]]]; simpl; try done.
  - pose proof (select_registered r lb c inst Hwf Hsel) as Hget.
    by rewrite (dict_set_keys _ _ inst).
  - pose proof (select_registered r lb c inst Hwf Hsel) as Hget.
    by rewrite (dict_set_keys _ _ inst), (dict_set_keys _ _ n).
Qed.

Lemma with_instance_keys id f lb :
  instance_list (with_instance id f lb) = instance_list lb
  ∧ dict_keys (instances (with_instance id f lb)) = dict_keys (instances lb)
  ∧ request_distribution (with_instance id f lb) = request_distribution lb.
Proof.
  unfold with_instance.
  destruct (dict_get id (instances lb)) as [i|] eqn:Hi; [|done].
  simpl. by rewrite (dict_set_keys _ _ i).
Qed.

Lemma mirrored_with_instance id f lb :
  mirrored lb → mirrored (with_instance id f lb).
Proof.
  intros [H1 H2]. unfold mirrored.
  destruct (with_instance_keys id f lb) as (-> & -> & ->). by split.
Qed.

Lemma apply_call_mirrored lb c :
  wf lb → mirrored lb → mirrored (apply_call lb c).
Proof.
  intros Hwf [Hl Hd]. destruct c; simpl;
    try (by apply mirrored_with_instance).
  - unfold add_instance.
    destruct (dict_contains id (instances lb)) eqn:Hc; [done|].
    apply dict_contains_false in Hc.
    assert (dict_get id (request_distribution lb) = None) as Hc'.
    { apply dict_get_None_keys. rewrite Hd. by apply dict_get_None_keys. }
    split; simpl.
    + by rewrite dict_set_keys_new, Hl.
    + by rewrite !dict_set_keys_new, Hd.
  - unfold remove_instance.
    destruct (dict_contains id (instances lb)); [|done].
    destruct Hwf as [Hnd _]. split; simpl.
    + rewrite dict_keys_del, Hl. by apply list_remove_filter.
    + by rewrite !dict_keys_del, Hd.
  - unfold mirrored.
    destruct (get_instance_keys now r lb Hwf) as (-> & -> & ->). by split.
  - unfold _check_instance_health. destruct probe as [e|status].
    + by apply mirrored_with_instance.
    + case_bool_decide.
      * destruct (dict_get id (instances lb)) as [i|]; [|done].
        destruct (is_healthy i); [done|]. by apply mirrored_with_instance.
      * by apply mirrored_with_instance.
Qed.

Lemma run_calls_shape lb cs :
  wf lb → mirrored lb → wf (run_calls lb cs) ∧ mirrored (run_calls lb cs).
Proof.
  unfold run_calls. revert lb.
  induction cs as [|c cs IH]; intros lb Hwf Hm; simpl; [done|].
  apply IH; [by apply wf_apply_call | by apply apply_call_mirrored].
Qed.

Lemma mirrored_counted lb : mirrored lb → counted lb.
Proof.
  intros [_ Hd] k [i Hk]. apply not_eq_None_Some.
  rewrite dict_get_None_keys, Hd, <- dict_get_None_keys. by rewrite Hk.
Qed.

(** X1: at every state the registry calls reach, each id is registered
    once, every instance is stored under its own [instance_id], and
    [instance_list] and the keys of [request_distribution] are the
    registered ids in the order of [instances]. *)
Theorem registry_shape (s : LoadBalancerStrategy) (cs : list Call) :
  NoDup (dict_keys (instances (run_calls (init s) cs)))
  ∧ (∀ k i, dict_get k (instances (run_calls (init s) cs)) = Some i →
            instance_id i = k)
  ∧ instance_list (run_calls (init s) cs)
    = dict_keys (instances (run_calls (init s) cs))
  ∧ dict_keys (request_distribution (run_calls (init s) cs))
    = dict_keys (instances (run_calls (init s) cs)).
Proof.
  destruct (run_calls_shape (init s) cs) as [[Hnd Hid] [Hl Hd]].
  - split; [constructor | done].
  - by split.
  - done.
Qed.
End registry_shape_facts.

(** ** Registration *)

Section registration_facts.
Import LB.
Implicit Types (lb : LoadBalancer) (i : InstanceMetrics) (id k : string).

(** X2: [add_instance] is idempotent by id: once an id is registered, a
    second [add_instance] with that id, whatever its url and weight, changes
    nothing, and the id stays registered. *)
Theorem add_instance_idempotent lb id (u u' : string) (w w' : Q) :
  add_instance id u' w' (add_instance id u w lb) = add_instance id u w lb
  ∧ is_Some (dict_get id (instances (add_instance id u w lb))).
Proof.
  assert (is_Some (dict_get id (instances (add_instance id u w lb)))) as H.
  { unfold add_instance.
    destruct (dict_contains id (instances lb)) eqn:Hc.
    - by apply bool_decide_eq_true in Hc.
    - simpl. by rewrite dict_get_set_eq. }
  split; [|done]. unfold add_instance at 1.
  unfold dict_contains. by rewrite bool_decide_eq_true_2.
Qed.

(** X3: in a registry the calls reach, registering an id that is not
    registered stores the instance with the dataclass defaults and the url
    without its trailing slashes, and removing it again gives the registry
    back as it was. *)
Theorem add_then_remove (s : LoadBalancerStrategy) (cs : list Call)
  (id u : string) (w : Q) :
  dict_get id (instances (run_calls (init s) cs)) = None →
  dict_get id (instances (add_instance id u w (run_calls (init s) cs)))
  = Some (new_instance id (rstrip_slash u) w)
  ∧ remove_instance id (add_instance id u w (run_calls (init s) cs))
    = run_calls (init s) cs.
Proof.
  destruct (run_calls_shape (init s) cs) as [[Hnd _] [Hl Hd]];
    [split; [constructor | done] | by split |].
  generalize dependent (run_calls (init s) cs). intros lb Hnd Hl Hd Hnone.
  assert (dict_get id (request_distribution lb) = None) as Hnone'.
  { apply dict_get_None_keys. rewrite Hd. by apply dict_get_None_keys. }
  assert (id ∉ instance_list lb) as Hnin.
  { rewrite Hl. by apply dict_get_None_keys. }
  assert (dict_contains id (instances lb) = false) as Hc
    by (by apply dict_contains_false).
  unfold add_instance. rewrite Hc.
  split; [simpl; by rewrite dict_get_set_eq|].
  unfold remove_instance, dict_contains. cbn [instances].
  rewrite bool_decide_eq_true_2 by (by rewrite dict_get_set_eq).
  cbn [instances instance_list request_distribution strategy current_index
       health_check_interval lb_total_requests].
  rewrite !dict_del_set_fresh, list_remove_snoc by done.
  by destruct lb.
Qed.

Lemma add_then_remove_witness :
  remove_instance "ollama-3"
    (add_instance "ollama-3" "http://10.0.0.3:11434/" 1%Q two_backends)
  = two_backends.
Proof.
  exact (proj2 (add_then_remove ROUND_ROBIN
                  [CallAdd "ollama-1" "http://10.0.0.1:11434" 1%Q;
                   CallAdd "ollama-2" "http://10.0.0.2:11434" 1%Q]
                  "ollama-3" "http://10.0.0.3:11434/" 1%Q eq_refl)).
Defined.
End registration_facts.

(** ** Selection through [get_instance] *)

Section dispatch_facts.
Import LB.
Implicit Types (lb : LoadBalancer) (i : InstanceMetrics) (id k : string).

Lemma strategy_with_instance id f lb :
  strategy (with_instance id f lb) = strategy lb.
Proof. unfold with_instance. by destruct (dict_get id (instances lb)). Qed.

Lemma strategy_apply_call lb c : strategy (apply_call lb c) = strategy lb.
Proof.
  destruct c; simpl; try apply strategy_with_instance.
  - unfold add_instance. by destruct (dict_contains _ _).
  - unfold remove_instance. by destruct (dict_contains _ _).
  - destruct (get_instance_cases now r lb)
      as [[_ ->]|[[_ (c & e & _ & ->)]|[[_ (c & inst & _ & _ & ->)]
         |[_ (c & inst & n & _ & _ & ->)]]]]; done.
  - unfold _check_instance_health. destruct probe as [e|status].
    + apply strategy_with_instance.
    + case_bool_decide; [|apply strategy_with_instance].
      destruct (dict_get id (instances lb)) as [i|]; [|done].
      destruct (is_healthy i); [done | apply strategy_with_instance].
Qed.

Lemma strategy_run_calls lb cs : strategy (run_calls lb cs) = strategy lb.
Proof.
  unfold run_calls. revert lb.
  induction cs as [|c cs IH]; intros lb; simpl; [done|].
  by rewrite IH, strategy_apply_call.
Qed.

Lemma select_succeeds r lb :
  strategy lb ≠ WEIGHTED → candidates lb ≠ [] →
  ∃ c x, select r lb = (c, inr x).
Proof.
  intros Hs Hc. unfold select.
  assert (0 < length (candidates lb))%nat as HK
    by (destruct (candidates lb); simpl; [done | lia]).
  destruct (strategy lb); [| | |done].
  - destruct (rr_step_shape (length (candidates lb)) (current_index lb)
                (candidates lb) eq_refl HK) as (x & _ & ->). by eexists _, _.
  - unfold _least_connections_select, py_min.
    destruct (candidates lb); [done|]. by eexists _, _.
  - unfold _random_select.
    destruct (candidates lb) as [|y ys] eqn:Hy; [done|].
    destruct (lookup_lt_is_Some_2 (y :: ys)
                (rand_index r mod length (y :: ys))%nat) as [x Hx].
    { apply Nat.mod_upper_bound. simpl. lia. }
    rewrite Hx. by eexists _, _.
Qed.

(** X4: in a registry the calls reach, under the round-robin,
    least-connections and random strategies, [get_instance] raises exactly
    when no backend is registered, and then it is [RuntimeError] with the
    request already counted; otherwise it returns a registered backend with
    its connection reserved, and counts the request. *)
Theorem get_instance_succeeds (s : LoadBalancerStrategy) (cs : list Call)
  (now : Q) (r : Rng) :
  s ≠ WEIGHTED →
  (instances (run_calls (init s) cs) = [] →
   get_instance now r (run_calls (init s) cs)
   = (bumped (run_calls (init s) cs),
      inl (RuntimeError "No instances available")))
  ∧ (instances (run_calls (init s) cs) ≠ [] →
     ∃ x, (get_instance now r (run_calls (init s) cs)).2
          = inr (reserve now x)
          ∧ dict_get (instance_id x) (instances (run_calls (init s) cs))
            = Some x
          ∧ dict_get (instance_id x)
              (instances (get_instance now r (run_calls (init s) cs)).1)
            = Some (reserve now x)
          ∧ lb_total_requests (get_instance now r (run_calls (init s) cs)).1
            = lb_total_requests (run_calls (init s) cs) + 1).
Proof.
  intros Hs.
  destruct (run_calls_shape (init s) cs) as [Hwf Hm];
    [split; [constructor | done] | by split |].
  pose proof (strategy_run_calls (init s) cs) as Hstrat. simpl in Hstrat.
  generalize dependent (run_calls (init s) cs). intros lb Hwf Hm Hstrat.
  split.
  - intros Hempty.
    destruct (get_instance_cases now r lb)
      as [[_ H]|[[Hne _]|[[Hne _]|[Hne _]]]]; done.
  - intros Hne.
    destruct (select_succeeds r (bumped lb)) as (c0 & x0 & Hsel0).
    { simpl. by rewrite Hstrat. }
    { by apply (candidates_nonempty lb). }
    destruct (get_instance_cases now r lb)
      as [[Hempty _]|[[_ (c & e & Hsel & _)]|[[_ (c & inst & Hsel & Hn & _)]
         |[_ (c & inst & n & Hsel & Hn & ->)]]]].
    + done.
    + rewrite Hsel0 in Hsel. done.
    + pose proof (select_registered r lb c inst Hwf Hsel) as Hget.
      destruct (mirrored_counted lb Hm (instance_id inst)) as [n Hn'];
        [by rewrite Hget|]. by rewrite Hn in Hn'.
    + pose proof (select_registered r lb c inst Hwf Hsel) as Hget.
      exists inst. simpl. by rewrite dict_get_set_eq.
Qed.

Lemma get_instance_succeeds_witness :
  ∃ x, (get_instance 1%Q (mkRng 0 0%Q) two_backends).2 = inr (reserve 1%Q x)
       ∧ dict_get (instance_id x) (instances two_backends) = Some x.
Proof.
  destruct (proj2 (get_instance_succeeds ROUND_ROBIN
                     [CallAdd "ollama-1" "http://10.0.0.1:11434" 1%Q;
                      CallAdd "ollama-2" "http://10.0.0.2:11434" 1%Q]
                     1%Q (mkRng 0 0%Q) ltac:(discriminate))
             ltac:(discriminate)) as (x & H1 & H2 & _).
  exists x. split; [exact H1 | exact H2].
Defined.

Lemma get_instance_pick (now : Q) (r : Rng) lb (x : InstanceMetrics) :
  (get_instance now r lb).2 = inr x →
  ∃ x0, x = reserve now x0
        ∧ x0 ∈ dict_values (instances lb)
        ∧ (∀ h, h ∈ dict_values (instances lb) → is_healthy h = true →
                is_healthy x = true).
Proof.
  intros Hres.
  destruct (get_instance_cases now r lb)
    as [[_ H]|[[_ (c & e & _ & H)]|[[_ (c & inst & _ & _ & H)]
       |[_ (c & inst & n & Hsel & _ & H)]]]];
    rewrite H in Hres; simpl in Hres; try done.
  injection Hres as <-. exists inst.
  apply select_elem in Hsel. change (candidates (bumped lb))
    with (candidates lb) in Hsel.
  split; [done|]. split; [by apply candidates_registered|].
  intros h Hh Hhealthy. simpl. unfold candidates in Hsel.
  destruct (filter (λ i, is_healthy i = true) (dict_values (instances lb)))
    as [|y ys] eqn:Hf.
  - assert (h ∈ filter (λ i, is_healthy i = true)
                  (dict_values (instances lb))) as Hin
      by (by apply list_elem_of_filter).
    rewrite Hf in Hin. by apply elem_of_nil in Hin.
  - rewrite <- Hf in Hsel. by apply list_elem_of_filter in Hsel as [? _].
Qed.

(** X5: whatever the strategy and the random draws, the backend
    [get_instance] returns is a registered one, and it is healthy whenever
    some registered backend is healthy; unhealthy backends are served only
    when none is healthy. *)
Theorem get_instance_prefers_healthy (now : Q) (r : Rng) lb
  (x : InstanceMetrics) :
  (get_instance now r lb).2 = inr x →
  ∃ x0, x = reserve now x0
        ∧ x0 ∈ dict_values (instances lb)
        ∧ (∀ h, h ∈ dict_values (instances lb) → is_healthy h = true →
                is_healthy x = true).
Proof. apply get_instance_pick. Qed.

Lemma get_instance_prefers_healthy_witness :
  ∃ x0, (get_instance 3%Q (mkRng 0 0%Q) after_one_request).2
        = inr (reserve 3%Q x0)
        ∧ x0 ∈ dict_values (instances after_one_request).
Proof.
  destruct (get_instance_prefers_healthy 3%Q (mkRng 0 0%Q) after_one_request
              _ eq_refl) as (x0 & Hx & Hin & _).
  exists x0. split; [by rewrite <- Hx | exact Hin].
Defined.
End dispatch_facts.

(** ** The counters of the registry *)

Section accounting_facts.
Import LB.
Implicit Types (lb : LoadBalancer) (i : InstanceMetrics) (id k : string).

Lemma counts_ok_record_outcome success rt tok now i :
  counts_ok i → counts_ok (record_outcome success rt tok now i).
Proof.
  intros (Ha & Ht & Hs & He & Hh & Hf). unfold record_outcome, counts_ok.
  destruct success; simpl; repeat split; try lia; try done.
  case_bool_decide; [done | exact Hf].
Qed.

Lemma apply_call_counts lb c :
  Forall counts_ok (dict_values (instances lb)) →
  Forall counts_ok (dict_values (instances (apply_call lb c))).
Proof.
  intros Hall.
  assert (∀ h n, (h = true → n = 0) → 0 <= n → ∀ i,
            counts_ok i → counts_ok (set_health h n i)) as Hset.
  { intros h n Hhn Hn i (Ha & Ht & Hs & He & Hh & Hf).
    unfold counts_ok; simpl. repeat split; try lia; done. }
  destruct c; simpl.
  - unfold add_instance. destruct (dict_contains _ _); [done|]. simpl.
    apply Forall_dict_set; [|done]. unfold counts_ok; simpl.
    repeat split; lia.
  - unfold remove_instance. destruct (dict_contains _ _); [|done]. simpl.
    by apply Forall_dict_del.
  - destruct (get_instance_instances now r lb) as [->|(inst & Hin & ->)];
      [done|].
    apply Forall_dict_set; [|done].
    rewrite Forall_forall in Hall.
    destruct (Hall inst Hin) as (Ha & Ht & Hs & He & Hh & Hf).
    unfold counts_ok; simpl. repeat split; try lia; done.
  - apply with_instance_Forall; [|done].
    intros i (Ha & Ht & Hs & He & Hh & Hf).
    unfold counts_ok; simpl. repeat split; try lia; done.
  - apply with_instance_Forall; [|done].
    intros i. apply counts_ok_record_outcome.
  - apply with_instance_Forall; [|done]. intros i Hi.
    destruct Hi as (Ha & Ht & Hs & He & Hh & Hf).
    unfold counts_ok; simpl. repeat split; try lia; done.
  - apply with_instance_Forall; [|done]. by apply Hset.
  - unfold _check_instance_health.
    assert (∀ i, counts_ok i →
              counts_ok (set_health false (health_check_failures i + 1) i))
      as Hdown.
    { intros i (Ha & Ht & Hs & He & Hh & Hf).
      unfold counts_ok; simpl. repeat split; try lia; done. }
    destruct probe as [e|status].
    + by apply with_instance_Forall.
    + case_bool_decide; [|by apply with_instance_Forall].
      destruct (dict_get id (instances lb)) as [i|]; [|done].
      destruct (is_healthy i); [done|].
      apply with_instance_Forall; [|done]. by apply Hset.
Qed.

Lemma run_calls_counts s cs :
  Forall counts_ok (dict_values (instances (run_calls (init s) cs))).
Proof.
  unfold run_calls.
  assert (Forall counts_ok (dict_values (instances (init s)))) as H0
    by constructor.
  revert H0. generalize (init s) as lb.
  induction cs as [|c cs IH]; intros lb Hlb; simpl; [done|].
  apply IH. by apply apply_call_counts.
Qed.

(** X6: at every state the registry calls reach, every backend has
    [active_connections], [total_requests], [successful_requests] and
    [health_check_failures] at 0 or above, a consecutive error count
    between 0 and [failed_requests], and [health_check_failures = 0]
    whenever its healthy flag is set. *)
Theorem registry_counters (s : LoadBalancerStrategy) (cs : list Call)
  (id : string) (i : InstanceMetrics) :
  dict_get id (instances (run_calls (init s) cs)) = Some i →
  0 <= active_connections i
  ∧ 0 <= total_requests i
  ∧ 0 <= successful_requests i
  ∧ 0 <= error_count i <= failed_requests i
  ∧ 0 <= health_check_failures i
  ∧ (is_healthy i = true → health_check_failures i = 0).
Proof.
  intros Hi. pose proof (run_calls_counts s cs) as Hall.
  rewrite Forall_forall in Hall. apply Hall. by eapply dict_get_value.
Qed.

Lemma registry_counters_witness :
  ∃ i, dict_get "ollama-1"
         (instances (run_calls (init ROUND_ROBIN) five_failures_then_check))
       = Some i
       ∧ 0 <= error_count i <= failed_requests i.
Proof.
  eexists. split; [vm_compute; reflexivity|].
  refine (proj1 (proj2 (proj2 (proj2 (registry_counters ROUND_ROBIN
            five_failures_then_check "ollama-1" _ _))))).
  vm_compute; reflexivity.
Defined.

Lemma tallied_with_instance id f lb :
  (∀ i, total_requests (f i) = total_requests i) →
  tallied lb → tallied (with_instance id f lb).
Proof.
  intros Hf [H0 Ht]. split.
  - unfold with_instance. by destruct (dict_get id (instances lb)).
  - intros k i. rewrite with_instance_lookup.
    destruct (with_instance_keys id f lb) as (_ & _ & ->).
    assert (lb_total_requests (with_instance id f lb)
            = lb_total_requests lb) as ->
      by (unfold with_instance; by destruct (dict_get id (instances lb))).
    destruct (decide (k = id)) as [->|Hne]; [|by apply Ht].
    destruct (dict_get id (instances lb)) as [i0|] eqn:Hi0; [|done].
    intros [= <-]. rewrite Hf. by apply Ht.
Qed.

Lemma apply_call_tallied lb c :
  wf lb → tallied lb → tallied (apply_call lb c).
Proof.
  intros Hwf [H0 Ht]. destruct c; simpl;
    try (apply tallied_with_instance; [|by split]; done).
  - unfold add_instance.
    destruct (dict_contains id (instances lb)) eqn:Hc; [by split|].
    split; [done|]. simpl. intros k i.
    destruct (decide (id = k)) as [->|Hne].
    + rewrite !dict_get_set_eq. intros [= <-]. simpl. split; [done | lia].
    + rewrite !dict_get_set_ne by done. apply Ht.
  - unfold remove_instance.
    destruct (dict_contains id (instances lb)); [|by split].
    split; [done|]. simpl. intros k i.
    destruct (decide (id = k)) as [->|Hne].
    + by rewrite dict_get_del_eq.
    + rewrite !dict_get_del_ne by done. apply Ht.
  - destruct (get_instance_cases now r lb)
      as [[_ ->]|[[_ (c & e & _ & ->)]|[[_ (c & inst & Hsel & Hn & _)]
         |[_ (c & inst & n & Hsel & Hn & ->)]]]]; simpl.
    + split; simpl; [lia|]. intros k i Hk.
      destruct (Ht k i Hk) as [? ?]. split; [done | lia].
    + split; simpl; [lia|]. intros k i Hk.
      destruct (Ht k i Hk) as [? ?]. split; [done | lia].
    + pose proof (select_registered r lb c inst Hwf Hsel) as Hget.
      destruct (Ht _ _ Hget) as [Hd _]. by rewrite Hn in Hd.
    + pose proof (select_registered r lb c inst Hwf Hsel) as Hget.
      destruct (Ht _ _ Hget) as [Hd Hb]. rewrite Hn in Hd.
      injection Hd as ->.
      split; simpl; [lia|]. intros k i.
      destruct (decide (instance_id inst = k)) as [<-|Hne].
      * rewrite !dict_get_set_eq. intros [= <-]. simpl. split; [done | lia].
      * rewrite !dict_get_set_ne by done. intros Hk.
        destruct (Ht k i Hk) as [? ?]. split; [done | lia].
  - apply tallied_with_instance; [|by split]. intros i. by destruct success.
  - unfold _check_instance_health. destruct probe as [e|status].
    + by apply tallied_with_instance.
    + case_bool_decide; [|by apply tallied_with_instance].
      destruct (dict_get id (instances lb)) as [i|]; [|by split].
      destruct (is_healthy i); [by split|]. by apply tallied_with_instance.
Qed.

(** X7: at every state the registry calls reach, the request count kept
    in a backend's metrics equals its entry in [request_distribution], and
    neither exceeds the count of all [get_instance] calls. *)
Theorem request_counts_agree (s : LoadBalancerStrategy) (cs : list Call)
  (id : string) (i : InstanceMetrics) :
  dict_get id (instances (run_calls (init s) cs)) = Some i →
  dict_get id (request_distribution (run_calls (init s) cs))
  = Some (total_requests i)
  ∧ 0 <= total_requests i <= lb_total_requests (run_calls (init s) cs).
Proof.
  assert (wf (run_calls (init s) cs) ∧ tallied (run_calls (init s) cs))
    as [_ [_ Ht]]; [|by apply Ht].
  unfold run_calls.
  assert (wf (init s) ∧ tallied (init s)) as H0.
  { split; [split; [constructor | done] | split; done]. }
  revert H0. generalize (init s) as lb.
  induction cs as [|c cs IH]; intros lb [Hwf Ht]; simpl; [done|].
  apply IH. split; [by apply wf_apply_call | by apply apply_call_tallied].
Qed.

Lemma request_counts_agree_witness :
  ∃ i, dict_get "ollama-1" (instances after_one_request) = Some i
       ∧ dict_get "ollama-1" (request_distribution after_one_request)
         = Some (total_requests i).
Proof.
  eexists. split; [vm_compute; reflexivity|].
  refine (proj1 (request_counts_agree LEAST_CONNECTIONS
            [CallAdd "ollama-1" "http://10.0.0.1:11434" 1%Q;
             CallAdd "ollama-2" "http://10.0.0.2:11434" 1%Q;
             CallGet 1%Q (mkRng 0 0%Q);
             CallUpdate "ollama-1" true 1%Q 10 2%Q] "ollama-1" _ _)).
  vm_compute; reflexivity.
Defined.
End accounting_facts.

(** ** Reserving and releasing; the error threshold *)

Section reservation_facts.
Import LB.
Implicit Types (lb : LoadBalancer) (i : InstanceMetrics) (id k : string).

(** X8: in a registry the calls reach, the connection [get_instance]
    reserves on the backend it returns is given back by one
    [release_instance], and as well by one [update_metrics] whatever the
    outcome reported: [active_connections] is again what it was before the
    reservation. *)
Theorem reserve_then_release (s : LoadBalancerStrategy) (cs : list Call)
  (now : Q) (r : Rng) (x : InstanceMetrics) (success : bool)
  (response_time : Q) (tokens_used : Z) (later : Q) :
  (get_instance now r (run_calls (init s) cs)).2 = inr x →
  ∃ i0 i1 i2,
    dict_get (instance_id x) (instances (run_calls (init s) cs)) = Some i0
    ∧ active_connections x = active_connections i0 + 1
    ∧ dict_get (instance_id x)
        (instances (release_instance (instance_id x)
                      (get_instance now r (run_calls (init s) cs)).1))
      = Some i1
    ∧ active_connections i1 = active_connections i0
    ∧ dict_get (instance_id x)
        (instances (update_metrics (instance_id x) success response_time
                      tokens_used later
                      (get_instance now r (run_calls (init s) cs)).1))
      = Some i2
    ∧ active_connections i2 = active_connections i0.
Proof.
  destruct (run_calls_shape (init s) cs) as [Hwf _];
    [split; [constructor | done] | by split |].
  pose proof (run_calls_counts s cs) as Hcounts.
  generalize dependent (run_calls (init s) cs). intros lb Hwf Hcounts Hres.
  destruct (get_instance_cases now r lb)
    as [[_ H]|[[_ (c & e & _ & H)]|[[_ (c & inst & _ & _ & H)]
       |[_ (c & inst & n & Hsel & _ & H)]]]];
    rewrite H in Hres |- *; simpl in Hres; try done.
  injection Hres as <-.
  pose proof (select_registered r lb c inst Hwf Hsel) as Hget.
  assert (0 <= active_connections inst) as Hac.
  { rewrite Forall_forall in Hcounts.
    apply (Hcounts inst). by eapply dict_get_value. }
  exists inst, (released (reserve now inst)),
    (record_outcome success response_time tokens_used later
       (reserve now inst)).
  cbn [fst instance_id reserve]. split; [done|]. split; [done|].
  split; [apply with_instance_get; simpl; by rewrite dict_get_set_eq|].
  split; [simpl; lia|].
  split; [apply with_instance_get; simpl; by rewrite dict_get_set_eq|].
  unfold record_outcome. destruct success; simpl; lia.
Qed.

Lemma reserve_then_release_witness :
  ∃ i0 i1,
    dict_get "ollama-1" (instances two_backends) = Some i0
    ∧ dict_get "ollama-1"
        (instances (release_instance "ollama-1"
                      (get_instance 1%Q (mkRng 0 0%Q) two_backends).1))
      = Some i1
    ∧ active_connections i1 = active_connections i0.
Proof.
  destruct (reserve_then_release ROUND_ROBIN
              [CallAdd "ollama-1" "http://10.0.0.1:11434" 1%Q;
               CallAdd "ollama-2" "http://10.0.0.2:11434" 1%Q]
              1%Q (mkRng 0 0%Q) _ true 1%Q 0 2%Q eq_refl)
    as (i0 & i1 & _ & H0 & _ & H1 & Hac & _).
  exists i0, i1. split; [exact H0|]. split; [exact H1 | exact Hac].
Defined.




End reservation_facts.

(** ** Weighted selection; [initialize] *)

Section weighted_and_initialize.
Import LB.




Lemma numbered_id_inj i j : numbered_id i = numbered_id j → i = j.
Proof.
  unfold numbered_id. intros H. cbn [String.append] in H.
  injection H as H. apply pretty_nat_inj in H. congruence.
Qed.

Lemma add_numbered_instances urls k lb :
  (∀ j, (k <= j)%nat → dict_get (numbered_id j) (instances lb) = None) →
  instances (add_numbered k urls lb)
  = instances lb
    ++ imap (fun i u => (numbered_id (k + i),
                         new_instance (numbered_id (k + i))
                                      (rstrip_slash u) 1%Q)) urls.
Proof.
  revert k lb. induction urls as [|u urls IH]; intros k lb Hfresh.
  - simpl. by rewrite app_nil_r.
  - cbn [add_numbered]. rewrite IH.
    + unfold add_instance.
      rewrite (proj2 (dict_contains_false _ _) (Hfresh k ltac:(lia))).
      cbn [instances]. rewrite dict_set_fresh by (apply Hfresh; lia).
      rewrite <- app_assoc. f_equal. cbn [imap app].
      rewrite Nat.add_0_r. f_equal. apply imap_ext. intros i x _. simpl.
      by rewrite Nat.add_succ_r.
    + intros j Hj. unfold add_instance.
      rewrite (proj2 (dict_contains_false _ _) (Hfresh k ltac:(lia))).
      cbn [instances]. rewrite dict_get_set_ne.
      * apply Hfresh. lia.
      * intros Heq%numbered_id_inj. lia.
Qed.

Lemma length_list_ascii s :
  length (list_ascii_of_string s) = String.length s.
Proof. induction s as [|c s IH]; simpl; [done | by rewrite IH]. Qed.

(** X11: [initialize] on a new load balancer registers one backend for
    each item it iterates over, in order, under the ids "ollama-1",
    "ollama-2", ..., with weight 1 and the item without trailing slashes as
    url.  The items are the characters of the [OLLAMA_INSTANCES] string
    when it is not empty, so as many backends are registered as the string
    has characters; an empty string gives the single [OLLAMA_BASE_URL]. *)
Theorem initialize_registers (s : LoadBalancerStrategy)
  (ollama_base_url ollama_instances : string) :
  instances (initialize ollama_base_url ollama_instances (init s))
  = imap (fun i u => (numbered_id i,
                      new_instance (numbered_id i) (rstrip_slash u) 1%Q))
         (configured_instances ollama_base_url ollama_instances)
  ∧ length (instances (initialize ollama_base_url ollama_instances (init s)))
    = (if bool_decide (ollama_instances = EmptyString) then 1%nat
       else String.length ollama_instances)
  ∧ (ollama_instances ≠ EmptyString →
     configured_instances ollama_base_url ollama_instances
     = (fun c => String c EmptyString)
         <$> list_ascii_of_string ollama_instances).
Proof.
  assert (instances (initialize ollama_base_url ollama_instances (init s))
          = imap (fun i u => (numbered_id i,
                              new_instance (numbered_id i) (rstrip_slash u)
                                           1%Q))
                 (configured_instances ollama_base_url ollama_instances))
    as Heq.
  { unfold initialize. rewrite add_numbered_instances by done. done. }
  split; [done|]. split.
  - rewrite Heq, length_imap. unfold configured_instances.
    case_bool_decide; [done|]. by rewrite length_fmap, length_list_ascii.
  - intros Hne. unfold configured_instances. by case_bool_decide.
Qed.

(** With the setting as the class declares it, twenty-two backends. *)
Example initialize_default :
  length (instances (initialize "http://localhost:11434"
                       "http://localhost:11434" (init ROUND_ROBIN)))
  = 22%nat
  ∧ (url <$> dict_values
              (take 5 (instances (initialize "http://localhost:11434"
                                    "http://localhost:11434"
                                    (init ROUND_ROBIN)))))
    = ["h"; "t"; "t"; "p"; ":"].
Proof. split; vm_compute; reflexivity. Qed.
End weighted_and_initialize.

(** ** The cache: what is stored is what is read *)

Section cache_facts.
Import Cache.

Lemma append_inj_r (p a b : string) : p +:+ a = p +:+ b → a = b.
Proof.
  induction p as [|c p IH]; simpl; [done|]. intros [= H]. by apply IH.
Qed.

Lemma has_client_redis cs : has_client cs = true → ∃ c, redis cs = Some c.
Proof. unfold has_client. destruct (redis cs) as [c|]; [by exists c | done]. Qed.

(** X12: with a client and the server reachable, [set] with a time to live
    above 0 returns true and counts no error; the next [get] of the key is
    a hit that returns the value stored; the entry carries the time to live
    given, or [CACHE_TTL] when none or 0 was given; the other keys read as
    before. *)
Theorem set_then_get (st : Settings) (key : string) (value : json)
  (ttl : option Z) (srv : RedisServer) (cs : CacheService) :
  has_client cs = true → reachable srv = true → 0 < effective_ttl st ttl →
  ∃ srv',
    set st key value ttl srv cs = (cs, srv', inr true)
    ∧ get key srv' cs = (count_hit cs, inr (Some value))
    ∧ store srv' !! (prefix cs +:+ key) = Some (value, effective_ttl st ttl)
    ∧ ∀ key', key' ≠ key → get key' srv' cs = get key' srv cs.
Proof.
  intros [c Hc]%has_client_redis Hup Httl.
  exists {| reachable := true;
            store := <[prefix cs +:+ key := (value, effective_ttl st ttl)]>
                       (store srv) |}.
  unfold set, get, redis_setex, redis_get. rewrite Hc, Hup.
  fold (effective_ttl st ttl). rewrite bool_decide_eq_true_2 by done.
  cbn [reachable store]. rewrite lookup_insert_eq. csimpl.
  split; [done|]. split; [done|]. split; [done|].
  intros key' Hne. rewrite lookup_insert_ne; [done|].
  intros Heq%append_inj_r. congruence.
Qed.

Lemma set_then_get_witness :
  ∃ srv',
    set default_settings "k1" (JString "print(1)") None
      {| reachable := true; store := ∅ |} connected
    = (connected, srv', inr true)
    ∧ get "k1" srv' connected
      = (count_hit connected, inr (Some (JString "print(1)"))).
Proof.
  destruct (set_then_get default_settings "k1" (JString "print(1)") None
              {| reachable := true; store := ∅ |} connected
              eq_refl eq_refl eq_refl) as (srv' & Hset & Hget & _).
  exists srv'. split; [exact Hset | exact Hget].
Defined.

(** X13: with a client and the server reachable, [delete] returns true
    whether or not the key was stored, the next [get] of the key is a miss,
    and the other keys read as before.  With the server unreachable it
    returns false and, unlike [get] and [set], counts no error. *)
Theorem delete_then_get (key : string) (srv : RedisServer)
  (cs : CacheService) :
  has_client cs = true →
  (reachable srv = true →
   ∃ srv',
     delete key srv cs = (cs, srv', inr true)
     ∧ get key srv' cs = (count_miss cs, inr None)
     ∧ ∀ key', key' ≠ key → get key' srv' cs = get key' srv cs)
  ∧ (reachable srv = false →
     delete key srv cs = (cs, srv, inr false)
     ∧ errors (delete key srv cs).1.1 = errors cs).
Proof.
  intros [c Hc]%has_client_redis. split; intros Hup.
  - exists {| reachable := true;
              store := base.delete (prefix cs +:+ key) (store srv) |}.
    unfold delete, get, redis_delete, redis_get. rewrite Hc, Hup.
    cbn [reachable store]. rewrite lookup_delete_eq. csimpl.
    split; [done|]. split; [done|].
    intros key' Hne. rewrite lookup_delete_ne; [done|].
    intros Heq%append_inj_r. congruence.
  - unfold delete, redis_delete. by rewrite Hc, Hup.
Qed.

Lemma delete_then_get_witness :
  delete "k1" server_down connected = (connected, server_down, inr false)
  ∧ errors (delete "k1" server_down connected).1.1 = errors connected.
Proof.
  exact (proj2 (delete_then_get "k1" server_down connected eq_refl) eq_refl).
Defined.
End cache_facts.

(** ** The rate limiter over a history of requests *)

Section limiter_facts.
Import RateLimit.
Implicit Types (mw : RateLimitMiddleware) (req : Request).

Lemma dispatch_counts_positive st req t mw :
  counts_positive mw → counts_positive (dispatch st req t mw).1.
Proof.
  intros Hpos. unfold dispatch. case_bool_decide; [done|].
  destruct (rate_limits mw !! client_ip req) as [[n0 w0]|] eqn:Hb; simpl.
  - pose proof (Hpos _ _ _ Hb) as Hn0.
    destruct (Qlt_le_dec 60 (t - w0)); case_bool_decide; simpl; try done;
      intros ip n w; simpl;
      (destruct (decide (ip = client_ip req)) as [->|Hne];
       [rewrite lookup_insert_eq; intros [= <- _]; lia
       |rewrite lookup_insert_ne by done; apply Hpos]).
  - destruct (Qlt_le_dec 60 (t - t)); case_bool_decide; simpl; try done;
      intros ip n w; simpl;
      (destruct (decide (ip = client_ip req)) as [->|Hne];
       [rewrite lookup_insert_eq; intros [= <- _]; lia
       |rewrite lookup_insert_ne by done; apply Hpos]).
Qed.

Lemma dispatch_outcome_ok st req t mw :
  counts_positive mw → outcome_ok st (req, t) (dispatch st req t mw).2.
Proof.
  intros Hpos. unfold outcome_ok, dispatch. cbn [fst].
  case_bool_decide as HL; [done|].
  destruct (rate_limits mw !! client_ip req) as [[n0 w0]|] eqn:Hb; simpl.
  - pose proof (Hpos _ _ _ Hb) as Hn0.
    destruct (Qlt_le_dec 60 (t - w0)); case_bool_decide; simpl;
      [by left | right; eexists _, _; split; [done | lia]
      | by left | right; eexists _, _; split; [done | lia]].
  - destruct (Qlt_le_dec 60 (t - t)); case_bool_decide; simpl;
      [by left | right; eexists _, _; split; [done | lia]
      | by left | right; eexists _, _; split; [done | lia]].
Qed.

Lemma dispatch_all_outcomes st reqs mw :
  counts_positive mw →
  Forall2 (outcome_ok st) reqs (dispatch_all st reqs mw).2.
Proof.
  revert mw. induction reqs as [|[req t] reqs IH]; intros mw Hpos; simpl;
    [constructor|].
  pose proof (dispatch_outcome_ok st req t mw Hpos) as Ho.
  pose proof (dispatch_counts_positive st req t mw Hpos) as Hpos1.
  destruct (dispatch st req t mw) as [mw1 o]. simpl in Ho, Hpos1.
  specialize (IH mw1 Hpos1). destruct (dispatch_all st reqs mw1) as [mw2 os].
  simpl in *. by constructor.
Qed.

(** X14: over any history of requests, from a middleware that has seen
    none: a request to an endpoint without limit is passed on without
    rate-limit headers; a request to a limited endpoint gets 429 with
    "Rate limit exceeded", or is passed on with [X-RateLimit-Limit] the
    limit of its endpoint and [X-RateLimit-Remaining] at least 0 and below
    that limit. *)
Theorem limiter_outcomes (st : Settings) (reqs : list (Request * Q)) :
  Forall2 (outcome_ok st) reqs (dispatch_all st reqs new).2.
Proof. apply dispatch_all_outcomes. intros ip n w. by simpl. Qed.





(** X16: requests to endpoints without limit do not touch the buckets:
    with them left out of a history, the buckets at its end are the same. *)
Theorem unlimited_requests_invisible (st : Settings)
  (reqs : list (Request * Q)) (mw : RateLimitMiddleware) :
  (dispatch_all st (filter (limited st) reqs) mw).1
  = (dispatch_all st reqs mw).1.
Proof.
  revert mw. induction reqs as [|[req t] reqs IH]; intros mw; [done|].
  rewrite filter_cons. unfold limited at 1. cbn [fst].
  destruct (decide (_get_endpoint_limit st (path req) ≠ 0)) as [HL|HL].
  - simpl. destruct (dispatch st req t mw) as [mw1 o].
    specialize (IH mw1).
    destruct (dispatch_all st (filter _ _) mw1),
             (dispatch_all st reqs mw1). simpl in *. done.
  - assert (_get_endpoint_limit st (path req) = 0) as H0.
    { destruct (decide (_get_endpoint_limit st (path req) = 0)); [done|].
      by destruct HL. }
    simpl. unfold dispatch. rewrite bool_decide_eq_true_2 by done.
    specialize (IH mw).
    destruct (dispatch_all st (filter _ _) mw),
             (dispatch_all st reqs mw). simpl in *. done.
Qed.

Lemma prefix_app (n b : string) : String.prefix n (n +:+ b) = true.
Proof.
  induction n as [|c n IH]; simpl; [by destruct b|].
  by destruct (ascii_dec c c).
Qed.

Lemma prefix_split (n h : string) :
  String.prefix n h = true → ∃ b, h = n +:+ b.
Proof.
  revert h. induction n as [|c n IH]; intros h; simpl.
  - intros _. by exists h.
  - destruct h as [|c' h]; simpl; [done|].
    destruct (ascii_dec c c') as [->|]; [|done].
    intros [b ->]%IH. by exists b.
Qed.

(** [needle in hay] holds exactly when [hay] is some text, [needle], some
    text. *)
Lemma contains_spec (n h : string) :
  contains n h = true ↔ ∃ a b, h = a +:+ n +:+ b.
Proof.
  split.
  - induction h as [|c h IH]; cbn [contains].
    + destruct (String.prefix n EmptyString) eqn:Hp; [|done].
      intros _. apply prefix_split in Hp as [b Hb].
      exists EmptyString, b. exact Hb.
    + destruct (String.prefix n (String c h)) eqn:Hp.
      * intros _. apply prefix_split in Hp as [b Hb].
        exists EmptyString, b. exact Hb.
      * intros (a & b & ->)%IH. by exists (String c a), b.
  - intros (a & b & ->). induction a as [|c a IH].
    + change (EmptyString +:+ n +:+ b) with (n +:+ b).
      destruct (n +:+ b) eqn:Hnb; cbn [contains];
        by rewrite <- Hnb, prefix_app.
    + change (String c a +:+ n +:+ b) with (String c (a +:+ n +:+ b)).
      cbn [contains].
      destruct (String.prefix n (String c (a +:+ n +:+ b))); [done|].
      exact IH.
Qed.

(** X17: the limit of an endpoint follows from the texts its path
    contains, wherever they stand: a path with "/api/chat" in it has the
    limit [RATE_LIMIT_PER_MINUTE], whatever else it holds; a path without
    it and with "/api/finetune" has the limit 10; and a path that has a
    limit holds one of "/api/chat", "/api/finetune", "/api/models". *)
Theorem endpoint_limit_by_substring (st : Settings) (a b : string) :
  _get_endpoint_limit st (a +:+ "/api/chat" +:+ b) = RATE_LIMIT_PER_MINUTE st
  ∧ ((¬ ∃ a' b', a +:+ "/api/finetune" +:+ b = a' +:+ "/api/chat" +:+ b') →
     _get_endpoint_limit st (a +:+ "/api/finetune" +:+ b) = 10)
  ∧ ∀ p, _get_endpoint_limit st p ≠ 0 →
      ∃ a' b' word,
        word ∈ ["/api/chat"; "/api/finetune"; "/api/models"]
        ∧ p = a' +:+ word +:+ b'.
Proof.
  split; [|split].
  - unfold _get_endpoint_limit.
    by rewrite (proj2 (contains_spec "/api/chat" _))
      by (by exists a, b).
  - intros Hno. unfold _get_endpoint_limit.
    destruct (contains "/api/chat" _) eqn:Hc.
    { apply contains_spec in Hc. by destruct Hno. }
    by rewrite (proj2 (contains_spec "/api/finetune" _))
      by (by exists a, b).
  - intros p. unfold _get_endpoint_limit.
    destruct (contains "/api/chat" p) eqn:Hc.
    { intros _. apply contains_spec in Hc as (a' & b' & ->).
      exists a', b', "/api/chat". split; [set_solver | done]. }
    destruct (contains "/api/finetune" p) eqn:Hf.
    { intros _. apply contains_spec in Hf as (a' & b' & ->).
      exists a', b', "/api/finetune". split; [set_solver | done]. }
    destruct (contains "/api/models" p) eqn:Hm; [|done].
    intros _. apply contains_spec in Hm as (a' & b' & ->).
    exists a', b', "/api/models". split; [set_solver | done].
Qed.

Lemma endpoint_limit_by_substring_witness :
  _get_endpoint_limit default_settings "/v2/api/finetune/jobs" = 10.
Proof.
  refine (proj1 (proj2 (endpoint_limit_by_substring default_settings
                          "/v2" "/jobs")) _).
  intros (a' & b' & H).
  assert (contains "/api/chat" ("/v2" +:+ "/api/finetune" +:+ "/jobs") = true)
    as Hc by (apply contains_spec; by exists a', b').
  vm_compute in Hc. discriminate Hc.
Defined.
End limiter_facts.

(** ** The chat handler: status, code blocks, events *)

Section chat_text_facts.
Import Main.













Lemma extract_line_bound (s : Extraction) l :
  (2 * length (code_blocks_acc (extract_line s l))
   + (if in_code_block (extract_line s l) then 1 else 0)
   ≤ 2 * length (code_blocks_acc s) + (if in_code_block s then 1 else 0)
     + (if is_fence_line l then 1 else 0))%nat.
Proof.
  unfold extract_line, is_fence_line.
  destruct (String.prefix fence (strip l));
    destruct (in_code_block s) eqn:Hin; cbn [code_blocks_acc in_code_block];
    rewrite ?Hin; try lia.
  destruct (current_code s); rewrite ?length_app; cbn [length]; lia.
Qed.

Lemma extract_fold_bound ls : ∀ s : Extraction,
  (2 * length (code_blocks_acc (foldl extract_line s ls))
   + (if in_code_block (foldl extract_line s ls) then 1 else 0)
   ≤ 2 * length (code_blocks_acc s) + (if in_code_block s then 1 else 0)
     + length (filter (fun l => is_fence_line l = true) ls))%nat.
Proof.
  induction ls as [|l ls IH]; intros s; [simpl; lia|].
  cbn [foldl]. rewrite filter_cons. specialize (IH (extract_line s l)).
  pose proof (extract_line_bound s l) as Hstep.
  destruct (is_fence_line l).
  - rewrite decide_True by done. cbn [length]. lia.
  - rewrite decide_False by done. lia.
Qed.

(** X20: a code block takes two fence lines: twice the number of blocks
    extracted from an answer is at most the number of its lines that start
    with a fence after stripping.  So an answer without such a line has no
    code block, and a block whose closing fence is missing is dropped. *)
Theorem blocks_need_two_fences (full_response : string) :
  (2 * length (extract_code_blocks full_response)
   ≤ fence_lines full_response)%nat.
Proof.
  unfold extract_code_blocks, fence_lines.
  pose proof (extract_fold_bound (split_newline full_response)
                {| code_blocks_acc := []; in_code_block := false;
                   current_code := []; current_language := EmptyString |})
    as H.
  cbn [code_blocks_acc in_code_block length] in H.
  destruct (in_code_block _); lia.
Qed.

Lemma sse_events_done_free lines :
  existsb is_done_line lines = false → SseDone ∉ sse_events lines.
Proof.
  induction lines as [|l lines IH]; cbn [existsb sse_events].
  - intros _. apply not_elem_of_nil.
  - intros [Hl Hrest]%orb_false_iff. specialize (IH Hrest).
    destruct l as [[| | | | | |fields]| |]; try done.
    cbn [is_done_line] in Hl. rewrite Hl.
    destruct (dict_get "response" fields); [|done].
    cbn [app]. intros [Hc|Hin]%elem_of_cons; [done | by apply IH].
Qed.

Lemma sse_events_done_cut pre d post :
  existsb is_done_line pre = false → is_done_line d = true →
  sse_events (pre ++ d :: post) = sse_events (pre ++ [d]).
Proof.
  intros Hpre Hd. induction pre as [|l pre IH].
  - destruct d as [[| | | | | |fields]| |]; try done.
    cbn [is_done_line] in Hd. cbn [app sse_events]. by rewrite Hd.
  - cbn [existsb] in Hpre. apply orb_false_iff in Hpre as [Hl Hrest].
    specialize (IH Hrest). cbn [app sse_events].
    destruct l as [[| | | | | |fields]| |]; try done.
    cbn [is_done_line] in Hl. by rewrite Hl, IH.
Qed.

Lemma sse_events_done_snoc pre d post :
  existsb is_done_line pre = false → is_done_line d = true →
  ∃ evs, sse_events (pre ++ d :: post) = evs ++ [SseDone] ∧ SseDone ∉ evs.
Proof.
  intros Hpre Hd. induction pre as [|l pre IH].
  - destruct d as [[| | | | | |fields]| |]; try done.
    cbn [is_done_line] in Hd. cbn [app sse_events]. rewrite Hd.
    eexists. split; [done|]. destruct (dict_get "response" fields).
    + intros [Hc|Hin]%elem_of_cons; [done | by apply not_elem_of_nil in Hin].
    + apply not_elem_of_nil.
  - cbn [existsb] in Hpre. apply orb_false_iff in Hpre as [Hl Hrest].
    destruct (IH Hrest) as (evs & Hevs & Hno). cbn [app sse_events].
    destruct l as [[| | | | | |fields]| |]; try by exists evs.
    cbn [is_done_line] in Hl. rewrite Hl, Hevs.
    destruct (dict_get "response" fields) as [c|]; [|by exists evs].
    exists (SseChunk c :: evs). split; [done|].
    intros [Hc|Hin]%elem_of_cons; [done | by apply Hno].
Qed.

(** X21: the event stream of the streaming branch stops at the first line
    of the backend that is an object with a true [done]: the lines after
    it are not read, and the done event is sent once, as the last event.
    As long as no such line has come, no done event is sent. *)
Theorem sse_stops_at_done (pre post : list Line) (d : Line) :
  existsb is_done_line pre = false →
  (SseDone ∉ sse_events pre)
  ∧ (is_done_line d = true →
     sse_events (pre ++ d :: post) = sse_events (pre ++ [d])
     ∧ ∃ evs, sse_events (pre ++ d :: post) = evs ++ [SseDone]
              ∧ SseDone ∉ evs).
Proof.
  intros Hpre. split; [by apply sse_events_done_free|].
  intros Hd. split; [by apply sse_events_done_cut|].
  by apply sse_events_done_snoc.
Qed.

Lemma sse_stops_at_done_witness :
  sse_events (body ndjson_frames ++ [Garbage "late"])
  = sse_events (body ndjson_frames).
Proof.
  exact (proj1 (proj2 (sse_stops_at_done
    [Frame (JObject [("response", JString "print")]);
     Frame (JObject [("response",
                      JString ("(" +:+ dquote +:+ "hi" +:+ dquote +:+ ")"))])]
    [Garbage "late"]
    (Frame (JObject [("done", JBool true); ("total_tokens", JInt 3)]))
    eq_refl) eq_refl)).
Defined.
End chat_text_facts.

(** ** The list settings *)

Section setting_facts.
Import Main Config.





Lemma split_char_no_sep sep s :
  Forall (fun l => has_char sep l = false) (split_char sep s).
Proof.
  induction s as [|c s IH]; simpl; [by repeat constructor|].
  destruct (decide (c = sep)) as [->|Hc]; [by constructor|].
  destruct (split_char sep s) as [|l ls]; simpl.
  - repeat constructor. simpl. by rewrite bool_decide_eq_false_2.
  - apply Forall_cons in IH as [Hl Hls]. constructor; [|done].
    simpl. by rewrite bool_decide_eq_false_2.
Qed.

Lemma lstrip_no_char c s : has_char c s = false → has_char c (lstrip s) = false.
Proof.
  induction s as [|a s IH]; simpl; [done|].
  intros [Ha Hs]%orb_false_iff. destruct (is_space a); [by apply IH|].
  simpl. by rewrite Ha, Hs.
Qed.

Lemma rstrip_no_char c s : has_char c s = false → has_char c (rstrip s) = false.
Proof.
  induction s as [|a s IH]; simpl; [done|].
  intros [Ha Hs]%orb_false_iff. specialize (IH Hs).
  destruct (rstrip s) as [|b r].
  - destruct (is_space a); simpl; [done | by rewrite Ha].
  - cbn [has_char]. cbn [has_char] in IH. by rewrite Ha, IH.
Qed.

Lemma lstrip_head s :
  lstrip s = EmptyString
  ∨ ∃ c r, lstrip s = String c r ∧ is_space c = false.
Proof.
  induction s as [|a s IH]; simpl; [by left|].
  destruct (is_space a) eqn:Ha; [done|]. right. by exists a, s.
Qed.

Lemma rstrip_idem s : rstrip (rstrip s) = rstrip s.
Proof.
  induction s as [|a s IH]; [done|]. cbn [rstrip].
  destruct (rstrip s) as [|b r] eqn:Hr.
  - destruct (is_space a) eqn:Ha; [done|]. cbn [rstrip]. by rewrite Ha.
  - cbn [rstrip]. cbn [rstrip] in IH. by rewrite IH.
Qed.

Lemma rstrip_head a s :
  rstrip (String a s) = EmptyString ∨ ∃ r, rstrip (String a s) = String a r.
Proof.
  cbn [rstrip]. destruct (rstrip s) as [|b r].
  - destruct (is_space a); [by left | right; by eexists].
  - right. by eexists.
Qed.

Lemma strip_idem s : strip (strip s) = strip s.
Proof.
  unfold strip. destruct (lstrip_head s) as [->|(c & r & -> & Hc)]; [done|].
  destruct (rstrip_head c r) as [->|[r' Hr]]; [done|].
  rewrite Hr. cbn [lstrip]. rewrite Hc, <- Hr. apply rstrip_idem.
Qed.

Lemma stripped_items_clean (s : string) :
  Forall clean_item (stripped_items s).
Proof.
  unfold stripped_items. apply Forall_forall. intros x Hx.
  apply list_elem_of_filter in Hx as [Hne Hx].
  apply list_elem_of_fmap in Hx as (l & -> & Hl).
  split; [done|]. split; [apply strip_idem|].
  pose proof (split_char_no_sep comma s) as Hall.
  rewrite Forall_forall in Hall. specialize (Hall l Hl).
  unfold strip. by apply rstrip_no_char, lstrip_no_char.
Qed.

(** X23: whatever the text of the setting, every item that
    [get_cors_origins] returns is clean: not empty, without blanks at its
    ends and without comma; the same holds for [get_ollama_instances] when
    the setting is not empty (for an empty one it returns
    [OLLAMA_BASE_URL] as it is). *)
Theorem list_setting_items_clean (st : Settings) (s : string) :
  Forall clean_item (get_cors_origins s)
  ∧ (s ≠ EmptyString → Forall clean_item (get_ollama_instances st s)).
Proof.
  unfold get_cors_origins, get_ollama_instances. split.
  - case_bool_decide; [|apply stripped_items_clean].
    repeat constructor; vm_compute; congruence.
  - intros Hne. rewrite bool_decide_eq_false_2 by done.
    apply stripped_items_clean.
Qed.
End setting_facts.

(** ** What a call of [generate] leaves behind *)

Section generate_outcomes.
Import LLM.
Context (st : Settings) (sha256_hex : string → string)
  (dumps_kwargs : Q → Z → string).

Abbreviation step_task' := (step_task st sha256_hex dumps_kwargs).
Abbreviation tick' := (tick st sha256_hex dumps_kwargs).
Abbreviation run' := (run st sha256_hex dumps_kwargs).

Lemma on_reply_raises now reply req inst t0 w :
  ∃ e, on_reply st sha256_hex dumps_kwargs now reply req inst t0 w
       = (w, inl e).
Proof.
  unfold on_reply, bind, attr_id, raise.
  destruct reply as [e|response]; [by eexists|].
  destruct (raise_for_status response); [by eexists|].
  destruct (response_json response) as [e|data]; [by eexists|].
  destruct (json_get _ _ data); by eexists.
Qed.

(** Whatever the backend replies, the call ends in the handler of its
    [except] clause, at [instance.id]. *)
Lemma step_reply_spec now reply req inst t0 w :
  step_reply st sha256_hex dumps_kwargs now reply req inst t0 w
  = ({| cache_service := cache_service w; redis_server := redis_server w;
        load_balancer := load_balancer w; stats := bump_errors (stats w);
        upstream_log := upstream_log w |},
     Finished true [] (Some no_id)).
Proof.
  unfold step_reply.
  destruct (on_reply_raises now reply req inst t0 w) as [e ->].
  reflexivity.
Qed.

Lemma step_task_outcome k t w :
  ends_without_answer t →
  ends_without_answer (step_task' k t w).2
  ∧ redis_server (step_task' k t w).1 = redis_server w
  ∧ total_tokens (stats (step_task' k t w).1) = total_tokens (stats w).
Proof.
  intros Ht. destruct t as [req|req|req inst t0|d ys r]; cbn [step_task].
  - unfold step_start. destruct (cache req); [|done].
    destruct (Cache.get _ _ _) as [cs [e|[cached|]]]; [done| |done].
    by destruct (truthy cached).
  - unfold step_dispatch.
    by destruct (LB.get_instance _ _ _) as [lb [e|inst]].
  - by rewrite step_reply_spec.
  - done.
Qed.

Lemma run_outcome w tasks ks :
  Forall ends_without_answer tasks →
  Forall ends_without_answer (run' w tasks ks).2
  ∧ redis_server (run' w tasks ks).1 = redis_server w
  ∧ total_tokens (stats (run' w tasks ks).1) = total_tokens (stats w).
Proof.
  unfold LLM.run. revert w tasks.
  induction ks as [|k ks IH]; intros w tasks Hall; [done|].
  cbn [foldl]. unfold LLM.tick at 2 4 6. cbn [fst snd].
  destruct (tasks !! task_index k) as [t|] eqn:Ht; [|by apply IH].
  pose proof (step_task_outcome k t w
                (proj1 (Forall_lookup _ _) Hall _ _ Ht)) as (Ht' & Hsrv & Htok).
  destruct (step_task' k t w) as [w' t']. cbn [fst snd] in *.
  destruct (IH w' (<[task_index k := t']> tasks)) as (H1 & H2 & H3).
  { by apply Forall_insert. }
  split; [done|]. split; congruence.
Qed.

(** X24: no call of [generate] without streaming delivers an answer of a
    backend.  Whatever the backends reply and in whatever order the calls
    are resumed, a call that has sent its POST ends by raising the
    [AttributeError] of [instance.id], having yielded nothing; the cache
    server is never written to and the token count stays as it was. *)
Theorem generate_never_delivers (reqs : list GenerateRequest) (w : World)
  (ks : list Tick) :
  Forall ends_without_answer (run' w (Start <$> reqs) ks).2
  ∧ redis_server (run' w (Start <$> reqs) ks).1 = redis_server w
  ∧ total_tokens (stats (run' w (Start <$> reqs) ks).1)
    = total_tokens (stats w).
Proof.
  apply run_outcome. apply Forall_fmap, Forall_forall. by intros req _.
Qed.

Lemma sum_dict_set (f : LB.InstanceMetrics → Z) k v old
  (d : list (string * LB.InstanceMetrics)) :
  dict_get k d = Some old →
  foldr Z.add 0 (f <$> dict_values (dict_set k v d))
  = foldr Z.add 0 (f <$> dict_values d) - f old + f v.
Proof.
  unfold dict_values. induction d as [|[k' v'] d IH]; [done|].
  cbn [dict_get dict_set].
  destruct (decide (k = k')) as [->|Hne].
  - intros [= ->]. csimpl. lia.
  - intros Hget. csimpl. rewrite IH by done. lia.
Qed.

Lemma get_instance_active now r lb :
  wf lb → mirrored lb →
  total_active (LB.get_instance now r lb).1
  = total_active lb
    + (if is_raised (LB.get_instance now r lb).2 then 0 else 1).
Proof.
  intros Hwf Hm. unfold total_active.
  destruct (get_instance_cases now r lb)
    as [[_ H]|[[_ (c & e & _ & H)]|[[_ (c & inst & Hsel & Hnone & H)]
       |[_ (c & inst & n & Hsel & _ & H)]]]];
    rewrite H; cbn [fst snd is_raised LB.instances bumped
                    LB.set_current_index].
  - lia.
  - lia.
  - pose proof (select_registered r lb c inst Hwf Hsel) as Hget.
    destruct (mirrored_counted lb Hm (LB.instance_id inst)) as [n Hn];
      [by eexists|]. congruence.
  - pose proof (select_registered r lb c inst Hwf Hsel) as Hget.
    rewrite (sum_dict_set _ _ _ inst) by done. cbn. lia.
Qed.

Lemma step_task_active k t w :
  wf (load_balancer w) → mirrored (load_balancer w) →
  wf (load_balancer (step_task' k t w).1)
  ∧ mirrored (load_balancer (step_task' k t w).1)
  ∧ total_active (load_balancer (step_task' k t w).1)
    + Z.of_nat (posts_of t)
    = total_active (load_balancer w)
      + Z.of_nat (posts_of (step_task' k t w).2).
Proof.
  intros Hwf Hm. destruct t as [req|req|req inst t0|d ys r]; cbn [step_task].
  - unfold step_start. destruct (cache req); [|done].
    destruct (Cache.get _ _ _) as [cs [e|[cached|]]]; [done| |done].
    by destruct (truthy cached).
  - unfold step_dispatch.
    pose proof (wf_apply_call _ (LB.CallGet (tick_now k) (tick_rng k)) Hwf)
      as Hwf'.
    pose proof (apply_call_mirrored _ (LB.CallGet (tick_now k) (tick_rng k))
                  Hwf Hm) as Hm'.
    pose proof (get_instance_active (tick_now k) (tick_rng k) _ Hwf Hm)
      as Hact.
    cbn [LB.apply_call] in Hwf', Hm'.
    destruct (LB.get_instance _ _ _) as [lb [e|inst]];
      cbn [fst snd is_raised load_balancer posts_of] in *;
      (split; [done|]); (split; [done|]); lia.
  - rewrite step_reply_spec. cbn [fst snd load_balancer posts_of].
    split; [done|]. split; [done|]. lia.
  - done.
Qed.

Lemma run_active w tasks ks :
  wf (load_balancer w) → mirrored (load_balancer w) →
  total_active (load_balancer (run' w tasks ks).1)
  + Z.of_nat (posts_sent tasks)
  = total_active (load_balancer w)
    + Z.of_nat (posts_sent (run' w tasks ks).2).
Proof.
  unfold LLM.run. revert w tasks.
  induction ks as [|k ks IH]; intros w tasks Hwf Hm; [done|].
  cbn [foldl]. unfold LLM.tick at 2 4. cbn [fst snd].
  destruct (tasks !! task_index k) as [t|] eqn:Ht; [|by apply IH].
  pose proof (step_task_active k t w Hwf Hm) as (Hwf' & Hm' & Hact).
  destruct (step_task' k t w) as [w' t']. cbn [fst snd] in *.
  pose proof (posts_sent_insert tasks (task_index k) t t' Ht) as Hins.
  specialize (IH w' (<[task_index k := t']> tasks) Hwf' Hm'). lia.
Qed.

(** X25: [generate] never gives back the connection it reserves.  With a
    registry in which every id is stored once and has its counter, after
    any run of calls without streaming the active connections summed over
    the backends have grown by exactly the number of POSTs the calls have
    sent: neither [update_metrics] nor [release_instance] is reached. *)
Theorem connections_stay_reserved (reqs : list GenerateRequest) (w : World)
  (ks : list Tick) :
  wf (load_balancer w) → mirrored (load_balancer w) →
  total_active (load_balancer (run' w (Start <$> reqs) ks).1)
  = total_active (load_balancer w)
    + Z.of_nat (posts_sent (run' w (Start <$> reqs) ks).2)
  ∧ Z.of_nat (length (upstream_log (run' w (Start <$> reqs) ks).1))
    = Z.of_nat (length (upstream_log w))
      + Z.of_nat (posts_sent (run' w (Start <$> reqs) ks).2).
Proof.
  intros Hwf Hm.
  pose proof (run_active w (Start <$> reqs) ks Hwf Hm) as Hact.
  destruct (run_posts st sha256_hex dumps_kwargs w (Start <$> reqs) ks)
    as [Hposts _].
  assert (posts_sent (Start <$> reqs) = 0%nat) as H0.
  { unfold posts_sent. clear. by induction reqs as [|r rs IH]. }
  rewrite H0 in Hact, Hposts. split; lia.
Qed.
End generate_outcomes.

Section stream_outcomes.
Import LLM ChatRoute.

Lemma one_backend_shape : wf one_backend ∧ mirrored one_backend.
Proof.
  apply (run_calls_shape (LB.init LB.ROUND_ROBIN)
           [LB.CallAdd "ollama-1" "http://localhost:11434/" 1%Q]).
  - split; [constructor | done].
  - by split.
Qed.

Lemma connections_stay_reserved_witness :
  total_active
    (load_balancer
       (run default_settings plain_key plain_kwargs quiet_world
          (Start <$> [hello; hello]) interleaved).1)
  = total_active (load_balancer quiet_world)
    + Z.of_nat (posts_sent
                  (run default_settings plain_key plain_kwargs quiet_world
                     (Start <$> [hello; hello]) interleaved).2).
Proof.
  exact (proj1 (connections_stay_reserved default_settings plain_key
                  plain_kwargs [hello; hello] quiet_world interleaved
                  (proj1 one_backend_shape) (proj2 one_backend_shape))).
Defined.

Lemma stream_body_done inst lines :
  existsb is_done_line lines = true →
  ∃ e, (stream_body inst lines).2 = Failed e.
Proof.
  induction lines as [|l lines IH]; [done|]. cbn [existsb].
  destruct l as [v| |text]; cbn [is_done_line orb stream_body]; [|done..].
  destruct v as [| | | |text|items|fields]; try (by intros _; eexists).
  - intros _. destruct (RateLimit.contains "response" text); by eexists.
  - intros _. destruct (existsb _ items); by eexists.
  - cbn [is_done_line].
    destruct (truthy (default (JBool false) (dict_get "done" fields)))
      eqn:Hdone; cbn [orb].
    + intros _. unfold attr_id, raise.
      destruct (dict_get "response" fields) as [[]|]; by eexists.
    + intros Hrest. destruct (IH Hrest) as [e He].
      destruct (dict_get "response" fields) as [[]|];
        try (by eexists); try (by exists e).
      destruct (stream_body inst lines) as [chunks e']. by exists e.
Qed.

(** X26: a stream that the backend brings to its end never ends well for
    the client of [chat_stream].  When a backend was reserved, the reply
    has a 2xx status and one of its lines is an object with a true
    [done], the events are the chunks read up to there followed by an
    error event with the text of the [AttributeError] of [instance.id],
    not by the done event; the error is counted, the POST was sent, and
    the load balancer is left as [get_instance] left it, the connection
    still reserved. *)
Theorem completed_stream_ends_in_error (st : Settings) (now : Q)
  (r : LB.Rng) (response : HttpResponse) (req : StreamRequest) (w : World)
  (lb : LB.LoadBalancer) (inst : LB.InstanceMetrics) :
  LB.get_instance now r (load_balancer w) = (lb, inr inst) →
  200 <= status_code response < 300 →
  existsb is_done_line (body response) = true →
  (event_generator st now r (inr response) req w).2
  = (ChunkFrame <$> (stream_body inst (body response)).1)
    ++ [ErrorFrame "'InstanceMetrics' object has no attribute 'id'"]
  ∧ load_balancer (event_generator st now r (inr response) req w).1 = lb
  ∧ errors (stats (event_generator st now r (inr response) req w).1)
    = errors (stats w) + 1
  ∧ upstream_log (event_generator st now r (inr response) req w).1
    = upstream_log w
      ++ [(LB.url inst +:+ "/api/generate",
           stream_payload_of st (to_generate req))].
Proof.
  intros Hget Hstatus Hdone.
  unfold event_generator, generate_stream, stream_try, raise_for_status.
  rewrite Hget, bool_decide_eq_true_2 by done. cbn [ret].
  destruct (stream_body_done inst _ Hdone) as [e He].
  destruct (stream_body inst (body response)) as [chunks end_].
  cbn [fst snd] in *. subst end_. by unfold attr_id, raise.
Qed.

Lemma completed_stream_ends_in_error_witness :
  (event_generator default_settings 1%Q (LB.mkRng 0 0%Q)
     (inr ndjson_frames)
     {| message := "hi"; model_name := None; temperature := None;
        max_tokens := None |} quiet_world).2
  = [ChunkFrame "print";
     ChunkFrame ("(" +:+ Main.dquote +:+ "hi" +:+ Main.dquote +:+ ")");
     ErrorFrame "'InstanceMetrics' object has no attribute 'id'"].
Proof.
  exact (proj1 (completed_stream_ends_in_error default_settings 1%Q
                  (LB.mkRng 0 0%Q) ndjson_frames
                  {| message := "hi"; model_name := None;
                     temperature := None; max_tokens := None |}
                  quiet_world _ _ eq_refl ltac:(simpl; lia) eq_refl)).
Defined.
End stream_outcomes.

(** ** The statistics of the load balancer *)

Section statistics_facts.
Import LB.
Implicit Types (lb : LoadBalancer) (d : list (string * Z)).










End statistics_facts.

(** ** Listing and pulling models *)

Section models_facts.
Import LLM.

Lemma id_of_raises inst : ∃ m, id_of inst = inl (AttributeError m).
Proof. destruct inst; by eexists. Qed.

Lemma tag_models_empty inst infos :
  (tag_models inst infos []).1 = [].
Proof.
  destruct infos as [|info rest]; [done|]. cbn [tag_models].
  destruct (id_of_raises inst) as [m ->]. done.
Qed.

Lemma models_of_instance_empty backend inst :
  (models_of_instance backend inst []).1 = [].
Proof.
  unfold models_of_instance.
  destruct (bind (url_of inst) _) as [e|response]; [done|].
  case_bool_decide; [|done].
  destruct (bind (response_json response) _) as [e|infos]; [done|].
  apply tag_models_empty.
Qed.

Lemma models_loop_empty backend insts :
  match models_loop backend insts [] with
  | inr models => models = []
  | inl e => is_attribute_error e
  end.
Proof.
  induction insts as [|inst insts IH]; [done|]. cbn [models_loop].
  pose proof (models_of_instance_empty backend inst) as Hm.
  destruct (models_of_instance backend inst []) as [models1 [e|]];
    cbn [fst] in Hm; subst models1.
  - destruct (id_of_raises inst) as [m ->]. by exists m.
  - exact IH.
Qed.

(** X28: [get_available_models] never returns a model.  Whatever the
    backends answer and whichever instances are asked for, it returns the
    empty list or raises an [AttributeError]: the first model of a reply,
    like the first failure, leads to [instance.id]. *)
Theorem get_available_models_empty (backend : string → Raises HttpResponse)
  (instance_id : option string) (lb : LB.LoadBalancer) :
  match get_available_models backend instance_id lb with
  | inr models => models = []
  | inl e => is_attribute_error e
  end.
Proof. apply models_loop_empty. Qed.

(** With a backend that lists a model, the call raises. *)
Example listed_model_raises :
  get_available_models tags_backend None one_backend = inl no_id.
Proof. reflexivity. Qed.

Lemma pull_lines_result inst lines :
  pull_lines inst lines = inr None
  ∨ ∃ m, pull_lines inst lines = inl (AttributeError m).
Proof.
  induction lines as [|l lines IH]; [by left|].
  destruct l as [data| |text]; cbn [pull_lines]; [|done..].
  destruct data as [| | | | | |fields];
    try (right; by eexists).
  cbn [json_get bind ret].
  destruct (default JNull (dict_get "status" fields)); try done.
  case_bool_decide; [|done].
  right. destruct (id_of_raises inst) as [m ->]. by exists m.
Qed.

Lemma pull_to_instance_result backend inst model_name :
  _pull_model_to_instance backend inst model_name = inr None
  ∨ ∃ m, _pull_model_to_instance backend inst model_name
         = inl (AttributeError m).
Proof.
  unfold _pull_model_to_instance.
  destruct (bind (url_of inst) _) as [e|result] eqn:Hres.
  - right. destruct (id_of_raises inst) as [m ->]. by exists m.
  - left. destruct inst as [i|]; [|done]. cbn [url_of bind ret] in Hres.
    destruct (backend _ model_name) as [e|response]; [done|].
    cbn [bind] in Hres.
    destruct (pull_lines_result (Some i) (body response))
      as [H|[m H]]; rewrite H in Hres; [|done].
    by injection Hres as <-.
Qed.

(** X29: [pull_model] never reports the outcome of a pull.  It gives one
    result per instance asked for, and every result is [None] (the lines
    ended without a success line) or an [AttributeError] raised by the
    task: neither the success report nor the error report is ever
    returned, since both hold [instance.id]. *)
Theorem pull_model_never_reports
  (backend : string → string → Raises HttpResponse) (model_name : string)
  (instance_id : option string) (lb : LB.LoadBalancer) :
  length (pull_model backend model_name instance_id lb)
  = length (requested_instances instance_id lb)
  ∧ Forall (fun r => r = inr None ∨ ∃ m, r = inl (AttributeError m))
      (pull_model backend model_name instance_id lb).
Proof.
  unfold pull_model. split; [by rewrite length_fmap|].
  apply Forall_fmap, Forall_forall. intros inst _.
  apply pull_to_instance_result.
Qed.

(** With a backend that reports the pull done, the result is the
    exception. *)
Example finished_pull_raises :
  pull_model pull_backend "llama2:7b" None one_backend = [inl no_id].
Proof. reflexivity. Qed.
End models_facts.
